(** * The Great Filter: progress, ranking and survival statistics

    A shallow embedding of [AoC_2022/filter_map/filter_map.py]:
    [getMemberProgress], [orderMembers] and the table computed by
    [plotStats], with the properties stated about them; and around this
    core [getOptions], [readData], [plotInit], [plotLines], [plotEndPoints]
    and the labels of [plotStats].

    Conventions of the embedding.
    - Python [int] is [Z]; Python [float] is a rational [Q] (values are
      compared with [==]).  The operations on floats of the time window of
      [getMemberProgress] and of [plotLines] round to the nearest double,
      [double_round]; the other operations on floats are exact, and the
      value of a key that holds a float stands for the double stored there.
      [OverflowError] is not modelled: what depends on it is stated for
      timestamps that a double holds.
    - [math.inf], the default time limit, is the constructor [Unbounded].
    - A Python [dict] is a [gmap]; reading an absent key raises [KeyError],
      which is [None] in the [option] monad.
    - The module level table [OPTS] is the record [opts], passed explicitly.
    - The process wide state of [random] is a [rand_state]: an infinite
      sequence of draws of [random.random()] and the number consumed so far.
    - [members] is the list [members.values()], in the insertion order of
      the dictionary.  The keys of that dictionary are never read by the
      functions embedded here.  A member object is identified by its index
      in that list, so that writing a field through a sorted or filtered
      view updates the member itself.
    - The builtins [int()] and [float()] on strings, the reading of a file
      with [json.loads], [math.sin] and the timestamp of the start of the
      event, [datetime.datetime(int(event), 12, 1, 6).timestamp()], are
      variables of the sections that use them.
    - The calls on [matplotlib] are the values of [plot_call] and
      [stat_label], listed in the order in which they are made. *)

From Stdlib Require Import ZArith QArith Qabs Qround Lqa Lia Ascii.
From stdpp Require Import base option list sorting gmap strings pretty.

Local Open Scope Z_scope.

(** ** Configuration *)

Inductive order_mode :=
  | id1000 | magic | by_id | by_global | by_local | by_progress | by_stars.

#[global] Instance order_mode_eq_dec : EqDecision order_mode.
Proof. solve_decision. Defined.

Inductive time_limit_t :=
  | Unbounded
  | Limit (seconds : Q).

Record opts := {
  day_min : Z;
  days_total : Z;
  days_passed : Z;
  order_mode_of : order_mode;
  time_limit : time_limit_t;
}.

(** [OPTS] as the module defines it. *)
Definition OPTS : opts :=
  {| day_min := 1; days_total := 25; days_passed := 25;
     order_mode_of := id1000; time_limit := Unbounded |}.

(** [DELTA = 0.15] *)
Definition DELTA : Q := 15 # 100.

(** ** Members *)

(** [completion_day_level]: day string -> part string -> [get_star_ts]. *)
Abbreviation completion := (gmap string (gmap string Z)).

Record member := {
  id : Z;
  global_score : Z;
  local_score : Z;
  stars : Z;
  completion_day_level : completion;
  (* fields written by getMemberProgress *)
  progress : option Q;
  progress_exact : option Q;
  filtered : option bool;
  (* field written by orderMembers *)
  y : option Q;
}.

Definition set_progress (p pe : Q) (f : bool) (m : member) : member :=
  {| id := id m; global_score := global_score m; local_score := local_score m;
     stars := stars m; completion_day_level := completion_day_level m;
     progress := Some p; progress_exact := Some pe; filtered := Some f;
     y := y m |}.

Definition set_y (v : Q) (m : member) : member :=
  {| id := id m; global_score := global_score m; local_score := local_score m;
     stars := stars m; completion_day_level := completion_day_level m;
     progress := progress m; progress_exact := progress_exact m;
     filtered := filtered m;
     y := Some v |}.

(** ** The random source *)

Record rand_state := { draws : nat → Q; consumed : nat }.

(** [random.random()] *)
Definition random_random (s : rand_state) : Q * rand_state :=
  (draws s (consumed s), {| draws := draws s; consumed := S (consumed s) |}).

(** [random.uniform(a, b)] is [a + (b - a) * random()]. *)
Definition random_uniform (a b : Q) (s : rand_state) : Q * rand_state :=
  let '(r, s') := random_random s in ((a + (b - a) * r)%Q, s').

(** Every draw of [random.random()] lies in [0, 1). *)
Definition rand_ok (s : rand_state) : Prop :=
  ∀ n, (0 <= draws s n)%Q ∧ (draws s n < 1)%Q.

(** [randDelta] of [getMemberProgress]. *)
Definition randDelta (delta : Q) (s : rand_state) : Q * rand_state :=
  let '(r, s') := random_random s in ((r * delta * 2 - delta)%Q, s').

(** ** Doubles *)

(** A Python [float] is a binary64 number: zero, or [m * 2 ^ e] with an
    integer [m] of 53 bits and [-1074 <= e].  An operation on floats gives
    the double nearest to the exact result, a tie going to the even
    mantissa. *)

(** The nearest integer, a tie going to the even one. *)
Definition round_half_even (q : Q) : Z :=
  let f := Qfloor q in
  match (q - inject_Z f ?= 1 # 2)%Q with
  | Lt => f
  | Eq => if Z.even f then f else f + 1
  | Gt => f + 1
  end.

(** [q * 2 ^ e] *)
Definition scale2 (q : Q) (e : Z) : Q :=
  if 0 <=? e then (q * inject_Z (2 ^ e))%Q else (q / inject_Z (2 ^ (- e)))%Q.

(** The integer part of the binary logarithm of [a > 0]. *)
Definition Qlog2 (a : Q) : Z :=
  let k := Z.log2 (Qnum a) - Z.log2 (Zpos (Qden a)) in
  if Qle_bool (scale2 1 k) a then k else k - 1.

(** The double nearest to [q]. *)
Definition double_round (q : Q) : Q :=
  if Qeq_bool q 0 then 0%Q
  else
    let e := Z.max (Qlog2 (Qabs q) - 52) (-1074) in
    scale2 (inject_Z (round_half_even (scale2 q (- e)))) e.

(** The conversion of an [int] that meets a [float] in an operation.
    Beyond the largest double Python raises [OverflowError] here; the
    embedding rounds on, and what is proved of the time window is proved
    for timestamps far below that. *)
Definition float_of_int (z : Z) : Q := double_round (inject_Z z).

(** ** The time window *)

(** [x <= OPTS["time_limit"]] *)
Definition within_limit (x : Q) (l : time_limit_t) : bool :=
  match l with
  | Unbounded => true
  | Limit s => Qle_bool x s
  end.

(** [start_time = event_start_time + (86400 * (day - 1))], a float plus an
    int. *)
Definition start_time (event_start_time : Q) (day : Z) : Q :=
  double_round (event_start_time + float_of_int (86400 * (day - 1))).

(** [time is not None and time - start_time <= OPTS["time_limit"]], an int
    minus a float. *)
Definition passes (o : opts) (event_start_time : Q) (day : Z)
    (time : option Z) : bool :=
  match time with
  | None => false
  | Some t =>
      within_limit
        (double_round (float_of_int t - start_time event_start_time day))
        (time_limit o)
  end.

(** [range(a, b)] *)
Definition range (a b : Z) : list Z := seqZ a (b - a).

(** [str(day)] *)
Definition str (day : Z) : string := pretty day.

(** The timestamps [(time1, time2)] read for [day]. *)
Definition day_times (cd : completion) (day : Z) : option Z * option Z :=
  match cd !! str day with
  | Some day_data => (day_data !! "1"%string, day_data !! "2"%string)
  | None => (None, None)
  end.

(** ** getMemberProgress *)

Section Progress.

Variable o : opts.
(** [datetime.datetime(int(event), 12, 1, 6).timestamp()], a value of the
    local clock that the embedding takes as given. *)
Variable event_start_time : Q.

(** [pass1] and [pass2] of one day. *)
Definition pass1 (cd : completion) (day : Z) : bool :=
  passes o event_start_time day (day_times cd day).1.

Definition pass2 (cd : completion) (day : Z) : bool :=
  passes o event_start_time day (day_times cd day).2.

(** [filtered_by_day[day] += 1] *)
Definition incr_day (day : Z) (fbd : gmap Z Z) : option (gmap Z Z) :=
  n ← fbd !! day; Some (<[day := n + 1]> fbd).

(** The loop [for day in range(day_min, days_total + 1)] over the days
    still to visit, with its [break]s.  The result is the triple
    (progress, progress_exact, filtered) with the tally and the random
    state. *)
Fixpoint scan_days (cd : completion) (days : list Z)
    (fbd : gmap Z Z) (rnd : rand_state)
    : option (Q * Q * bool * gmap Z Z * rand_state) :=
  match days with
  | [] =>
      Some (inject_Z (days_total o + 2), inject_Z (days_total o + 2), false,
            fbd, rnd)
  | day :: rest =>
      if negb (pass1 cd day) then
        fbd' ← incr_day day fbd;
        if bool_decide (day ≤ days_passed o) then
          Some ((inject_Z day - DELTA)%Q, (inject_Z day - DELTA)%Q, true,
                fbd', rnd)
        else
          let '(r, rnd') := randDelta (15 # 100) rnd in
          Some ((inject_Z day - (1 # 2) + r)%Q, (inject_Z day - (1 # 2))%Q,
                false, fbd', rnd')
      else if negb (pass2 cd day) then
        fbd' ← incr_day day fbd;
        if bool_decide (day ≤ days_passed o) then
          Some ((inject_Z day + DELTA)%Q, (inject_Z day + DELTA)%Q, true,
                fbd', rnd)
        else
          let '(r, rnd') := randDelta (5 # 100) rnd in
          Some ((inject_Z day + r)%Q, inject_Z day, false, fbd', rnd')
      else scan_days cd rest fbd rnd
  end.

(** The body of [for member in members.values()]. *)
Definition member_progress (m : member) (fbd : gmap Z Z) (rnd : rand_state)
    : option (member * gmap Z Z * rand_state) :=
  '(p, pe, f, fbd', rnd') ←
    scan_days (completion_day_level m)
              (range (day_min o) (days_total o + 1)) fbd rnd;
  Some (set_progress p pe f m, fbd', rnd').

Fixpoint members_progress (members : list member)
    (fbd : gmap Z Z) (rnd : rand_state)
    : option (list member * gmap Z Z * rand_state) :=
  match members with
  | [] => Some ([], fbd, rnd)
  | m :: rest =>
      '(m', fbd1, rnd1) ← member_progress m fbd rnd;
      '(rest', fbd2, rnd2) ← members_progress rest fbd1 rnd1;
      Some (m' :: rest', fbd2, rnd2)
  end.

(** [for i in range(1, days_total + 1): filtered_by_day[i] = 0] *)
Definition init_filtered_by_day : gmap Z Z :=
  foldl (λ fbd i, <[i := 0]> fbd) ∅ (range 1 (days_total o + 1)).

Definition getMemberProgress (members : list member) (rnd : rand_state)
    : option (list member * gmap Z Z * rand_state) :=
  members_progress members init_filtered_by_day rnd.

End Progress.

(** ** Sorting *)

(** [sorted(l, key=...)]: the stable ascending sort.  The element that
    comes first in the input is put before the elements of equal key. *)
Section Sorted.

Context {A : Type}.
Variable key : A → Q.

Fixpoint insert_sorted (x : A) (l : list A) : list A :=
  match l with
  | [] => [x]
  | x' :: l' =>
      if Qle_bool (key x) (key x') then x :: x' :: l'
      else x' :: insert_sorted x l'
  end.

Definition sorted (l : list A) : list A := foldr insert_sorted [] l.

End Sorted.

(** [enumerate(l)] *)
Fixpoint enumerate_from {A} (i : nat) (l : list A) : list (nat * A) :=
  match l with
  | [] => []
  | x :: l' => (i, x) :: enumerate_from (S i) l'
  end.

Definition enumerate {A} (l : list A) : list (nat * A) := enumerate_from 0 l.

(** ** orderMembers *)

(** [order_func]; reading [m["progress_exact"]] before it is set raises. *)
Definition order_func (mode : order_mode) (m : member) : option Q :=
  match mode with
  | id1000 | magic => Some (inject_Z (id m `mod` 1000))
  | by_id => Some (inject_Z (id m))
  | by_global => Some (inject_Z (global_score m))
  | by_local => Some (inject_Z (local_score m))
  | by_progress => progress_exact m
  | by_stars => Some (inject_Z (stars m))
  end.

(** A view of the members: each entry is the key of a member and the index
    of that member in [members.values()]. *)
Abbreviation view := (list (Q * nat)).

(** The keys of [members.values()], computed before the sort. *)
Fixpoint keyed_from (f : member → option Q) (j : nat) (members : list member)
    : option view :=
  match members with
  | [] => Some []
  | m :: rest =>
      k ← f m;
      v ← keyed_from f (S j) rest;
      Some ((k, j) :: v)
  end.

(** [sorted(members.values(), key=order_func)] *)
Definition members_ordered (mode : order_mode) (members : list member)
    : option view :=
  v ← keyed_from (order_func mode) 0 members;
  Some (sorted fst v).

(** [(i+1)/len(members)] *)
Definition rank_position (i n : nat) : Q :=
  (inject_Z (Z.of_nat i + 1) / inject_Z (Z.of_nat n))%Q.

(** [for i, member in enumerate(members_ordered): member["y"] = ...] *)
Definition assign_positions (ordered : view) (members : list member)
    : list member :=
  foldl (λ ms '(i, (_, j)), alter (set_y (rank_position i (length members))) j ms)
        members (enumerate ordered).

(** [[m for m in members.values() if not m["filtered"]]], keyed by
    [int(m["id"]) % 1000]. *)
Fixpoint unfiltered_from (j : nat) (members : list member) : option view :=
  match members with
  | [] => Some []
  | m :: rest =>
      f ← filtered m;
      v ← unfiltered_from (S j) rest;
      Some (if (f : bool) then v else (inject_Z (id m `mod` 1000), j) :: v)
  end.

(** [a % b] on floats, for [b > 0]. *)
Definition float_mod (a b : Q) : Q :=
  (a - b * inject_Z (Qfloor (a / b)))%Q.

(** [for i,m in enumerate(ms): m["y"] = offset + i * dy + random.uniform(-dy/4, dy/4)] *)
Fixpoint magic_assign (dy offset : Q) (ims : list (nat * (Q * nat)))
    (members : list member) (rnd : rand_state) : list member * rand_state :=
  match ims with
  | [] => (members, rnd)
  | (i, (_, j)) :: rest =>
      let '(u, rnd') := random_uniform (- dy / 4) (dy / 4) rnd in
      magic_assign dy offset rest
        (alter (set_y (offset + inject_Z (Z.of_nat i) * dy + u)%Q) j members)
        rnd'
  end.

(** The block under [if OPTS["order_mode"] == "magic"]. *)
Definition magic_pass (members : list member) (rnd : rand_state)
    : option (list member * rand_state) :=
  v ← unfiltered_from 0 members;
  let ms := sorted fst v in
  if bool_decide (length ms ≠ 0%nat) then
    let dy := (1 / inject_Z (Z.of_nat (length ms)))%Q in
    let '(r, rnd') := random_random rnd in
    let offset := float_mod r dy in
    Some (magic_assign dy offset (enumerate ms) members rnd')
  else Some (members, rnd).

Definition orderMembers (o : opts) (members : list member) (rnd : rand_state)
    : option (list member * rand_state) :=
  ordered ← members_ordered (order_mode_of o) members;
  let members' := assign_positions ordered members in
  match order_mode_of o with
  | magic => magic_pass members' rnd
  | _ => Some (members', rnd)
  end.

(** ** plotStats *)

(** [a / b] on integers; a zero divisor raises [ZeroDivisionError]. *)
Definition true_div (a b : Z) : option Q :=
  if bool_decide (b = 0) then None else Some (inject_Z a / inject_Z b)%Q.

(** The loop that fills [remaining_by_day] for the days still to visit. *)
Fixpoint remaining_loop (filtered_by_day : gmap Z Z) (days : list Z)
    (remaining : Z) (remaining_by_day : gmap Z Z) : option (gmap Z Z) :=
  match days with
  | [] => Some remaining_by_day
  | i :: rest =>
      filtered ← filtered_by_day !! i;
      let remaining' := remaining - filtered in
      remaining_loop filtered_by_day rest remaining'
                     (<[i := remaining']> remaining_by_day)
  end.

Definition remaining_table (o : opts) (n : nat) (filtered_by_day : gmap Z Z)
    : option (gmap Z Z) :=
  remaining_loop filtered_by_day (range 1 (days_total o + 1))
                 (Z.of_nat n) {[ 0 := Z.of_nat n ]}.

(** One line printed by the loop "Draw user counts". *)
Record stat_row := {
  row_day : Z;
  row_eliminated : Z;
  pass_frac : Q;
  percent_filtered : Q;
  percent_total : Q;
}.

Fixpoint stats_loop (remaining_by_day : gmap Z Z) (days : list Z)
    : option (list stat_row) :=
  match days with
  | [] => Some []
  | i :: rest =>
      prev ← remaining_by_day !! (i - 1);
      if bool_decide (prev = 0) then stats_loop remaining_by_day rest
      else
        cur ← remaining_by_day !! i;
        pf ← true_div cur prev;
        first ← remaining_by_day !! 0;
        tf ← true_div cur first;
        rows ← stats_loop remaining_by_day rest;
        Some ({| row_day := i; row_eliminated := prev - cur; pass_frac := pf;
                 percent_filtered := (100 * (1 - pf))%Q;
                 percent_total := (100 * tf)%Q |} :: rows)
  end.

(** [plotStats]: the table [remaining_by_day] and the printed lines.  The
    calls that draw on the chart are left out. *)
Definition plotStats (o : opts) (members : list member)
    (filtered_by_day : gmap Z Z) : option (gmap Z Z * list stat_row) :=
  remaining_by_day ← remaining_table o (length members) filtered_by_day;
  rows ← stats_loop remaining_by_day (range 1 (days_passed o + 1));
  Some (remaining_by_day, rows).

(** * The functions around the core *)

(** ** The table OPTS with all its keys *)

(** A float that need not be finite: [float()] accepts "inf" and "nan" on
    the command line. *)
Inductive pyfloat :=
  | Finite (q : Q)
  | PosInf
  | NegInf
  | NaN.

(** [x * 3600] *)
Definition float_times_3600 (x : pyfloat) : pyfloat :=
  match x with
  | Finite q => Finite (q * 3600)
  | PosInf => PosInf
  | NegInf => NegInf
  | NaN => NaN
  end.

Record opts_table := {
  table_day_min : Z;
  table_days_total : Z;
  table_days_passed : Z;
  table_figure_size : pyfloat * pyfloat;
  table_display_names : bool;
  table_figure_title_override : option string;
  table_display_percentage : bool;
  table_order_mode : order_mode;
  table_time_limit : pyfloat;
}.

(** [OPTS] with the keys that only the drawing functions read. *)
Definition OPTS_table : opts_table :=
  {| table_day_min := 1; table_days_total := 25; table_days_passed := 25;
     table_figure_size := (Finite 26, Finite 13);
     table_display_names := true;
     table_figure_title_override := None;
     table_display_percentage := true;
     table_order_mode := id1000;
     table_time_limit := PosInf |}.

(** The keys read by [getMemberProgress], [orderMembers] and [plotStats].
    A time limit that is [-inf] or [nan] has no counterpart in
    [time_limit_t]. *)
Definition core_opts (t : opts_table) : option opts :=
  limit ← match table_time_limit t with
          | Finite q => Some (Limit q)
          | PosInf => Some Unbounded
          | NegInf | NaN => None
          end;
  Some {| day_min := table_day_min t; days_total := table_days_total t;
          days_passed := table_days_passed t;
          order_mode_of := table_order_mode t; time_limit := limit |}.

Definition set_table_day_min (v : Z) (t : opts_table) : opts_table :=
  {| table_day_min := v; table_days_total := table_days_total t;
     table_days_passed := table_days_passed t;
     table_figure_size := table_figure_size t;
     table_display_names := table_display_names t;
     table_figure_title_override := table_figure_title_override t;
     table_display_percentage := table_display_percentage t;
     table_order_mode := table_order_mode t;
     table_time_limit := table_time_limit t |}.

Definition set_table_days_total (v : Z) (t : opts_table) : opts_table :=
  {| table_day_min := table_day_min t; table_days_total := v;
     table_days_passed := table_days_passed t;
     table_figure_size := table_figure_size t;
     table_display_names := table_display_names t;
     table_figure_title_override := table_figure_title_override t;
     table_display_percentage := table_display_percentage t;
     table_order_mode := table_order_mode t;
     table_time_limit := table_time_limit t |}.

Definition set_table_days_passed (v : Z) (t : opts_table) : opts_table :=
  {| table_day_min := table_day_min t; table_days_total := table_days_total t;
     table_days_passed := v;
     table_figure_size := table_figure_size t;
     table_display_names := table_display_names t;
     table_figure_title_override := table_figure_title_override t;
     table_display_percentage := table_display_percentage t;
     table_order_mode := table_order_mode t;
     table_time_limit := table_time_limit t |}.

Definition set_table_figure_size (v : pyfloat * pyfloat) (t : opts_table)
    : opts_table :=
  {| table_day_min := table_day_min t; table_days_total := table_days_total t;
     table_days_passed := table_days_passed t;
     table_figure_size := v;
     table_display_names := table_display_names t;
     table_figure_title_override := table_figure_title_override t;
     table_display_percentage := table_display_percentage t;
     table_order_mode := table_order_mode t;
     table_time_limit := table_time_limit t |}.

Definition set_table_display_names (v : bool) (t : opts_table) : opts_table :=
  {| table_day_min := table_day_min t; table_days_total := table_days_total t;
     table_days_passed := table_days_passed t;
     table_figure_size := table_figure_size t;
     table_display_names := v;
     table_figure_title_override := table_figure_title_override t;
     table_display_percentage := table_display_percentage t;
     table_order_mode := table_order_mode t;
     table_time_limit := table_time_limit t |}.

Definition set_table_figure_title_override (v : option string)
    (t : opts_table) : opts_table :=
  {| table_day_min := table_day_min t; table_days_total := table_days_total t;
     table_days_passed := table_days_passed t;
     table_figure_size := table_figure_size t;
     table_display_names := table_display_names t;
     table_figure_title_override := v;
     table_display_percentage := table_display_percentage t;
     table_order_mode := table_order_mode t;
     table_time_limit := table_time_limit t |}.

Definition set_table_display_percentage (v : bool) (t : opts_table)
    : opts_table :=
  {| table_day_min := table_day_min t; table_days_total := table_days_total t;
     table_days_passed := table_days_passed t;
     table_figure_size := table_figure_size t;
     table_display_names := table_display_names t;
     table_figure_title_override := table_figure_title_override t;
     table_display_percentage := v;
     table_order_mode := table_order_mode t;
     table_time_limit := table_time_limit t |}.

Definition set_table_order_mode (v : order_mode) (t : opts_table)
    : opts_table :=
  {| table_day_min := table_day_min t; table_days_total := table_days_total t;
     table_days_passed := table_days_passed t;
     table_figure_size := table_figure_size t;
     table_display_names := table_display_names t;
     table_figure_title_override := table_figure_title_override t;
     table_display_percentage := table_display_percentage t;
     table_order_mode := v;
     table_time_limit := table_time_limit t |}.

Definition set_table_time_limit (v : pyfloat) (t : opts_table) : opts_table :=
  {| table_day_min := table_day_min t; table_days_total := table_days_total t;
     table_days_passed := table_days_passed t;
     table_figure_size := table_figure_size t;
     table_display_names := table_display_names t;
     table_figure_title_override := table_figure_title_override t;
     table_display_percentage := table_display_percentage t;
     table_order_mode := table_order_mode t;
     table_time_limit := v |}.

(** ** getOptions *)

(** [a[n:]] *)
Fixpoint string_drop (n : nat) (s : string) : string :=
  match n, s with
  | O, _ => s
  | S n', String _ s' => string_drop n' s'
  | S _, EmptyString => EmptyString
  end.

(** [s.split(c)] for a one character separator. *)
Fixpoint split_on (c : Ascii.ascii) (s : string) : list string :=
  match s with
  | EmptyString => [EmptyString]
  | String c' s' =>
      if Ascii.eqb c' c then EmptyString :: split_on c s'
      else match split_on c s' with
           | [] => [String c' EmptyString]
           | part :: parts => String c' part :: parts
           end
  end.

(** The chain on [m = a[2:]] under [a.startswith("-o")]; an unknown letter
    raises. *)
Definition order_mode_of_letter (m : string) : option order_mode :=
  if String.eqb m "i" then Some by_id
  else if String.eqb m "g" then Some by_global
  else if String.eqb m "l" then Some by_local
  else if String.eqb m "p" then Some by_progress
  else if String.eqb m "s" then Some by_stars
  else if String.eqb m "m" then Some magic
  else None.

Section GetOptions.

(** The builtins [int()] and [float()] on strings; [None] is their
    [ValueError]. *)
Variable py_int : string → option Z.
Variable py_float : string → option pyfloat.

(** The body of [for a in sys.argv[1:]]. *)
Definition option_step (a : string) (t : opts_table)
    (input_filenames : list string) : option (opts_table * list string) :=
  if String.prefix "-d" a then
    n ← py_int (string_drop 2 a);
    Some (set_table_days_passed n t, input_filenames)
  else if String.prefix "-t" a then
    n ← py_int (string_drop 2 a);
    Some (set_table_days_total n t, input_filenames)
  else if String.prefix "-s" a then
    match split_on "x"%char (string_drop 2 a) with
    | [w; h] =>
        fw ← py_float w;
        fh ← py_float h;
        Some (set_table_figure_size (fw, fh) t, input_filenames)
    | _ => None
    end
  else if String.prefix "-o" a then
    mode ← order_mode_of_letter (string_drop 2 a);
    Some (set_table_order_mode mode t, input_filenames)
  else if String.eqb a "-n" then
    Some (set_table_display_names false t, input_filenames)
  else if String.eqb a "-p" then
    Some (set_table_display_percentage false t, input_filenames)
  else if String.prefix "-i" a then
    n ← py_int (string_drop 2 a);
    Some (set_table_day_min n t, input_filenames)
  else if String.prefix "-l" a then
    x ← py_float (string_drop 2 a);
    Some (set_table_time_limit (float_times_3600 x) t, input_filenames)
  else if String.prefix "-T" a then
    Some (set_table_figure_title_override (Some (string_drop 2 a)) t,
          input_filenames)
  else Some (t, input_filenames ++ [a]).

Fixpoint options_loop (args : list string) (t : opts_table)
    (input_filenames : list string) : option (opts_table * list string) :=
  match args with
  | [] => Some (t, input_filenames)
  | a :: rest =>
      '(t', input_filenames') ← option_step a t input_filenames;
      options_loop rest t' input_filenames'
  end.

(** [getOptions] on [sys.argv = argv], with the table [t] for [OPTS]. *)
Definition getOptions (argv : list string) (t : opts_table)
    : option (opts_table * list string) :=
  options_loop (drop 1 argv) t ["a.json"%string].

End GetOptions.

(** ** The first line of getMemberProgress *)

Section EventStart.

(** [datetime.datetime(int(event), 12, 1, 6).timestamp()] of line 190;
    [None] when [int()] or [datetime] raises. *)
Variable timestamp : string → option Q.

(** [getMemberProgress(members, event)] from its first line on; the
    definition [getMemberProgress] above is the function after that line,
    with the start of the event as line 190 gives it. *)
Definition getMemberProgress_event (o : opts) (event : string)
    (members : list member) (rnd : rand_state)
    : option (list member * gmap Z Z * rand_state) :=
  event_start_time ← timestamp event;
  getMemberProgress o event_start_time members rnd.

End EventStart.

(** ** readData *)

(** A dictionary that keeps the order of insertion. *)
Abbreviation odict V := (list (string * V)).

(** [d[k] = v] *)
Fixpoint dict_set {V} (k : string) (v : V) (d : odict V) : odict V :=
  match d with
  | [] => [(k, v)]
  | (k', v') :: d' =>
      if decide (k' = k) then (k', v) :: d'
      else (k', v') :: dict_set k v d'
  end.

(** [d.update(other)] *)
Definition dict_update {V} (d other : odict V) : odict V :=
  foldl (λ d kv, dict_set kv.1 kv.2 d) d other.

(** What [json.loads] returns for one file: the values under "members" and
    "event", each absent when the key is. *)
Record file_data := {
  data_members : option (odict member);
  data_event : option string;
}.

Section ReadData.

(** [open(filename)], [f.read()] and [json.loads]; [None] when one of them
    raises. *)
Variable load : string → option file_data.

(** The loop over [input_filenames], with [data] as the last turn left
    it. *)
Fixpoint read_files (input_filenames : list string) (members : odict member)
    (data : option file_data) : option (odict member * option file_data) :=
  match input_filenames with
  | [] => Some (members, data)
  | filename :: rest =>
      data' ← load filename;
      ms ← data_members data';
      read_files rest (dict_update members ms) (Some data')
  end.

(** The loop that fills [filtered_members]. *)
Definition keep_starred (members : odict member) : odict member :=
  foldl (λ filtered_members kv,
           if bool_decide (stars kv.2 ≠ 0)
           then dict_set kv.1 kv.2 filtered_members
           else filtered_members)
        [] members.

(** [readData]; after a loop without turns [data] is unbound and reading it
    raises. *)
Definition readData (input_filenames : list string)
    : option (odict member * string) :=
  '(members, data) ← read_files input_filenames [] None;
  let filtered_members := keep_starred members in
  data' ← data;
  event ← data_event data';
  Some (filtered_members, event).

End ReadData.

(** ** The drawing functions *)

Definition DARK : bool := true.

Definition RED : string := if DARK then "#404040" else "#bf0000".
Definition GREY : string := if DARK then "#008080" else "#bfbfbf".
Definition BLUE : string := if DARK then "#404040" else "#40bfbf".
Definition TEXT : string := if DARK then "#ffffff" else "#000000".
Definition TEXT_GREY : string := if DARK then "#dfdfdf" else "#606060".
Definition BACKGROUND : string := if DARK then "#000810" else "#ffffff".

(** The text of a label: a name, or the id of a member without name. *)
Inductive label :=
  | LabelName (s : string)
  | LabelId (i : Z).

(** The calls made on matplotlib by [plotInit], [plotLines] and
    [plotEndPoints], with the arguments that vary.  [Plot] is drawn with
    ['-'], [linewidth=1.0] and [alpha=0.7]; [Annotate] with [size=8]. *)
Inductive plot_call :=
  | Figure (figsize : pyfloat * pyfloat)
  | StyleUse (style : string)
  | Axes
  | SetFacecolor (color : string)
  | Xlim (lo hi : Z)
  | Ylim (lo hi : Q)
  | Title (text : string) (fontsize : Z)
  | Xticks (ticks : list Z)
  | TickParams
  | Gca
  | YaxisVisible (visible : bool)
  | Axvline (x : Q) (color : string)
  | Plot (values_x values_y : list Q) (color : string)
  | Annotate (text : label) (x y : Q) (horizontalalignment color : string).

(** The two filter lines of [day]. *)
Definition day_lines (color : string) (day : Z) : list plot_call :=
  [Axvline (inject_Z day - DELTA)%Q color;
   Axvline (inject_Z day + DELTA)%Q color].

(** [plotInit]; [event] is the value under "event", put into the title. *)
Definition plotInit (t : opts_table) (event : string) : list plot_call :=
  let figure_title :=
    match table_figure_title_override t with
    | Some title => title
    | None => ("THE GREAT FILTER " +:+ event)%string
    end in
  [Figure (table_figure_size t)]
  ++ (if DARK then [StyleUse "dark_background"] else [])
  ++ [Axes; SetFacecolor BACKGROUND;
      Xlim (-1) (table_days_total t + 2);
      Ylim (- (5 # 100)) (1065 # 1000);
      Title figure_title 36;
      Xticks (range 1 (table_days_total t + 1));
      TickParams; Gca; YaxisVisible false]
  ++ (range 1 (table_day_min t) ≫= day_lines GREY)
  ++ (range (table_day_min t) (table_days_passed t + 1) ≫= day_lines RED)
  ++ (range (table_days_passed t + 1) (table_days_total t + 1)
        ≫= day_lines GREY).

(** A member with the keys that only the drawing functions use: "name",
    read from the input, and "end_pos", written by [plotLines]. *)
Record drawn_member := {
  member_of : member;
  name : option string;
  end_pos : option (Q * Q);
}.

Definition set_end_pos (v : Q * Q) (d : drawn_member) : drawn_member :=
  {| member_of := member_of d; name := name d; end_pos := Some v |}.

(** [int(x)] on a float: the fraction is cut off. *)
Definition int_of_float (x : Q) : Z :=
  if Qlt_le_dec x 0 then Qceiling x else Qfloor x.

Section Drawing.

(** [math.sin] *)
Variable sin : Q → Q.

(** [f] of [plotLines]: [oy + 0.01 * math.sin(x + ox)], each operation
    rounded; [0.01] is the double nearest to 1/100. *)
Definition wave (x ox oy : Q) : Q :=
  double_round
    (oy + double_round (double_round (1 # 100) * sin (double_round (x + ox)))).

(** The body of the loop of [plotLines]: the call drawn and the member with
    its "end_pos".  The operations on floats are rounded; the integers 100
    and [i] that meet a float are doubles as they are. *)
Definition plot_line (d : drawn_member) (rnd : rand_state)
    : option (plot_call * drawn_member * rand_state) :=
  progress ← progress (member_of d);
  filtered ← filtered (member_of d);
  let line_color := if (filtered : bool) then GREY else BLUE in
  let N := 100 in
  let values_x :=
    (λ i, double_round (inject_Z i / inject_Z N))
      <$> range (-1 * N)
                (int_of_float (double_round (progress * inject_Z N))) in
  let '(r, rnd') := random_random rnd in
  let offset_x := double_round (r * 100) in
  offset_y ← y (member_of d);
  let offset_y' :=
    double_round
      (offset_y - double_round (wave progress offset_x offset_y - offset_y)) in
  let values_y := (λ x, wave x offset_x offset_y') <$> values_x in
  Some (Plot values_x values_y line_color,
        set_end_pos (progress, wave progress offset_x offset_y') d,
        rnd').

Fixpoint plotLines (members : list drawn_member) (rnd : rand_state)
    : option (list plot_call * list drawn_member * rand_state) :=
  match members with
  | [] => Some ([], [], rnd)
  | d :: rest =>
      '(call, d', rnd1) ← plot_line d rnd;
      '(calls, rest', rnd2) ← plotLines rest rnd1;
      Some (call :: calls, d' :: rest', rnd2)
  end.

End Drawing.

(** The body of the loop of [plotEndPoints]. *)
Definition plot_end_point (t : opts_table) (d : drawn_member)
    : option (list plot_call) :=
  filtered ← filtered (member_of d);
  '(x, y) ← end_pos d;
  if table_display_names t then
    let text := match name d with
                | Some s => LabelName s
                | None => LabelId (id (member_of d))
                end in
    let color := if (filtered : bool) then TEXT_GREY else TEXT in
    if filtered || Qle_bool (inject_Z (table_days_total t + 1)) x then
      Some [Annotate text (x - (1 # 10))%Q y "center" color]
    else
      Some [Annotate text (x + (1 # 10))%Q y "left" color]
  else Some [].

Fixpoint plotEndPoints (t : opts_table) (members : list drawn_member)
    : option (list plot_call) :=
  match members with
  | [] => Some []
  | d :: rest =>
      calls ← plot_end_point t d;
      calls' ← plotEndPoints t rest;
      Some (calls ++ calls')
  end.

(** ** The labels of plotStats *)

(** The calls of [plotStats] on the chart, which the table and the printed
    lines above leave out.  [PercentLabel v day] is the text
    [f"-{v:.0f}%"] at [(day, 1.05)], [CountLabel n day] the text [f"{n}"]
    at [(day + 0.5, 1.04)]; both are centred, in size 8. *)
Inductive stat_label :=
  | PercentLabel (percent_filtered : Q) (day : Z)
  | CountLabel (remaining : Z) (day : Z).

(** The call at the end of the turn of "Draw user counts" that printed
    [row]. *)
Definition percent_label (t : opts_table) (row : stat_row)
    : list stat_label :=
  if table_display_percentage t && negb (Qeq_bool (pass_frac row) 1)
  then [PercentLabel (percent_filtered row) (row_day row)]
  else [].

(** The loop "Draw percentages". *)
Fixpoint count_labels (remaining_by_day : gmap Z Z) (days : list Z)
    : option (list stat_label) :=
  match days with
  | [] => Some []
  | i :: rest =>
      n ← remaining_by_day !! i;
      labels ← count_labels remaining_by_day rest;
      Some (CountLabel n i :: labels)
  end.

(** The calls of [plotStats] on the chart, in the order in which they are
    made. *)
Definition plotStats_labels (o : opts) (t : opts_table)
    (members : list member) (filtered_by_day : gmap Z Z)
    : option (list stat_label) :=
  '(remaining_by_day, rows) ← plotStats o members filtered_by_day;
  let percents := rows ≫= percent_label t in
  if table_display_percentage t then
    counts ← count_labels remaining_by_day (range 0 (days_passed o + 1));
    Some (percents ++ counts)
  else Some percents.

(** * The vocabulary of the properties *)

(** ** First failing days and the tally *)

Section Vocabulary.

Variable o : opts.
Variable event_start_time : Q.

Local Abbreviation pass1 := (pass1 o event_start_time).
Local Abbreviation pass2 := (pass2 o event_start_time).

(** Both parts of the day are passed. *)
Definition passes_day (cd : completion) (day : Z) : bool :=
  pass1 cd day && pass2 cd day.

(** [d] is the first failing day of the scan. *)
Definition first_failure (cd : completion) (d : Z) : Prop :=
  day_min o ≤ d ≤ days_total o ∧ passes_day cd d = false ∧
  ∀ d', day_min o ≤ d' < d → passes_day cd d' = true.

(** The scan meets no failing day. *)
Definition never_fails (cd : completion) : Prop :=
  ∀ d, day_min o ≤ d ≤ days_total o → passes_day cd d = true.

(** The first failing day, computed. *)
Definition fail_day (cd : completion) : option Z :=
  snd <$> list_find (λ d, passes_day cd d = false)
                    (range (day_min o) (days_total o + 1)).

(** Every day of the event has an entry in the tally. *)
Definition tally_ok (fbd : gmap Z Z) : Prop :=
  ∀ d, 1 ≤ d ≤ days_total o → is_Some (fbd !! d).

(** What the scan leaves in the fields of a member whose first failing day
    is [d]. *)
Definition failure_fields (cd : completion) (d : Z) (p pe : Q) (f : bool)
    : Prop :=
  (pass1 cd d = false → d ≤ days_passed o →
     f = true ∧ pe = (inject_Z d - DELTA)%Q ∧ p = pe) ∧
  (pass1 cd d = false → days_passed o < d →
     f = false ∧ pe = (inject_Z d - (1 # 2))%Q ∧
     (- (15 # 100) <= p - pe)%Q ∧ (p - pe <= 15 # 100)%Q) ∧
  (pass1 cd d = true → d ≤ days_passed o →
     f = true ∧ pe = (inject_Z d + DELTA)%Q ∧ p = pe) ∧
  (pass1 cd d = true → days_passed o < d →
     f = false ∧ pe = inject_Z d ∧
     (- (5 # 100) <= p - pe)%Q ∧ (p - pe <= 5 # 100)%Q).

(** One turn of the loop over the members: [m'] is [m] after the turn,
    [fbd'] the tally after it. *)
Definition member_turn (m m' : member) (fbd fbd' : gmap Z Z) : Prop :=
  (never_fails (completion_day_level m) ∧ fbd' = fbd ∧
   m' = set_progress (inject_Z (days_total o + 2))
                     (inject_Z (days_total o + 2)) false m) ∨
  (∃ d n p pe f,
     first_failure (completion_day_level m) d ∧
     fbd !! d = Some n ∧ fbd' = <[d := n + 1]> fbd ∧
     m' = set_progress p pe f m ∧
     failure_fields (completion_day_level m) d p pe f).

End Vocabulary.

(** ** Counting and the survival table *)

(** The number of members whose first failing day is [d]. *)
Definition eliminated_on (o : opts) (event_start_time : Q) (d : Z)
    (members : list member) : Z :=
  Z.of_nat (length (filter
    (λ m, fail_day o event_start_time (completion_day_level m) = Some d)
    members)).

(** The fields of [m'] are those a turn of the loop gives to [m]. *)
Definition member_result (o : opts) (event_start_time : Q) (m m' : member)
    : Prop :=
  ∃ fbd fbd', member_turn o event_start_time m m' fbd fbd'.

(** [x <= limit], where the unbounded limit admits every [x]. *)
Definition limit_allows (x : Q) (l : time_limit_t) : Prop :=
  match l with
  | Unbounded => True
  | Limit s => (x <= s)%Q
  end.

(** The sum of a list of integers. *)
Definition Zsum (l : list Z) : Z := foldr Z.add 0 l.

(** [filtered_by_day[d]], zero for a day without an entry. *)
Definition tally_at (fbd : gmap Z Z) (d : Z) : Z := default 0 (fbd !! d).

(** The tallies of the days [1 .. d] added up. *)
Definition filtered_upto (fbd : gmap Z Z) (d : Z) : Z :=
  Zsum (tally_at fbd <$> range 1 (d + 1)).

(** What a printed line says, given the table it is computed from. *)
Definition stat_row_ok (rbd : gmap Z Z) (row : stat_row) : Prop :=
  ∃ prev cur first,
    rbd !! (row_day row - 1) = Some prev ∧ rbd !! row_day row = Some cur ∧
    rbd !! 0 = Some first ∧ prev ≠ 0 ∧
    row_eliminated row = prev - cur ∧
    pass_frac row = (inject_Z cur / inject_Z prev)%Q ∧
    percent_filtered row = (100 * (1 - pass_frac row))%Q ∧
    percent_total row = (100 * (inject_Z cur / inject_Z first))%Q.

(** ** Views, writes and the magic pass *)

(** [m'] is [m] but for the key "y". *)
Definition same_but_y (m m' : member) : Prop :=
  id m' = id m ∧ global_score m' = global_score m ∧
  local_score m' = local_score m ∧ stars m' = stars m ∧
  completion_day_level m' = completion_day_level m ∧
  progress m' = progress m ∧ progress_exact m' = progress_exact m ∧
  filtered m' = filtered m.

(** [a] is before [b]: its key is smaller, or the keys are equal and it
    comes earlier in [members.values()]. *)
Definition view_lt (a b : Q * nat) : Prop :=
  (a.1 < b.1)%Q ∨ ((a.1 == b.1)%Q ∧ (a.2 < b.2)%nat).

(** The writes [w], each an index in [members.values()] and the position
    stored in the field [y] of that member, applied in order. *)
Definition write_ys (w : list (nat * Q)) (members : list member)
    : list member :=
  foldl (λ ms jv, alter (set_y jv.2) jv.1 ms) members w.

(** The writes of the first loop of [orderMembers], from rank [i] on. *)
Fixpoint rank_writes (n i : nat) (ordered : view) : list (nat * Q) :=
  match ordered with
  | [] => []
  | (_, j) :: rest => (j, rank_position i n) :: rank_writes n (S i) rest
  end.

(** The value [random.uniform(-dy/4, dy/4)] computed from the draw [r]. *)
Definition uniform_value (dy r : Q) : Q :=
  (- dy / 4 + (dy / 4 - - dy / 4) * r)%Q.

(** The writes of the loop of the magic pass, from rank [i] on. *)
Fixpoint magic_writes (dy offset : Q) (i : nat) (ms : view) (rnd : rand_state)
    : list (nat * Q) :=
  match ms with
  | [] => []
  | (_, j) :: rest =>
      (j, (offset + inject_Z (Z.of_nat i) * dy
           + uniform_value dy (draws rnd (consumed rnd)))%Q)
      :: magic_writes dy offset (S i) rest
           {| draws := draws rnd; consumed := S (consumed rnd) |}
  end.

(** The random state after [n] more draws. *)
Definition advance (n : nat) (s : rand_state) : rand_state :=
  {| draws := draws s; consumed := (consumed s + n)%nat |}.

(** The shared offset [random.random() % dy] of a magic pass over [k]
    unfiltered members, started in the random state [rnd]. *)
Definition magic_offset (k : nat) (rnd : rand_state) : Q :=
  float_mod (draws rnd (consumed rnd)) (1 / inject_Z (Z.of_nat k)).

(** The jitter [random.uniform(-dy/4, dy/4)] of the member at rank [i]. *)
Definition magic_jitter (k : nat) (rnd : rand_state) (i : nat) : Q :=
  uniform_value (1 / inject_Z (Z.of_nat k))
                (draws rnd (consumed rnd + 1 + i)%nat).

(** ** Example inputs *)

(** A member as the loader hands it over: no derived field is set. *)
Definition example_member (i : Z) (cd : completion) : member :=
  {| id := i; global_score := 0; local_score := 0; stars := 1;
     completion_day_level := cd;
     progress := None; progress_exact := None; filtered := None; y := None |}.

(** The record of a day with both stars, and with the first star only. *)
Definition both_parts (t1 t2 : Z) : gmap string Z :=
  <["1"%string := t1]> (<["2"%string := t2]> ∅).

Definition first_part (t1 : Z) : gmap string Z := <["1"%string := t1]> ∅.

(** Both parts of days 1, 2 and 3. *)
Definition completion_A : completion :=
  <["1"%string := both_parts 10 20]>
    (<["2"%string := both_parts 86410 86420]>
       (<["3"%string := both_parts 172810 172820]> ∅)).

(** Both parts of day 1, the first part of day 2. *)
Definition completion_B : completion :=
  <["1"%string := both_parts 10 20]> (<["2"%string := first_part 86410]> ∅).

(** A three day event without time limit. *)
Definition example_opts (passed : Z) (mode : order_mode) : opts :=
  {| day_min := 1; days_total := 3; days_passed := passed;
     order_mode_of := mode; time_limit := Unbounded |}.

(** A random source whose draws are all [r]. *)
Definition constant_rnd (r : Q) : rand_state :=
  {| draws := λ _, r; consumed := 0 |}.

(** The fields and the tally that [getMemberProgress] returns. *)
Definition progress_summary
    (r : option (list member * gmap Z Z * rand_state))
    : option (list (option Q * option Q * option bool) * gmap Z Z) :=
  match r with
  | Some (ms, fbd, _) =>
      Some ((λ m, (progress m, progress_exact m, filtered m)) <$> ms, fbd)
  | None => None
  end.

(** A member as [getMemberProgress] leaves it. *)
Definition enriched_member (i : Z) (pe : Q) (f : bool) : member :=
  set_progress pe pe f (example_member i ∅).

(** ** Closed forms for the further properties *)

(** [progress_exact] and [filtered] of a member, read off its first failing
    day. *)
Definition exact_outcome (o : opts) (event_start_time : Q) (cd : completion)
    : Q * bool :=
  match fail_day o event_start_time cd with
  | None => (inject_Z (days_total o + 2), false)
  | Some d =>
      if pass1 o event_start_time cd d then
        if bool_decide (d ≤ days_passed o)
        then ((inject_Z d + DELTA)%Q, true) else (inject_Z d, false)
      else
        if bool_decide (d ≤ days_passed o)
        then ((inject_Z d - DELTA)%Q, true)
        else ((inject_Z d - (1 # 2))%Q, false)
  end.

(** The member is not eliminated on the days up to [d]. *)
Definition still_in (o : opts) (event_start_time : Q) (d : Z) (m : member)
    : bool :=
  match fail_day o event_start_time (completion_day_level m) with
  | None => true
  | Some d' => bool_decide (d < d')
  end.

(** The number of members not eliminated on the days up to [d]. *)
Definition remaining_count (o : opts) (event_start_time : Q) (d : Z)
    (members : list member) : Z :=
  Z.of_nat (length (filter (λ m, still_in o event_start_time d m = true)
                           members)).

(** ** Dictionaries and files *)

(** [d.get(k)]: the value under [k], if there is one. *)
Fixpoint dict_get {V} (k : string) (d : odict V) : option V :=
  match d with
  | [] => None
  | (k', v) :: d' => if decide (k' = k) then Some v else dict_get k d'
  end.

(** The members that [filename] holds; none when it cannot be read. *)
Definition loaded_members (load : string → option file_data)
    (filename : string) : odict member :=
  default [] (load filename ≫= data_members).

(** The records of all the files, in the order in which they are read. *)
Definition all_records (load : string → option file_data)
    (input_filenames : list string) : odict member :=
  input_filenames ≫= loaded_members load.

(** The file cannot be read, or has no "members". *)
Definition unreadable (load : string → option file_data) (filename : string)
    : Prop :=
  load filename ≫= data_members = None.

(** The "event" of the last file, if there is a last file, it can be read
    and it has the key. *)
Definition last_event (load : string → option file_data)
    (input_filenames : list string) : option string :=
  filename ← last input_filenames;
  data ← load filename;
  data_event data.

(** The keys of [l] in the order of their first appearance. *)
Fixpoint first_appearances (l : list string) : list string :=
  match l with
  | [] => []
  | k :: l' => k :: filter (λ k', k' ≠ k) (first_appearances l')
  end.

(** Two files for the examples: the second gives member "1" again, without
    stars, and has no "event". *)
Definition example_load (filename : string) : option file_data :=
  if String.eqb filename "a.json" then
    Some {| data_members := Some [("1"%string, example_member 1 ∅);
                                  ("2"%string, example_member 2 ∅)];
            data_event := Some "2022"%string |}
  else if String.eqb filename "b.json" then
    Some {| data_members :=
              Some [("3"%string, example_member 3 ∅);
                    ("1"%string,
                     {| id := 1; global_score := 0; local_score := 0;
                        stars := 0; completion_day_level := ∅;
                        progress := None; progress_exact := None;
                        filtered := None; y := None |})];
            data_event := None |}
  else None.

(** ** The command line *)

(** The argument is one of the options of [getOptions]; every other
    argument is taken as a filename. *)
Definition is_option (a : string) : bool :=
  String.prefix "-d" a || String.prefix "-t" a || String.prefix "-s" a
  || String.prefix "-o" a || String.eqb a "-n" || String.eqb a "-p"
  || String.prefix "-i" a || String.prefix "-l" a || String.prefix "-T" a.

(** The text after the flag in the last argument that starts with
    [flag]. *)
Definition last_arg (flag : string) (args : list string) : option string :=
  string_drop 2 <$> last (filter (λ a, String.prefix flag a = true) args).

Section Malformed.

Variable py_int : string → option Z.
Variable py_float : string → option pyfloat.

(** The text after "-s" is a width and a height with one "x" between. *)
Definition figure_size_of (v : string) : option (pyfloat * pyfloat) :=
  match split_on "x"%char v with
  | [w; h] => fw ← py_float w; fh ← py_float h; Some (fw, fh)
  | _ => None
  end.

(** An option whose value cannot be read. *)
Definition malformed (a : string) : Prop :=
  (String.prefix "-d" a = true ∧ py_int (string_drop 2 a) = None) ∨
  (String.prefix "-t" a = true ∧ py_int (string_drop 2 a) = None) ∨
  (String.prefix "-i" a = true ∧ py_int (string_drop 2 a) = None) ∨
  (String.prefix "-l" a = true ∧ py_float (string_drop 2 a) = None) ∨
  (String.prefix "-s" a = true ∧ figure_size_of (string_drop 2 a) = None) ∨
  (String.prefix "-o" a = true ∧
   string_drop 2 a ∉ ["i"; "g"; "l"; "p"; "s"; "m"]%string).

End Malformed.

(** The value [after] of a key of the table: read from the text [given]
    with an option, or else what it was [before]. *)
Definition decided_by {A} (given : option string) (read : string → option A)
    (before after : A) : Prop :=
  match given with
  | Some v => read v = Some after
  | None => after = before
  end.

(** [int()] on a string of decimal digits, all that the examples use. *)
Definition digits_int (s : string) : option Z :=
  match s with
  | EmptyString => None
  | _ =>
      foldl (λ acc c, n ← acc;
                      if Ascii.leb "0" c && Ascii.leb c "9"
                      then Some (10 * n + (Z.of_nat (Ascii.nat_of_ascii c) - 48))
                      else None)
            (Some 0) (String.list_ascii_of_string s)
  end.

(** [float()] on the same strings. *)
Definition digits_float (s : string) : option pyfloat :=
  Finite ∘ inject_Z <$> digits_int s.

(** ** The chart *)

(** The filter lines among the calls, in the order in which they are
    drawn. *)
Definition axvlines (calls : list plot_call) : list (Q * string) :=
  calls ≫= λ c, match c with
                | Axvline x color => [(x, color)]
                | _ => []
                end.

(** The colour of the filter lines of [day]: that of the days from
    [day_min] to [days_passed], or that of the other days. *)
Definition day_color (t : opts_table) (day : Z) : string :=
  if bool_decide (table_day_min t ≤ day ≤ table_days_passed t)
  then RED else GREY.

(** ** Timestamps *)

(** Every timestamp of the record is an integer that a double holds: the
    conversion of the [int] to a [float] in [time - start_time], lines 225
    and 227, neither rounds it nor raises [OverflowError]. *)
Definition stamps_in_range (cd : completion) : Prop :=
  map_Forall (λ _ parts, map_Forall (λ _ t, Z.abs t ≤ 2 ^ 53) parts) cd.

(** The year of the examples and its start, 2022-12-01 06:00 UTC. *)
Definition example_timestamp (event : string) : option Q :=
  if String.eqb event "2022" then Some (inject_Z 1669874400) else None.

(** ** The lines and the labels *)

(** The text of the label of a member. *)
Definition label_of (d : drawn_member) : label :=
  match name d with
  | Some s => LabelName s
  | None => LabelId (id (member_of d))
  end.

(** The drawn members [ds] after the functions of the core have left
    [members] in their dictionaries. *)
Definition put_members (ds : list drawn_member) (members : list member)
    : list drawn_member :=
  zip_with (λ d m, {| member_of := m; name := name d; end_pos := end_pos d |})
           ds members.

(** A member to draw, as the loader hands it over. *)
Definition example_drawn (i : Z) (cd : completion) (n : option string)
    : drawn_member :=
  {| member_of := example_member i cd; name := n; end_pos := None |}.

(** A member to draw, as [getMemberProgress] and [orderMembers] leave it. *)
Definition positioned_drawn (i : Z) (p : Q) (f : bool) (v : Q)
    : drawn_member :=
  {| member_of := set_y v (enriched_member i p f); name := None;
     end_pos := None |}.

(** The table of the three day event of the examples. *)
Definition example_table (passed : Z) (mode : order_mode) : opts_table :=
  set_table_days_total 3
    (set_table_days_passed passed (set_table_order_mode mode OPTS_table)).

(** * Lemmas and theorems *)

(** ** Ranges and the initial tally *)

Lemma elem_of_range a b k : k ∈ range a b ↔ a ≤ k < b.
Proof. unfold range. rewrite elem_of_seqZ. lia. Qed.

Lemma range_split a b d :
  a ≤ d < b → range a b = range a d ++ d :: range (d + 1) b.
Proof.
  intros Hd. unfold range.
  replace (b - a) with ((d - a) + (b - d)) by lia.
  rewrite seqZ_app by lia.
  f_equal. replace (a + (d - a)) with d by lia.
  rewrite (seqZ_cons d) by lia.
  f_equal. f_equal; lia.
Qed.

Lemma range_nil a b : b ≤ a → range a b = [].
Proof. intros. unfold range. apply seqZ_nil. lia. Qed.

Lemma NoDup_range a b : NoDup (range a b).
Proof. apply NoDup_seqZ. Qed.

Lemma lookup_zero_fill (l : list Z) (m : gmap Z Z) d :
  foldl (λ fbd i, <[i := 0]> fbd) m l !! d =
  if decide (d ∈ l) then Some 0 else m !! d.
Proof.
  revert m. induction l as [|i l IH]; intros m; simpl.
  - destruct (decide (d ∈ [])) as [H|H]; [by apply elem_of_nil in H | done].
  - rewrite IH. destruct (decide (d ∈ l)) as [Hl|Hl].
    + rewrite decide_True; [done | by right].
    + destruct (decide (d = i)) as [->|Hne].
      * rewrite decide_True by left. apply lookup_insert_eq.
      * rewrite decide_False; [by apply lookup_insert_ne |].
        intros [?|?]%elem_of_cons; done.
Qed.

Lemma lookup_init_filtered_by_day o d :
  init_filtered_by_day o !! d =
  if decide (1 ≤ d ≤ days_total o) then Some 0 else None.
Proof.
  unfold init_filtered_by_day. rewrite lookup_zero_fill.
  destruct (decide (d ∈ range 1 (days_total o + 1))) as [H|H];
    rewrite elem_of_range in H.
  - rewrite decide_True; [done | lia].
  - rewrite decide_False; [apply lookup_empty | lia].
Qed.

(** ** The scan of one member *)

Section ProgressFacts.

Variable o : opts.
Variable event_start_time : Q.

Local Abbreviation pass1 := (pass1 o event_start_time).
Local Abbreviation pass2 := (pass2 o event_start_time).
Local Abbreviation scan_days := (scan_days o event_start_time).
Local Abbreviation passes_day := (passes_day o event_start_time).
Local Abbreviation first_failure := (first_failure o event_start_time).
Local Abbreviation never_fails := (never_fails o event_start_time).
Local Abbreviation fail_day := (fail_day o event_start_time).

Lemma fail_day_Some cd d : fail_day cd = Some d ↔ first_failure cd d.
Proof.
  unfold fail_day, first_failure. split.
  - destruct (list_find _ _) as [[i d']|] eqn:E; [|done].
    simpl. intros [= ->].
    apply list_find_Some in E as (Hi & Hf & Hpre).
    pose proof Hi as Hi'. unfold range in Hi'.
    apply lookup_seqZ in Hi' as [-> Hlt].
    split; [lia|]. split; [done|].
    intros d' Hd'. destruct (passes_day cd d') eqn:E'; [done|].
    exfalso. apply (Hpre (Z.to_nat (d' - day_min o)) d'); [|lia|done].
    unfold range. apply lookup_seqZ. lia.
  - intros (Hr & Hf & Hpre).
    assert (Hl : range (day_min o) (days_total o + 1)
                   !! Z.to_nat (d - day_min o) = Some d).
    { unfold range. apply lookup_seqZ. lia. }
    assert (list_find (λ d, passes_day cd d = false)
              (range (day_min o) (days_total o + 1))
            = Some (Z.to_nat (d - day_min o), d)) as ->; [|done].
    apply list_find_Some. split; [done|]. split; [done|].
    intros j y0 Hj Hlt. unfold range in Hj.
    apply lookup_seqZ in Hj as [-> ?].
    rewrite Hpre; [done | lia].
Qed.

Lemma fail_day_None cd : fail_day cd = None ↔ never_fails cd.
Proof.
  unfold fail_day, never_fails. rewrite fmap_None, list_find_None.
  rewrite Forall_forall. setoid_rewrite elem_of_range.
  split; intros H d Hd.
  - destruct (passes_day cd d) eqn:E; [done|]. exfalso.
    apply (H d); [lia | done].
  - rewrite H; [done | lia].
Qed.

Lemma first_failure_unique cd d1 d2 :
  first_failure cd d1 → first_failure cd d2 → d1 = d2.
Proof.
  intros H1%fail_day_Some H2%fail_day_Some. congruence.
Qed.

Lemma scan_days_pass cd pre rest fbd rnd :
  Forall (λ d, passes_day cd d = true) pre →
  scan_days cd (pre ++ rest) fbd rnd = scan_days cd rest fbd rnd.
Proof.
  induction 1 as [|d pre Hd _ IH]; [done|].
  apply andb_true_iff in Hd as [H1 H2]. simpl.
  by rewrite H1, H2.
Qed.

Lemma scan_days_fail cd d rest fbd rnd :
  passes_day cd d = false →
  scan_days cd (d :: rest) fbd rnd = scan_days cd [d] fbd rnd.
Proof.
  intros Hd. simpl. apply andb_false_iff in Hd.
  destruct (pass1 cd d); simpl; [|done].
  destruct Hd as [Hd|Hd]; [done | by rewrite Hd].
Qed.

Lemma scan_days_never_fails cd fbd rnd :
  never_fails cd →
  scan_days cd (range (day_min o) (days_total o + 1)) fbd rnd =
  Some (inject_Z (days_total o + 2), inject_Z (days_total o + 2), false,
        fbd, rnd).
Proof.
  intros H.
  rewrite <- (app_nil_r (range _ _)), scan_days_pass; [done|].
  apply Forall_forall. intros d Hd%elem_of_range. apply H. lia.
Qed.

Lemma scan_days_first_failure cd d fbd rnd :
  first_failure cd d →
  scan_days cd (range (day_min o) (days_total o + 1)) fbd rnd =
  scan_days cd [d] fbd rnd.
Proof.
  intros (Hr & Hf & Hpre).
  rewrite (range_split _ _ d) by lia.
  rewrite scan_days_pass.
  - by apply scan_days_fail.
  - apply Forall_forall. intros d' Hd'%elem_of_range. by apply Hpre.
Qed.

End ProgressFacts.

(** ** The random source *)

Lemma rand_ok_draws s s' : draws s' = draws s → rand_ok s → rand_ok s'.
Proof. unfold rand_ok. by intros ->. Qed.

Lemma randDelta_bounds delta s :
  rand_ok s → (0 <= delta)%Q →
  (- delta <= (randDelta delta s).1)%Q ∧ ((randDelta delta s).1 <= delta)%Q ∧
  draws (randDelta delta s).2 = draws s.
Proof.
  intros Hs Hd. unfold randDelta, random_random. simpl.
  destruct (Hs (consumed s)) as [H0 H1].
  set (r := draws s (consumed s)) in *.
  assert (0 <= r * delta)%Q by (apply Qmult_le_0_compat; done).
  assert (0 <= (1 - r) * delta)%Q by (apply Qmult_le_0_compat; [lra | done]).
  repeat split; lra.
Qed.

(** ** getMemberProgress, member by member *)

Section ProgressResults.

Variable o : opts.
Variable event_start_time : Q.
Hypothesis day_min_positive : 1 ≤ day_min o.

Local Abbreviation pass1 := (pass1 o event_start_time).
Local Abbreviation pass2 := (pass2 o event_start_time).
Local Abbreviation first_failure := (first_failure o event_start_time).
Local Abbreviation never_fails := (never_fails o event_start_time).
Local Abbreviation fail_day := (fail_day o event_start_time).
Local Abbreviation tally_ok := (tally_ok o).
Local Abbreviation failure_fields := (failure_fields o event_start_time).
Local Abbreviation member_turn := (member_turn o event_start_time).

Local Ltac solve_fields :=
  unfold failure_fields; repeat split; intros;
  first [congruence | lia | done | lra].

Lemma scan_days_single cd d fbd rnd :
  rand_ok rnd → is_Some (fbd !! d) → passes_day o event_start_time cd d = false →
  ∃ n p pe f rnd',
    fbd !! d = Some n ∧
    scan_days o event_start_time cd [d] fbd rnd =
      Some (p, pe, f, <[d := n + 1]> fbd, rnd') ∧
    failure_fields cd d p pe f ∧ draws rnd' = draws rnd.
Proof.
  intros Hrnd [n Hn] Hfail. exists n.
  unfold passes_day in Hfail. simpl. unfold incr_day. rewrite Hn. simpl.
  destruct (randDelta_bounds (15 # 100) rnd Hrnd) as (Ha1 & Ha2 & Ha3); [done|].
  destruct (randDelta_bounds (5 # 100) rnd Hrnd) as (Hb1 & Hb2 & Hb3); [done|].
  destruct (pass1 cd d) eqn:E1; simpl.
  - simpl in Hfail. rewrite Hfail. simpl.
    case_bool_decide as Hd.
    + eexists _, _, _, _. split; [done|]. split; [done|]. split; [|done].
      solve_fields.
    + destruct (randDelta (5 # 100) rnd) as [r rnd'] eqn:Er. simpl in *.
      eexists _, _, _, _. split; [done|]. split; [done|]. split; [|done].
      solve_fields.
  - case_bool_decide as Hd.
    + eexists _, _, _, _. split; [done|]. split; [done|]. split; [|done].
      solve_fields.
    + destruct (randDelta (15 # 100) rnd) as [r rnd'] eqn:Er. simpl in *.
      eexists _, _, _, _. split; [done|]. split; [done|]. split; [|done].
      solve_fields.
Qed.

Lemma member_progress_turn m fbd rnd :
  rand_ok rnd → tally_ok fbd →
  ∃ m' fbd' rnd',
    member_progress o event_start_time m fbd rnd = Some (m', fbd', rnd') ∧
    member_turn m m' fbd fbd' ∧ draws rnd' = draws rnd.
Proof.
  intros Hrnd Hfbd. unfold member_progress.
  destruct (fail_day (completion_day_level m)) as [d|] eqn:E.
  - apply fail_day_Some in E. pose proof E as (Hr & Hf & _).
    rewrite (scan_days_first_failure _ _ _ d) by done.
    destruct (scan_days_single (completion_day_level m) d fbd rnd)
      as (n & p & pe & f & rnd' & Hn & -> & Hfields & Hdr);
      [done | apply Hfbd; lia | done |].
    simpl. eexists _, _, _. split; [done|]. split; [|done].
    right. by exists d, n, p, pe, f.
  - apply fail_day_None in E.
    rewrite scan_days_never_fails by done. simpl.
    eexists _, _, _. split; [done|]. split; [|done]. by left.
Qed.

Lemma member_turn_tally_ok m m' fbd fbd' :
  member_turn m m' fbd fbd' → tally_ok fbd → tally_ok fbd'.
Proof.
  intros [(_ & -> & _)|(d & n & p & pe & f & _ & Hn & -> & _)] H; [done|].
  intros d' Hd'. destruct (decide (d = d')) as [->|Hne].
  - rewrite lookup_insert_eq. by eexists.
  - rewrite lookup_insert_ne by done. by apply H.
Qed.

Lemma tally_ok_init : tally_ok (init_filtered_by_day o).
Proof.
  intros d Hd. rewrite lookup_init_filtered_by_day, decide_True by done.
  by eexists.
Qed.

End ProgressResults.

(** ** getMemberProgress, all members *)

Lemma eliminated_on_cons o est d m members :
  eliminated_on o est d (m :: members) =
  (if decide (fail_day o est (completion_day_level m) = Some d) then 1 else 0)
  + eliminated_on o est d members.
Proof.
  unfold eliminated_on. rewrite filter_cons.
  destruct (decide _); simpl; lia.
Qed.

Lemma eliminated_on_nonneg o est d members : 0 ≤ eliminated_on o est d members.
Proof. unfold eliminated_on. lia. Qed.

Lemma member_turn_tally o est m m' fbd fbd' d n :
  member_turn o est m m' fbd fbd' → fbd !! d = Some n →
  fbd' !! d =
  Some (n + if decide (fail_day o est (completion_day_level m) = Some d)
            then 1 else 0).
Proof.
  intros [(Hnf & -> & _)|(d' & n' & p & pe & f & Hff & Hn' & -> & _)] Hn.
  - apply fail_day_None in Hnf. rewrite Hnf, decide_False by done.
    rewrite Hn. f_equal. lia.
  - apply fail_day_Some in Hff. rewrite Hff.
    destruct (decide (Some d' = Some d)) as [[= ->]|Hne].
    + rewrite lookup_insert_eq. congruence.
    + rewrite lookup_insert_ne by congruence. rewrite Hn. f_equal. lia.
Qed.

Lemma member_turn_absent o est m m' fbd fbd' d :
  member_turn o est m m' fbd fbd' → fbd !! d = None → fbd' !! d = None.
Proof.
  intros [(_ & -> & _)|(d' & n' & p & pe & f & _ & Hn' & -> & _)] Hn; [done|].
  rewrite lookup_insert_ne; [done | congruence].
Qed.

Lemma members_progress_spec o est members fbd rnd :
  1 ≤ day_min o → rand_ok rnd → tally_ok o fbd →
  ∃ members' fbd' rnd',
    members_progress o est members fbd rnd = Some (members', fbd', rnd') ∧
    Forall2 (member_result o est) members members' ∧
    (∀ d n, fbd !! d = Some n →
            fbd' !! d = Some (n + eliminated_on o est d members)) ∧
    (∀ d, fbd !! d = None → fbd' !! d = None) ∧
    draws rnd' = draws rnd.
Proof.
  intros Hmin. revert fbd rnd.
  induction members as [|m members IH]; intros fbd rnd Hrnd Hfbd; simpl.
  - eexists _, _, _. split; [done|]. split; [constructor|].
    split; [|done]. intros d n ->. unfold eliminated_on. simpl.
    f_equal. lia.
  - destruct (member_progress_turn o est Hmin m fbd rnd Hrnd Hfbd)
      as (m' & fbd1 & rnd1 & -> & Hturn & Hdr1).
    simpl.
    destruct (IH fbd1 rnd1) as (ms' & fbd2 & rnd2 & -> & Hall & Htal & Habs & Hdr2).
    { by apply (rand_ok_draws rnd). }
    { by apply (member_turn_tally_ok o est m m' fbd). }
    simpl. eexists _, _, _. split; [done|].
    split; [constructor; [by eexists _, _ | done]|].
    split; [|split; [|congruence]].
    + intros d n Hn. rewrite eliminated_on_cons.
      rewrite (Htal d _ (member_turn_tally o est m m' fbd fbd1 d n Hturn Hn)).
      f_equal. lia.
    + intros d Hn. apply Habs. by apply (member_turn_absent o est m m' fbd).
Qed.

Lemma getMemberProgress_spec o est members rnd :
  1 ≤ day_min o → rand_ok rnd →
  ∃ members' fbd rnd',
    getMemberProgress o est members rnd = Some (members', fbd, rnd') ∧
    Forall2 (member_result o est) members members' ∧
    (∀ d, fbd !! d = if decide (1 ≤ d ≤ days_total o)
                     then Some (eliminated_on o est d members) else None) ∧
    draws rnd' = draws rnd.
Proof.
  intros Hmin Hrnd. unfold getMemberProgress.
  destruct (members_progress_spec o est members (init_filtered_by_day o) rnd)
    as (ms' & fbd & rnd' & -> & Hall & Htal & Habs & Hdr);
    [done | done | apply tally_ok_init |].
  eexists _, _, _. split; [done|]. split; [done|]. split; [|done].
  intros d. pose proof (lookup_init_filtered_by_day o d) as Hi.
  destruct (decide (1 ≤ d ≤ days_total o)).
  - by rewrite (Htal d 0 Hi).
  - by apply Habs.
Qed.

(** ** Doubles *)

Lemma inject_pow2_pos e : 0 ≤ e → (0 < inject_Z (2 ^ e))%Q.
Proof.
  intros He. change 0%Q with (inject_Z 0). rewrite <- Zlt_Qlt.
  by apply Z.pow_pos_nonneg.
Qed.

Lemma scale2_nonneg q e : (0 <= q)%Q → (0 <= scale2 q e)%Q.
Proof.
  intros Hq. unfold scale2. destruct (0 <=? e) eqn:E.
  - apply Z.leb_le in E. apply Qmult_le_0_compat; [done|].
    apply Qlt_le_weak. by apply inject_pow2_pos.
  - apply Z.leb_gt in E. apply Qle_shift_div_l.
    + apply inject_pow2_pos. lia.
    + by rewrite Qmult_0_l.
Qed.

Lemma round_half_even_Z q n : (q == inject_Z n)%Q → round_half_even q = n.
Proof.
  intros Hq. unfold round_half_even.
  assert (Qfloor q = n) as -> by (rewrite Hq; apply Qfloor_Z).
  assert ((q - inject_Z n ?= 1 # 2)%Q = Lt) as ->; [|done].
  apply Qlt_alt. assert (q - inject_Z n == 0)%Q as -> by (rewrite Hq; ring).
  reflexivity.
Qed.

Lemma round_half_even_nonneg q : (0 <= q)%Q → 0 ≤ round_half_even q.
Proof.
  intros Hq. unfold round_half_even.
  assert (0 ≤ Qfloor q).
  { change 0 with (Qfloor 0). by apply Qfloor_resp_le. }
  destruct (_ ?= _)%Q; [destruct (Z.even _)|..]; lia.
Qed.

Lemma double_round_nonneg q : (0 <= q)%Q → (0 <= double_round q)%Q.
Proof.
  intros Hq. unfold double_round. destruct (Qeq_bool q 0); [done|].
  apply scale2_nonneg. change 0%Q with (inject_Z 0). rewrite <- Zle_Qle.
  apply round_half_even_nonneg. by apply scale2_nonneg.
Qed.

(** [2 ^ Qlog2 a <= a] *)
Lemma Qlog2_lower a : (0 < a)%Q → (scale2 1 (Qlog2 a) <= a)%Q.
Proof.
  intros Ha. unfold Qlog2. destruct a as [n d]. cbn [Qnum Qden].
  assert (Hn : 0 < n) by (unfold Qlt in Ha; simpl in Ha; lia).
  pose proof (Z.log2_spec n Hn) as [Hn1 Hn2].
  pose proof (Z.log2_spec (Z.pos d) (Pos2Z.is_pos d)) as [Hd1 Hd2].
  pose proof (Z.log2_nonneg n) as Hln.
  pose proof (Z.log2_nonneg (Z.pos d)) as Hld.
  set (p := Z.log2 n) in *. set (r := Z.log2 (Z.pos d)) in *.
  destruct (Qle_bool (scale2 1 (p - r)) (n # d)) eqn:E;
    [by apply Qle_bool_iff|].
  clear E. unfold scale2. destruct (0 <=? p - r - 1) eqn:Ek.
  - apply Z.leb_le in Ek. rewrite Qmult_1_l. unfold Qle.
    cbn [Qnum Qden inject_Z]. rewrite Z.mul_1_r.
    assert (2 ^ (p - r - 1) * 2 ^ Z.succ r = 2 ^ p) as Hpow.
    { rewrite <- Z.pow_add_r by lia. f_equal. lia. }
    assert (0 < 2 ^ (p - r - 1)) by (apply Z.pow_pos_nonneg; lia).
    nia.
  - apply Z.leb_gt in Ek. apply Qle_shift_div_r.
    + apply inject_pow2_pos. lia.
    + unfold Qle. cbn [Qnum Qden inject_Z Qmult]. rewrite Z.mul_1_l.
      assert (2 ^ p * 2 ^ (- (p - r - 1)) = 2 ^ Z.succ r) as Hpow.
      { rewrite <- Z.pow_add_r by lia. f_equal. lia. }
      assert (0 < 2 ^ (- (p - r - 1))) by (apply Z.pow_pos_nonneg; lia).
      nia.
Qed.

Lemma Qlog2_upper_bound a n :
  (0 < a)%Q → 0 ≤ n → (a <= inject_Z (2 ^ n))%Q → Qlog2 a ≤ n.
Proof.
  intros Ha Hn Hle. pose proof (Qlog2_lower a Ha) as Hlow.
  destruct (Z.le_gt_cases (Qlog2 a) n) as [|Hgt]; [done|]. exfalso.
  unfold scale2 in Hlow. rewrite (proj2 (Z.leb_le 0 _)) in Hlow by lia.
  rewrite Qmult_1_l in Hlow.
  assert (inject_Z (2 ^ Qlog2 a) <= inject_Z (2 ^ n))%Q as H
    by (by apply Qle_trans with a).
  rewrite <- Zle_Qle in H.
  assert (2 ^ n < 2 ^ Qlog2 a) by (apply Z.pow_lt_mono_r; lia). lia.
Qed.

(** An integer of magnitude up to [2 ^ 53] is a double. *)
Lemma double_round_exact q z :
  (q == inject_Z z)%Q → Z.abs z ≤ 2 ^ 53 → (double_round q == inject_Z z)%Q.
Proof.
  intros Hq Hz. unfold double_round.
  destruct (Qeq_bool q 0) eqn:E0.
  { apply Qeq_bool_iff in E0. by rewrite <- Hq, E0. }
  apply Qeq_bool_neq in E0.
  assert (Hz0 : z ≠ 0) by (intros ->; by apply E0).
  assert (Habs : (Qabs q == inject_Z (Z.abs z))%Q) by (by rewrite Hq).
  assert (Hpos : (0 < Qabs q)%Q).
  { rewrite Habs. change 0%Q with (inject_Z 0). rewrite <- Zlt_Qlt. lia. }
  pose proof (Qlog2_lower _ Hpos) as Hlow.
  assert (HL : Qlog2 (Qabs q) ≤ 53).
  { apply Qlog2_upper_bound; [done | lia |]. rewrite Habs.
    by rewrite <- Zle_Qle. }
  set (L := Qlog2 (Qabs q)) in *.
  destruct (Z.max_spec (L - 52) (-1074)) as [[_ ->]|[_ ->]].
  - (* the exponent is -1074 *)
    assert (scale2 q (- -1074) == inject_Z (z * 2 ^ 1074))%Q as Hm.
    { unfold scale2. change (0 <=? - -1074) with true. cbv iota.
      change (- -1074) with 1074. by rewrite inject_Z_mult, Hq. }
    rewrite (round_half_even_Z _ _ Hm). unfold scale2.
    change (0 <=? -1074) with false. cbv iota. change (- -1074) with 1074.
    rewrite inject_Z_mult. field.
    intros H. pose proof (inject_pow2_pos 1074) as Hp.
    rewrite H in Hp. apply (Qlt_irrefl 0), Hp. lia.
  - destruct (Z.le_gt_cases (L - 52) 0) as [He|He].
    + (* the exponent is at most 0 *)
      assert (scale2 q (- (L - 52)) == inject_Z (z * 2 ^ (- (L - 52))))%Q
        as Hm.
      { unfold scale2. rewrite (proj2 (Z.leb_le 0 _)) by lia.
        by rewrite inject_Z_mult, Hq. }
      rewrite (round_half_even_Z _ _ Hm). unfold scale2.
      destruct (0 <=? L - 52) eqn:E.
      * apply Z.leb_le in E. assert (L - 52 = 0) as -> by lia.
        change (2 ^ (- 0)) with 1. change (2 ^ 0) with 1.
        rewrite Z.mul_1_r. change (inject_Z 1) with 1%Q. ring.
      * rewrite inject_Z_mult. field.
        intros H. pose proof (inject_pow2_pos (- (L - 52))) as Hp.
        rewrite H in Hp. apply (Qlt_irrefl 0), Hp. lia.
    + (* the exponent is 1 and the integer is [2 ^ 53] or its opposite *)
      assert (L = 53) as HL53 by lia.
      assert (Hlow' : (inject_Z (2 ^ 53) <= inject_Z (Z.abs z))%Q).
      { rewrite <- Habs. apply Qle_trans with (scale2 1 L); [|exact Hlow].
        rewrite HL53. unfold scale2. change (0 <=? 53) with true. cbv iota.
        rewrite Qmult_1_l. apply Qle_refl. }
      rewrite <- Zle_Qle in Hlow'. rewrite HL53.
      change (53 - 52) with 1. unfold scale2.
      replace (0 <=? - (1)) with false by reflexivity.
      replace (0 <=? 1) with true by reflexivity.
      replace (- - (1)) with 1 by reflexivity.
      assert (z = 2 ^ 53 ∨ z = - 2 ^ 53) as [Hz'|Hz'] by lia.
      * rewrite (round_half_even_Z _ (2 ^ 52)); [by rewrite Hz'|].
        by rewrite Hq, Hz'.
      * rewrite (round_half_even_Z _ (- 2 ^ 52)); [by rewrite Hz'|].
        by rewrite Hq, Hz'.
Qed.

(** ** The time window *)

(** In the range of the Unix times the subtraction of line 225 is exact. *)
Lemma window_exact (s d t : Z) :
  1 ≤ d → 0 ≤ s → s + 86400 * (d - 1) ≤ 2 ^ 53 → 0 ≤ t ≤ 2 ^ 53 →
  (double_round (float_of_int t - start_time (inject_Z s) d)
   == inject_Z t - (inject_Z s + 86400 * (inject_Z d - 1)))%Q.
Proof.
  intros Hd Hs Hstart Ht.
  assert (Hx : (inject_Z t - (inject_Z s + 86400 * (inject_Z d - 1))
                == inject_Z (t - (s + 86400 * (d - 1))))%Q).
  { replace (t - (s + 86400 * (d - 1))) with (t + - (s + 86400 * (d + -1)))
      by lia.
    rewrite inject_Z_plus, inject_Z_opp, inject_Z_plus, inject_Z_mult,
      inject_Z_plus.
    change (inject_Z 86400) with 86400%Q. change (inject_Z (-1)) with (-1)%Q.
    ring. }
  rewrite Hx. apply double_round_exact; [|lia].
  assert (float_of_int t == inject_Z t)%Q as ->
    by (apply double_round_exact; [done | lia]).
  assert (start_time (inject_Z s) d == inject_Z (s + 86400 * (d - 1)))%Q
    as ->.
  { unfold start_time. apply double_round_exact; [|lia].
    assert (float_of_int (86400 * (d - 1)) == inject_Z (86400 * (d - 1)))%Q
      as -> by (apply double_round_exact; [done | lia]).
    by rewrite inject_Z_plus. }
  rewrite <- Hx. replace (s + 86400 * (d - 1)) with (s + 86400 * (d + -1))
    by lia.
  rewrite inject_Z_plus, inject_Z_mult, inject_Z_plus.
  change (inject_Z 86400) with 86400%Q. change (inject_Z (-1)) with (-1)%Q.
  ring.
Qed.

(** C3, counterexample.  The limit is the difference between [2 ^ 53] and
    the start of day 1, and the timestamp is [2 ^ 53 + 1], one second
    later than the limit allows.  The conversion of line 225 rounds the
    timestamp to [2 ^ 53], and the part passes. *)
Lemma late_stamp_passes :
  let o := {| day_min := 1; days_total := 25; days_passed := 25;
              order_mode_of := id1000;
              time_limit := Limit 9007197584866592 |} in
  passes o 1669874400 1 (Some (2 ^ 53 + 1)) = true ∧
  ¬ limit_allows
      (inject_Z (2 ^ 53 + 1) - (1669874400 + 86400 * (inject_Z 1 - 1)))%Q
      (time_limit o).
Proof.
  split; [vm_compute; reflexivity|]. intros H. apply H. reflexivity.
Qed.

(** C3, amended.  For a start of the event and a timestamp in whole
    seconds between 0 and [2 ^ 53], a range that holds every Unix time, a
    part passes the time window of day [d] exactly when its timestamp is
    present and [timestamp - (start + 86400 * (d - 1))] is at most the time
    limit; with the unbounded limit this is presence of the timestamp; with
    a limit of 3600 seconds a timestamp 3601 seconds after the start of the
    day fails, as an absent timestamp does. *)
Theorem passes_time_window (o : opts) (s d : Z) (time : option Z) :
  1 ≤ d → 0 ≤ s → s + 86400 * (d - 1) ≤ 2 ^ 53 →
  (∀ t, time = Some t → 0 ≤ t ≤ 2 ^ 53) →
  (passes o (inject_Z s) d time = true ↔
   ∃ t, time = Some t ∧
        limit_allows
          (inject_Z t - (inject_Z s + 86400 * (inject_Z d - 1)))%Q
          (time_limit o)) ∧
  (time_limit o = Unbounded →
   (passes o (inject_Z s) d time = true ↔ is_Some time)) ∧
  (∀ t, time_limit o = Limit 3600 →
        t = s + 86400 * (d - 1) + 3601 → t ≤ 2 ^ 53 →
        passes o (inject_Z s) d (Some t) = false ∧
        passes o (inject_Z s) d None = false).
Proof.
  intros Hd Hs Hstart Htime. split; [|split].
  - unfold passes. destruct time as [t|].
    + unfold within_limit, limit_allows. destruct (time_limit o) as [|l].
      * split; [by exists t | done].
      * rewrite Qle_bool_iff, (window_exact s d t) by auto. split.
        -- intros H. by exists t.
        -- by intros (t' & [= <-] & H).
    + split; [done | by intros (t & ? & _)].
  - intros Hl. unfold passes, within_limit. rewrite Hl.
    destruct time; split; intros H; first [done | by eexists | by destruct H].
  - intros t Hl -> Ht. split; [|done].
    unfold passes, within_limit. rewrite Hl.
    destruct (Qle_bool _ _) eqn:E; [|done].
    apply Qle_bool_iff in E. rewrite window_exact in E by lia.
    exfalso. revert E.
    replace (s + 86400 * (d - 1) + 3601) with (s + 86400 * (d + -1) + 3601)
      by lia.
    rewrite !inject_Z_plus, inject_Z_mult, inject_Z_plus.
    change (inject_Z 86400) with 86400%Q. change (inject_Z (-1)) with (-1)%Q.
    change (inject_Z 3601) with 3601%Q. lra.
Qed.

Lemma passes_time_window_witness :
  passes {| day_min := 1; days_total := 25; days_passed := 25;
            order_mode_of := id1000; time_limit := Limit 3600 |}
         (inject_Z 1669874400) 2 (Some 1669964401) = false ∧
  (passes OPTS (inject_Z 1669874400) 2 (Some 1669964401) = true ↔
   is_Some (Some 1669964401)).
Proof.
  split.
  - apply (passes_time_window
             {| day_min := 1; days_total := 25; days_passed := 25;
                order_mode_of := id1000; time_limit := Limit 3600 |}
             1669874400 2 (Some 1669964401));
      first [reflexivity | lia | intros t [= <-]; lia].
  - apply (passes_time_window OPTS 1669874400 2 (Some 1669964401));
      first [reflexivity | lia | intros t [= <-]; lia].
Defined.

(** ** Constant random sources *)

Lemma constant_rnd_ok r : (0 <= r)%Q → (r < 1)%Q → rand_ok (constant_rnd r).
Proof. intros H0 H1 n. by split. Defined.

Local Ltac rnd_ok := apply constant_rnd_ok; [discriminate | reflexivity].

(** ** The fields written by getMemberProgress *)

(** C2.  The scan visits the days [day_min .. days_total] in increasing
    order and stops at the first failing day [d].  When part 1 fails there:
    [filtered] is set and [progress = progress_exact = d - DELTA] if
    [d <= days_passed]; otherwise [filtered] stays false,
    [progress_exact = d - 0.5] and [progress] is within 0.15 of it.  When
    part 2 fails there: [progress = progress_exact = d + DELTA] if
    [d <= days_passed]; otherwise [progress_exact] is [d] and [progress] is
    within 0.05 of it.  When no day fails: [filtered] is false and
    [progress = progress_exact = days_total + 2].  These are the values read
    from the three keys after the run; the other keys are as before. *)
Theorem getMemberProgress_fields (o : opts) (event_start_time : Q)
    (members : list member) (rnd : rand_state) :
  1 ≤ day_min o → rand_ok rnd →
  ∃ members' fbd rnd',
    getMemberProgress o event_start_time members rnd
      = Some (members', fbd, rnd') ∧
    Forall2 (λ m m',
      ∃ p pe f,
        progress m' = Some p ∧ progress_exact m' = Some pe ∧
        filtered m' = Some f ∧
        id m' = id m ∧ global_score m' = global_score m ∧
        local_score m' = local_score m ∧ stars m' = stars m ∧
        completion_day_level m' = completion_day_level m ∧ y m' = y m ∧
        (never_fails o event_start_time (completion_day_level m) →
           f = false ∧ pe = inject_Z (days_total o + 2) ∧ p = pe) ∧
        (∀ d, first_failure o event_start_time (completion_day_level m) d →
           (pass1 o event_start_time (completion_day_level m) d = false →
            d ≤ days_passed o →
              f = true ∧ pe = (inject_Z d - DELTA)%Q ∧ p = pe) ∧
           (pass1 o event_start_time (completion_day_level m) d = false →
            days_passed o < d →
              f = false ∧ pe = (inject_Z d - (1 # 2))%Q ∧
              (- (15 # 100) <= p - pe)%Q ∧ (p - pe <= 15 # 100)%Q) ∧
           (pass1 o event_start_time (completion_day_level m) d = true →
            d ≤ days_passed o →
              f = true ∧ pe = (inject_Z d + DELTA)%Q ∧ p = pe) ∧
           (pass1 o event_start_time (completion_day_level m) d = true →
            days_passed o < d →
              f = false ∧ pe = inject_Z d ∧
              (- (5 # 100) <= p - pe)%Q ∧ (p - pe <= 5 # 100)%Q)))
      members members'.
Proof.
  intros Hmin Hrnd.
  destruct (getMemberProgress_spec o event_start_time members rnd Hmin Hrnd)
    as (ms' & fbd & rnd' & Hrun & Hall & _).
  exists ms', fbd, rnd'. split; [done|].
  eapply Forall2_impl; [exact Hall|].
  intros m m' (fbd0 & fbd1 & Hturn).
  destruct Hturn as [(Hnf & _ & ->)|(d0 & n & p & pe & f & Hff & _ & _ & -> & Hfields)].
  - eexists _, _, _. do 9 (split; [done|]). split; [done|].
    intros d (Hr & Hf & _). rewrite Hnf in Hf; done.
  - exists p, pe, f. do 9 (split; [done|]). split.
    + intros Hnf. destruct Hff as (Hr & Hf & _). rewrite Hnf in Hf; done.
    + intros d Hd.
      by rewrite (first_failure_unique o event_start_time _ d d0 Hd Hff).
Qed.

(** One day passed, every draw 0.9.  The member with every star is read
    back with [progress = progress_exact = 5] and not filtered; the member
    who misses part 2 of day 2 with [progress_exact = 2], [progress] within
    0.05 of it and not filtered; the member without a star with
    [progress = progress_exact = 1 - DELTA] and filtered. *)
Lemma getMemberProgress_fields_witness :
  ∃ m1 m2 m3 fbd rnd' p2,
    getMemberProgress (example_opts 1 id1000) 0
      [example_member 1 completion_A; example_member 2 completion_B;
       example_member 3 ∅] (constant_rnd (9 # 10))
    = Some ([m1; m2; m3], fbd, rnd') ∧
    (progress m1 = Some (inject_Z 5) ∧ progress_exact m1 = Some (inject_Z 5) ∧
     filtered m1 = Some false) ∧
    (progress m2 = Some p2 ∧ progress_exact m2 = Some (inject_Z 2) ∧
     filtered m2 = Some false ∧
     (- (5 # 100) <= p2 - inject_Z 2)%Q ∧ (p2 - inject_Z 2 <= 5 # 100)%Q) ∧
    (progress m3 = Some (inject_Z 1 - DELTA)%Q ∧
     progress_exact m3 = Some (inject_Z 1 - DELTA)%Q ∧
     filtered m3 = Some true).
Proof.
  destruct (getMemberProgress_fields (example_opts 1 id1000) 0
      [example_member 1 completion_A; example_member 2 completion_B;
       example_member 3 ∅] (constant_rnd (9 # 10)))
    as (ms & fbd & rnd' & Hrun & Hall); [reflexivity | rnd_ok |].
  apply Forall2_cons_inv_l in Hall as (m1 & ms1 & H1 & Hall & ->).
  apply Forall2_cons_inv_l in Hall as (m2 & ms2 & H2 & Hall & ->).
  apply Forall2_cons_inv_l in Hall as (m3 & ms3 & H3 & Hall & ->).
  apply Forall2_nil_inv_l in Hall as ->.
  destruct H1 as (p1 & pe1 & f1 & Hp1 & Hpe1 & Hf1 & _ & _ & _ & _ & _ & _
                  & Hnf1 & _).
  destruct H2 as (p2 & pe2 & f2 & Hp2 & Hpe2 & Hf2 & _ & _ & _ & _ & _ & _
                  & _ & Hff2).
  destruct H3 as (p3 & pe3 & f3 & Hp3 & Hpe3 & Hf3 & _ & _ & _ & _ & _ & _
                  & _ & Hff3).
  destruct Hnf1 as (-> & -> & ->).
  { intros d Hd. simpl in Hd.
    assert (d = 1 ∨ d = 2 ∨ d = 3) as [->|[->| ->]] by lia; reflexivity. }
  destruct (Hff2 2) as (_ & _ & _ & (-> & -> & Hlo & Hhi));
    [|reflexivity | simpl; lia |].
  { split; [simpl; lia|]. split; [reflexivity|].
    intros d' Hd'. simpl in Hd'. assert (d' = 1) as -> by lia. reflexivity. }
  destruct (Hff3 1) as ((-> & -> & ->) & _); [|reflexivity | simpl; lia |].
  { split; [simpl; lia|]. split; [reflexivity|]. intros d' Hd'. simpl in Hd'.
    lia. }
  exists m1, m2, m3, fbd, rnd', p2. done.
Defined.

(** Three days, all of them passed: the member with every star ends at
    [days_total + 2], the member who misses part 2 of day 2 is filtered at
    [2 + DELTA], the member without any star at [1 - DELTA]. *)
Example scenario_all_days_passed :
  progress_summary
    (getMemberProgress (example_opts 3 id1000) 0
       [example_member 1 completion_A; example_member 2 completion_B;
        example_member 3 ∅] (constant_rnd (9 # 10)))
  = Some ([(Some (inject_Z 5), Some (inject_Z 5), Some false);
           (Some (inject_Z 2 + DELTA)%Q, Some (inject_Z 2 + DELTA)%Q,
            Some true);
           (Some (inject_Z 1 - DELTA)%Q, Some (inject_Z 1 - DELTA)%Q,
            Some true)],
          <[1 := 1]> (<[2 := 1]> (<[3 := 0]> ∅))).
Proof. vm_compute. reflexivity. Qed.

(** One day passed: the failure on day 2 is not final, the member is not
    filtered, [progress_exact] is 2 and [progress], here 2.04, is within
    0.05 of it. *)
Example scenario_one_day_passed :
  progress_summary
    (getMemberProgress (example_opts 1 id1000) 0
       [example_member 2 completion_B] (constant_rnd (9 # 10)))
  = Some ([(Some (inject_Z 2 + ((9 # 10) * (5 # 100) * 2 - (5 # 100)))%Q,
            Some (inject_Z 2), Some false)],
          <[1 := 0]> (<[2 := 1]> (<[3 := 0]> ∅))).
Proof. vm_compute. reflexivity. Qed.

(** A scan that starts before day 1 reads [filtered_by_day[0]], which has
    no entry: the [KeyError] of the source. *)
Example scan_from_day_zero_raises :
  getMemberProgress
    {| day_min := 0; days_total := 3; days_passed := 3;
       order_mode_of := id1000; time_limit := Unbounded |} 0
    [example_member 3 ∅] (constant_rnd (9 # 10)) = None.
Proof. vm_compute. reflexivity. Qed.

(** ** Filtered members and the elapsed days *)

(** C1, counterexample.  With two days passed, a member who misses part 2
    of day 2 is filtered and has [progress_exact = 2 + DELTA], which is more than [days_passed]. *)
Lemma filtered_progress_exceeds_days_passed :
  ∃ m' fbd rnd' pe,
    getMemberProgress (example_opts 2 id1000) 0
      [example_member 2 completion_B] (constant_rnd (9 # 10))
    = Some ([m'], fbd, rnd') ∧
    filtered m' = Some true ∧ progress_exact m' = Some pe ∧
    ¬ (pe <= inject_Z (days_passed (example_opts 2 id1000)))%Q.
Proof.
  eexists _, _, _, _. split; [vm_compute; reflexivity|].
  split; [reflexivity|]. split; [reflexivity|].
  intros H. apply H. reflexivity.
Qed.

(** C1, amended.  A filtered member has a first failing day [d] with
    [d <= days_passed], and [progress_exact] is [d - DELTA] (part 1 failed)
    or [d + DELTA] (part 2 failed), hence at most [days_passed + DELTA]; a
    member whose scan meets no failing day is not filtered, whatever
    [days_total] is. *)
Theorem filtered_progress_bound (o : opts) (event_start_time : Q)
    (members : list member) (rnd : rand_state) :
  1 ≤ day_min o → rand_ok rnd →
  ∃ members' fbd rnd',
    getMemberProgress o event_start_time members rnd
      = Some (members', fbd, rnd') ∧
    Forall2 (λ m m',
      ∃ pe f,
        progress_exact m' = Some pe ∧ filtered m' = Some f ∧
        (f = true →
           ∃ d, first_failure o event_start_time (completion_day_level m) d ∧
                d ≤ days_passed o ∧
                ((pass1 o event_start_time (completion_day_level m) d = false ∧
                  pe == inject_Z d - DELTA) ∨
                 (pass1 o event_start_time (completion_day_level m) d = true ∧
                  pe == inject_Z d + DELTA))%Q ∧
                (pe <= inject_Z (days_passed o) + DELTA)%Q) ∧
        (never_fails o event_start_time (completion_day_level m) → f = false))
      members members'.
Proof.
  intros Hmin Hrnd.
  destruct (getMemberProgress_spec o event_start_time members rnd Hmin Hrnd)
    as (ms' & fbd & rnd' & Hrun & Hall & _).
  exists ms', fbd, rnd'. split; [done|].
  eapply Forall2_impl; [exact Hall|].
  intros m m' (fbd0 & fbd1 & Hturn).
  destruct Hturn as [(Hnf & _ & ->)|(d & n & p & pe & f & Hff & _ & _ & -> & Hfields)].
  - eexists _, _. split; [done|]. split; [done|]. split; done.
  - exists pe, f. split; [done|]. split; [done|]. split.
    + intros ->. exists d. split; [done|].
      destruct Hfields as (F1 & F2 & F3 & F4).
      assert (Hd : d ≤ days_passed o).
      { destruct (decide (d ≤ days_passed o)) as [|Hgt]; [done|].
        destruct (pass1 o event_start_time (completion_day_level m) d);
          [destruct F4 as [? _] | destruct F2 as [? _]]; done || lia. }
      split; [done|].
      assert (Hle : (inject_Z d <= inject_Z (days_passed o))%Q)
        by (by rewrite <- Zle_Qle).
      unfold DELTA in *.
      destruct (pass1 o event_start_time (completion_day_level m) d).
      * destruct F3 as (_ & -> & _); [done..|].
        split; [right; by split | lra].
      * destruct F1 as (_ & -> & _); [done..|].
        split; [left; by split | lra].
    + intros Hnf. destruct Hff as (Hr & Hf & _). rewrite Hnf in Hf; done.
Qed.

Lemma filtered_progress_bound_witness :
  ∃ members' fbd rnd',
    getMemberProgress (example_opts 2 id1000) 0
      [example_member 1 completion_A; example_member 2 completion_B]
      (constant_rnd (9 # 10))
    = Some (members', fbd, rnd').
Proof.
  destruct (filtered_progress_bound (example_opts 2 id1000) 0
      [example_member 1 completion_A; example_member 2 completion_B]
      (constant_rnd (9 # 10)))
    as (ms & fbd & rnd' & H & _); [reflexivity | rnd_ok |].
  by exists ms, fbd, rnd'.
Defined.

(** ** The tally of eliminations *)

(** C7.  Each member whose first failing day is [d] adds one to
    [filtered_by_day[d]], whether or not [d <= days_passed], and a member
    with no failing day leaves the tally as it is; so the tally returned for
    a day is the number of members whose first failing day it is. *)
Theorem filtered_by_day_counts (o : opts) (event_start_time : Q)
    (members : list member) (rnd : rand_state) :
  1 ≤ day_min o → rand_ok rnd →
  (∀ m fbd0 rnd0, rand_ok rnd0 → tally_ok o fbd0 →
     ∃ m' fbd1 rnd1,
       member_progress o event_start_time m fbd0 rnd0 = Some (m', fbd1, rnd1) ∧
       (∀ d, first_failure o event_start_time (completion_day_level m) d →
             ∃ n, fbd0 !! d = Some n ∧ fbd1 = <[d := n + 1]> fbd0) ∧
       (never_fails o event_start_time (completion_day_level m) →
        fbd1 = fbd0)) ∧
  (∀ m d, fail_day o event_start_time (completion_day_level m) = Some d ↔
          first_failure o event_start_time (completion_day_level m) d) ∧
  ∃ members' fbd rnd',
    getMemberProgress o event_start_time members rnd
      = Some (members', fbd, rnd') ∧
    ∀ d, 1 ≤ d ≤ days_total o →
         fbd !! d = Some (eliminated_on o event_start_time d members).
Proof.
  intros Hmin Hrnd. split; [|split].
  - intros m fbd0 rnd0 Hrnd0 Hfbd0.
    destruct (member_progress_turn o event_start_time Hmin m fbd0 rnd0)
      as (m' & fbd1 & rnd1 & Hrun & Hturn & _); [done..|].
    exists m', fbd1, rnd1. split; [done|].
    destruct Hturn as [(Hnf & -> & _)|(d0 & n & p & pe & f & Hff & Hn & -> & _)].
    + split; [|done]. intros d (Hr & Hf & _). rewrite Hnf in Hf; done.
    + split.
      * intros d Hd.
        rewrite (first_failure_unique o event_start_time _ d d0 Hd Hff).
        by exists n.
      * intros Hnf. destruct Hff as (Hr & Hf & _). rewrite Hnf in Hf; done.
  - intros m d. apply fail_day_Some.
  - destruct (getMemberProgress_spec o event_start_time members rnd Hmin Hrnd)
      as (ms' & fbd & rnd' & Hrun & _ & Htal & _).
    exists ms', fbd, rnd'. split; [done|].
    intros d Hd. by rewrite Htal, decide_True.
Qed.

Lemma filtered_by_day_counts_witness :
  ∃ members' fbd rnd',
    getMemberProgress (example_opts 1 id1000) 0
      [example_member 1 completion_A; example_member 2 completion_B;
       example_member 3 ∅] (constant_rnd (9 # 10))
    = Some (members', fbd, rnd') ∧
    fbd !! 2 = Some 1.
Proof.
  destruct (filtered_by_day_counts (example_opts 1 id1000) 0
      [example_member 1 completion_A; example_member 2 completion_B;
       example_member 3 ∅] (constant_rnd (9 # 10)))
    as (_ & _ & ms & fbd & rnd' & H & Hd); [reflexivity | rnd_ok |].
  exists ms, fbd, rnd'. split; [done|].
  rewrite (Hd 2); [reflexivity | done].
Defined.

(** ** The survival table *)

Lemma Zsum_app l1 l2 : Zsum (l1 ++ l2) = Zsum l1 + Zsum l2.
Proof. induction l1 as [|x l1 IH]; simpl; lia. Qed.

Lemma Zsum_nonneg l : Forall (λ x, 0 ≤ x) l → 0 ≤ Zsum l.
Proof. induction 1; simpl; lia. Qed.

Lemma range_snoc a d : a ≤ d → range a (d + 1) = range a d ++ [d].
Proof.
  intros H. rewrite (range_split a (d + 1) d) by lia.
  by rewrite (range_nil (d + 1)) by lia.
Qed.

Lemma filtered_upto_0 fbd : filtered_upto fbd 0 = 0.
Proof. unfold filtered_upto. by rewrite range_nil. Qed.

Lemma filtered_upto_step fbd d :
  1 ≤ d → filtered_upto fbd d = filtered_upto fbd (d - 1) + tally_at fbd d.
Proof.
  intros H. unfold filtered_upto.
  rewrite (range_snoc 1 d) by lia. rewrite fmap_app, Zsum_app. simpl.
  replace (d - 1 + 1) with d by lia. lia.
Qed.

Lemma filtered_upto_mono fbd d d' :
  (∀ i, 1 ≤ i ≤ d' → 0 ≤ tally_at fbd i) →
  0 ≤ d ≤ d' → 0 ≤ filtered_upto fbd d ≤ filtered_upto fbd d'.
Proof.
  intros Hnn Hd. unfold filtered_upto.
  destruct (decide (d = d')) as [->|Hne].
  - split; [|lia]. apply Zsum_nonneg, Forall_fmap, Forall_forall.
    intros i Hi%elem_of_range. apply Hnn. lia.
  - rewrite (range_split 1 (d' + 1) (d + 1)) by lia.
    rewrite fmap_app, Zsum_app.
    assert (0 ≤ Zsum (tally_at fbd <$> range 1 (d + 1))).
    { apply Zsum_nonneg, Forall_fmap, Forall_forall.
      intros i Hi%elem_of_range. apply Hnn. lia. }
    assert (0 ≤ Zsum (tally_at fbd <$> (d + 1) :: range (d + 1 + 1) (d' + 1))).
    { apply Zsum_nonneg, Forall_fmap, Forall_forall.
      intros i [->|Hi%elem_of_range]%elem_of_cons; apply Hnn; lia. }
    lia.
Qed.

Lemma remaining_loop_spec fbd days r rbd :
  NoDup days → (∀ d, d ∈ days → is_Some (fbd !! d)) →
  ∃ rbd',
    remaining_loop fbd days r rbd = Some rbd' ∧
    (∀ d, d ∉ days → rbd' !! d = rbd !! d) ∧
    (∀ pre d post, days = pre ++ d :: post →
       rbd' !! d = Some (r - Zsum (tally_at fbd <$> pre ++ [d]))).
Proof.
  intros Hnd. revert r rbd.
  induction Hnd as [|i rest Hi Hnd IH]; intros r rbd Hdom; simpl.
  - exists rbd. split; [done|]. split; [done|].
    intros pre d post H. by destruct pre.
  - destruct (Hdom i) as [c Hc]; [left|]. rewrite Hc. simpl.
    assert (Ht : tally_at fbd i = c) by (unfold tally_at; by rewrite Hc).
    destruct (IH (r - c) (<[i := r - c]> rbd)) as (rbd' & -> & Hout & Hin).
    { intros d Hd. apply Hdom. by right. }
    exists rbd'. split; [done|]. split.
    + intros d Hd. rewrite Hout by (intros ?; apply Hd; by right).
      apply lookup_insert_ne. intros ->. apply Hd. left.
    + intros pre d post Heq. destruct pre as [|i' pre]; simpl in Heq.
      * injection Heq as -> ->. rewrite Hout by done.
        rewrite lookup_insert_eq. simpl. rewrite Ht. f_equal. lia.
      * injection Heq as -> ->. rewrite (Hin pre d post) by done.
        change ((i' :: pre) ++ [d]) with (i' :: (pre ++ [d])).
        rewrite fmap_cons. simpl. rewrite Ht. f_equal. lia.
Qed.

Lemma remaining_table_spec o n fbd :
  (∀ d, 1 ≤ d ≤ days_total o → is_Some (fbd !! d)) →
  ∃ rbd,
    remaining_table o n fbd = Some rbd ∧
    ∀ d, rbd !! d =
         if decide (0 ≤ d ≤ Z.max 0 (days_total o))
         then Some (Z.of_nat n - filtered_upto fbd d) else None.
Proof.
  intros Hdom. unfold remaining_table.
  destruct (remaining_loop_spec fbd (range 1 (days_total o + 1))
              (Z.of_nat n) {[0 := Z.of_nat n]})
    as (rbd & -> & Hout & Hin).
  { apply NoDup_range. }
  { intros d Hd%elem_of_range. apply Hdom. lia. }
  exists rbd. split; [done|]. intros d.
  destruct (decide (1 ≤ d ≤ days_total o)) as [Hd|Hd].
  - rewrite decide_True by lia.
    rewrite (Hin (range 1 d) d (range (d + 1) (days_total o + 1))).
    + unfold filtered_upto. by rewrite range_snoc by lia.
    + apply range_split. lia.
  - rewrite Hout by (rewrite elem_of_range; lia).
    destruct (decide (d = 0)) as [->|Hne].
    + rewrite lookup_singleton_eq, decide_True by lia.
      rewrite filtered_upto_0. f_equal. lia.
    + rewrite lookup_singleton_ne by done. rewrite decide_False; [done | lia].
Qed.

Lemma stats_loop_spec rbd days first :
  rbd !! 0 = Some first →
  (∀ i, i ∈ days → is_Some (rbd !! (i - 1)) ∧ is_Some (rbd !! i)) →
  (∀ i, i ∈ days → rbd !! (i - 1) ≠ Some 0 → first ≠ 0) →
  ∃ rows,
    stats_loop rbd days = Some rows ∧
    row_day <$> rows = filter (λ i, rbd !! (i - 1) ≠ Some 0) days ∧
    Forall (stat_row_ok rbd) rows.
Proof.
  intros Hfirst. induction days as [|i days IH]; intros Hdom Hnz; simpl.
  - by exists [].
  - destruct IH as (rows & Hrun & Hdays & Hrows).
    { intros j Hj. apply Hdom. by right. }
    { intros j Hj. apply Hnz. by right. }
    destruct (Hdom i) as [[prev Hprev] [cur Hcur]]; [left|].
    rewrite Hprev. simpl. rewrite filter_cons.
    case_bool_decide as Hz.
    + subst prev. exists rows. split; [done|]. split; [|done].
      by rewrite decide_False by (intros H; by apply H).
    + rewrite Hcur. simpl. unfold true_div. rewrite bool_decide_false by done.
      simpl. rewrite Hfirst. simpl.
      assert (first ≠ 0) as Hf.
      { apply (Hnz i); [left | congruence]. }
      rewrite bool_decide_false by done. simpl. rewrite Hrun. simpl.
      eexists. split; [done|]. split.
      * rewrite decide_True by congruence. by rewrite fmap_cons, Hdays.
      * constructor; [|done]. exists prev, cur, first. simpl. done.
Qed.

Lemma percent_filtered_zero (r : Z) :
  r ≠ 0 → (100 * (1 - inject_Z r / inject_Z r) == 0)%Q.
Proof.
  intros Hr.
  assert (¬ (inject_Z r == 0)%Q).
  { change 0%Q with (inject_Z 0). rewrite inject_Z_injective. done. }
  field. done.
Qed.

(** C6.  [plotStats] sets [remaining_by_day[0]] to the number of members
    and [remaining_by_day[d]] to [remaining_by_day[d-1] - filtered_by_day[d]]
    for the days [1 .. days_total], a sequence that does not increase.  For
    the days [1 .. days_passed] it prints one line per day whose previous
    remainder is not zero, and skips the others; the line has
    [pass_frac = remaining_by_day[d] / remaining_by_day[d-1]] and
    [percent_filtered = 100 * (1 - pass_frac)], which is zero when nobody is
    eliminated on that day. *)
Theorem plotStats_survival (o : opts) (members : list member)
    (filtered_by_day : gmap Z Z) :
  days_passed o ≤ days_total o →
  (∀ d, 1 ≤ d ≤ days_total o →
        ∃ c, filtered_by_day !! d = Some c ∧ 0 ≤ c) →
  filtered_upto filtered_by_day (days_total o) ≤ Z.of_nat (length members) →
  ∃ rbd rows,
    plotStats o members filtered_by_day = Some (rbd, rows) ∧
    rbd !! 0 = Some (Z.of_nat (length members)) ∧
    (∀ d, 1 ≤ d ≤ days_total o →
          ∃ prev cur c,
            rbd !! (d - 1) = Some prev ∧ rbd !! d = Some cur ∧
            filtered_by_day !! d = Some c ∧
            cur = prev - c ∧ cur ≤ prev) ∧
    row_day <$> rows =
      filter (λ d, rbd !! (d - 1) ≠ Some 0) (range 1 (days_passed o + 1)) ∧
    Forall (λ row,
      ∃ prev cur,
        rbd !! (row_day row - 1) = Some prev ∧
        rbd !! row_day row = Some cur ∧ prev ≠ 0 ∧
        pass_frac row = (inject_Z cur / inject_Z prev)%Q ∧
        percent_filtered row = (100 * (1 - pass_frac row))%Q ∧
        (filtered_by_day !! row_day row = Some 0 →
         (percent_filtered row == 0)%Q)) rows.
Proof.
  intros Hpassed Htally Htotal.
  assert (Hdom : ∀ d, 1 ≤ d ≤ days_total o → is_Some (filtered_by_day !! d)).
  { intros d Hd. destruct (Htally d Hd) as (c & -> & _). by eexists. }
  assert (Hnn : ∀ d, 1 ≤ d ≤ days_total o → 0 ≤ tally_at filtered_by_day d).
  { intros d Hd. destruct (Htally d Hd) as (c & Hc & ?).
    unfold tally_at. by rewrite Hc. }
  destruct (remaining_table_spec o (length members) filtered_by_day Hdom)
    as (rbd & Hrbd & Hlook).
  assert (Hstep : ∀ d, 1 ≤ d ≤ days_total o →
            rbd !! (d - 1) = Some (Z.of_nat (length members)
                                   - filtered_upto filtered_by_day (d - 1)) ∧
            rbd !! d = Some (Z.of_nat (length members)
                             - filtered_upto filtered_by_day (d - 1)
                             - tally_at filtered_by_day d)).
  { intros d Hd. rewrite !Hlook, !decide_True by lia.
    split; [done|]. rewrite (filtered_upto_step _ d) by lia. f_equal. lia. }
  assert (H0 : rbd !! 0 = Some (Z.of_nat (length members))).
  { rewrite Hlook, decide_True by lia. rewrite filtered_upto_0. f_equal. lia. }
  destruct (stats_loop_spec rbd (range 1 (days_passed o + 1))
              (Z.of_nat (length members)) H0)
    as (rows & Hrows & Hdays & Hok).
  { intros i Hi%elem_of_range. destruct (Hstep i) as [-> ->]; [lia|].
    split; by eexists. }
  { intros i Hi%elem_of_range Hnz Hzero.
    destruct (Hstep i) as [Hprev _]; [lia|].
    apply Hnz. rewrite Hprev. f_equal.
    pose proof (filtered_upto_mono filtered_by_day (i - 1) (days_total o) Hnn).
    lia. }
  exists rbd, rows. unfold plotStats. rewrite Hrbd. simpl. rewrite Hrows. simpl.
  split; [done|]. split; [done|]. split; [|split; [done|]].
  - intros d Hd. destruct (Hstep d Hd) as [Hprev Hcur].
    destruct (Htally d Hd) as (c & Hc & Hc0).
    eexists _, _, c. split; [done|]. split; [done|]. split; [done|].
    unfold tally_at. rewrite Hc. simpl. lia.
  - eapply Forall_impl; [exact Hok|].
    intros row (prev & cur & first & Hprev & Hcur & _ & Hnz & _ & Hpf & Hperc & _).
    exists prev, cur. repeat (split; [done|]).
    intros Hzero. rewrite Hperc, Hpf.
    assert (Hin : 1 ≤ row_day row ≤ days_total o).
    { destruct (decide (1 ≤ row_day row ≤ days_total o)) as [|Hout]; [done|].
      exfalso. rewrite Hlook in Hcur. rewrite Hlook in Hprev.
      destruct (decide (0 ≤ row_day row ≤ Z.max 0 (days_total o))); [|done].
      destruct (decide (0 ≤ row_day row - 1 ≤ Z.max 0 (days_total o))); [|done].
      lia. }
    destruct (Hstep (row_day row) Hin) as [Hprev' Hcur'].
    unfold tally_at in Hcur'. rewrite Hzero in Hcur'. simpl in Hcur'.
    assert (cur = prev) as -> by (rewrite Hprev in Hprev'; rewrite Hcur in Hcur';
      injection Hprev' as ->; injection Hcur' as ->; lia).
    by apply percent_filtered_zero.
Qed.

(** With [days_passed] beyond [days_total] and members remaining, the loop
    over the days reads an entry of [remaining_by_day] that was never
    written. *)
Example stats_beyond_days_total_raises :
  plotStats (example_opts 4 id1000) [example_member 1 completion_A]
            (<[1 := 0]> (<[2 := 0]> (<[3 := 0]> ∅))) = None.
Proof. vm_compute. reflexivity. Qed.

Lemma plotStats_survival_witness :
  ∃ rbd rows,
    plotStats (example_opts 3 id1000)
      [example_member 1 completion_A; example_member 2 completion_B;
       example_member 3 ∅]
      (<[1 := 1]> (<[2 := 1]> (<[3 := 0]> ∅))) = Some (rbd, rows) ∧
    rbd !! 0 = Some 3.
Proof.
  destruct (plotStats_survival (example_opts 3 id1000)
      [example_member 1 completion_A; example_member 2 completion_B;
       example_member 3 ∅]
      (<[1 := 1]> (<[2 := 1]> (<[3 := 0]> ∅))))
    as (rbd & rows & H & H0 & _).
  - reflexivity.
  - intros d Hd. simpl in Hd.
    assert (d = 1 ∨ d = 2 ∨ d = 3) as Hcases by lia.
    destruct Hcases as [Hc|[Hc|Hc]]; rewrite Hc;
      eexists; (split; [vm_compute; reflexivity | lia]).
  - vm_compute. discriminate.
  - by exists rbd, rows.
Defined.

(** ** Every member is counted at most once *)

Lemma Zsum_fmap_add {A} (f g : A → Z) (l : list A) :
  Zsum ((λ d, f d + g d) <$> l) = Zsum (f <$> l) + Zsum (g <$> l).
Proof.
  induction l as [|x l IH]; [done|]. rewrite !fmap_cons. simpl. lia.
Qed.

Lemma Zsum_indicator_absent (x : option Z) (days : list Z) :
  (∀ d, d ∈ days → x ≠ Some d) →
  Zsum ((λ d, if decide (x = Some d) then 1 else 0) <$> days) = 0.
Proof.
  induction days as [|d days IH]; intros H; [done|].
  rewrite fmap_cons. simpl. rewrite decide_False by (apply H; left).
  rewrite IH; [done|]. intros d' Hd'. apply H. by right.
Qed.

Lemma Zsum_indicator (x : option Z) (days : list Z) :
  NoDup days →
  0 ≤ Zsum ((λ d, if decide (x = Some d) then 1 else 0) <$> days) ≤ 1.
Proof.
  induction 1 as [|d days Hd Hnd IH]; [simpl; lia|].
  rewrite fmap_cons. simpl. destruct (decide (x = Some d)) as [->|Hne]; [|lia].
  rewrite Zsum_indicator_absent; [lia|].
  intros d' Hd' [= ->]. done.
Qed.

Lemma eliminated_on_sum o est (days : list Z) members :
  NoDup days →
  0 ≤ Zsum ((λ d, eliminated_on o est d members) <$> days)
    ≤ Z.of_nat (length members).
Proof.
  intros Hnd. induction members as [|m members IH].
  - assert (Zsum ((λ d, eliminated_on o est d []) <$> days) = 0) as ->;
      [|simpl; lia].
    clear Hnd. induction days as [|d days IHd]; [done|].
    rewrite fmap_cons. simpl. rewrite IHd. done.
  - rewrite (list_fmap_ext (λ d, eliminated_on o est d (m :: members))
               (λ d, (if decide (fail_day o est (completion_day_level m) = Some d)
                      then 1 else 0) + eliminated_on o est d members) days)
      by (intros; apply eliminated_on_cons).
    rewrite (Zsum_fmap_add
               (λ d, if decide (fail_day o est (completion_day_level m) = Some d)
                     then 1 else 0)
               (λ d, eliminated_on o est d members)).
    pose proof (Zsum_indicator (fail_day o est (completion_day_level m)) days Hnd).
    simpl length. lia.
Qed.

(** C10.  A member adds to the tally of at most one day, so the tallies of
    all days add up to at most the number of members, and no entry of
    [remaining_by_day] is negative. *)
Theorem remaining_by_day_nonnegative (o : opts) (event_start_time : Q)
    (members : list member) (rnd : rand_state) :
  1 ≤ day_min o → rand_ok rnd →
  (∀ m fbd0 rnd0, rand_ok rnd0 → tally_ok o fbd0 →
     ∃ m' fbd1 rnd1,
       member_progress o event_start_time m fbd0 rnd0 = Some (m', fbd1, rnd1) ∧
       (fbd1 = fbd0 ∨
        ∃ d n, fbd0 !! d = Some n ∧ fbd1 = <[d := n + 1]> fbd0)) ∧
  ∃ members' fbd rnd' rbd,
    getMemberProgress o event_start_time members rnd
      = Some (members', fbd, rnd') ∧
    length members' = length members ∧
    (∀ d, is_Some (fbd !! d) ↔ 1 ≤ d ≤ days_total o) ∧
    (∀ d c, fbd !! d = Some c → 0 ≤ c) ∧
    filtered_upto fbd (days_total o) ≤ Z.of_nat (length members) ∧
    remaining_table o (length members') fbd = Some rbd ∧
    (∀ d, 0 ≤ d ≤ days_total o → is_Some (rbd !! d)) ∧
    (∀ d r, rbd !! d = Some r → 0 ≤ r).
Proof.
  intros Hmin Hrnd. split.
  - intros m fbd0 rnd0 Hrnd0 Hfbd0.
    destruct (member_progress_turn o event_start_time Hmin m fbd0 rnd0)
      as (m' & fbd1 & rnd1 & Hrun & Hturn & _); [done..|].
    exists m', fbd1, rnd1. split; [done|].
    destruct Hturn as [(_ & -> & _)|(d & n & p & pe & f & _ & Hn & -> & _)];
      [by left | right; by exists d, n].
  - destruct (getMemberProgress_spec o event_start_time members rnd Hmin Hrnd)
      as (ms' & fbd & rnd' & Hrun & Hall & Htal & _).
    assert (Hel : ∀ d, d ≤ days_total o →
              tally_at fbd <$> range 1 (d + 1) =
              (λ i, eliminated_on o event_start_time i members)
                <$> range 1 (d + 1)).
    { intros d Hd. apply list_fmap_ext. intros i x Hi.
      apply list_elem_of_lookup_2, elem_of_range in Hi.
      unfold tally_at. rewrite Htal, decide_True by lia. done. }
    assert (Hupto : ∀ d, filtered_upto fbd d ≤ Z.of_nat (length members)).
    { intros d. unfold filtered_upto.
      destruct (decide (d ≤ days_total o)) as [Hd|Hd].
      - rewrite Hel by done. apply eliminated_on_sum, NoDup_range.
      - assert (Hzero : ∀ l, Forall (λ i, days_total o < i) l →
                  Zsum (tally_at fbd <$> l) = 0).
        { induction 1 as [|i l Hi _ IH]; [done|].
          rewrite fmap_cons. simpl. unfold tally_at at 1.
          rewrite Htal, decide_False by lia. simpl. done. }
        destruct (decide (0 ≤ days_total o)).
        + rewrite (range_split 1 (d + 1) (days_total o + 1)) by lia.
          rewrite fmap_app, Zsum_app, Hel by lia.
          rewrite (Hzero (_ :: _)).
          * pose proof (eliminated_on_sum o event_start_time
                          (range 1 (days_total o + 1)) members
                          (NoDup_range _ _)). lia.
          * apply Forall_forall.
            intros i [->|Hi%elem_of_range]%elem_of_cons; lia.
        + rewrite Hzero; [lia|]. apply Forall_forall.
          intros i Hi%elem_of_range. lia. }
    destruct (remaining_table_spec o (length ms') fbd)
      as (rbd & Hrbd & Hlook).
    { intros d Hd. rewrite Htal, decide_True by done. by eexists. }
    assert (Hlen : length ms' = length members)
      by (symmetry; by eapply Forall2_length).
    exists ms', fbd, rnd', rbd. split; [done|]. split; [done|].
    split; [|split; [|split; [done|split; [done|split]]]].
    + intros d. rewrite Htal.
      case_decide; split; intros Hx; first [done | by eexists | by destruct Hx].
    + intros d c. rewrite Htal. case_decide; [|done].
      intros [= <-]. apply eliminated_on_nonneg.
    + intros d Hd. rewrite Hlook, decide_True by lia. by eexists.
    + intros d r. rewrite Hlook. case_decide; [|done].
      intros [= <-]. rewrite Hlen. specialize (Hupto d). lia.
Qed.

Lemma remaining_by_day_nonnegative_witness :
  ∃ members' fbd rnd' rbd,
    getMemberProgress (example_opts 1 id1000) 0
      [example_member 1 completion_A; example_member 2 completion_B;
       example_member 3 ∅] (constant_rnd (9 # 10))
    = Some (members', fbd, rnd') ∧
    remaining_table (example_opts 1 id1000) (length members') fbd = Some rbd.
Proof.
  destruct (remaining_by_day_nonnegative (example_opts 1 id1000) 0
      [example_member 1 completion_A; example_member 2 completion_B;
       example_member 3 ∅] (constant_rnd (9 # 10)))
    as (_ & ms & fbd & rnd' & rbd & H & _ & _ & _ & _ & Hr & _);
    [reflexivity | rnd_ok |].
  by exists ms, fbd, rnd', rbd.
Defined.

(** ** The stable sort *)

Lemma view_lt_trans a b c : view_lt a b → view_lt b c → view_lt a c.
Proof.
  unfold view_lt. intros [H1|[H1 H1']] [H2|[H2 H2']].
  - left. lra.
  - left. lra.
  - left. lra.
  - right. split; [lra | lia].
Qed.

Lemma insert_sorted_perm {A} (key : A → Q) x l :
  insert_sorted key x l ≡ₚ x :: l.
Proof.
  induction l as [|x' l IH]; simpl; [done|].
  destruct (Qle_bool _ _); [done|].
  rewrite IH. apply perm_swap.
Qed.

Lemma sorted_perm {A} (key : A → Q) l : sorted key l ≡ₚ l.
Proof.
  induction l as [|x l IH]; simpl; [done|].
  by rewrite insert_sorted_perm, IH.
Qed.

Lemma sorted_length {A} (key : A → Q) l : length (sorted key l) = length l.
Proof. apply Permutation_length, sorted_perm. Qed.

Lemma insert_sorted_view x l :
  StronglySorted view_lt l → Forall (λ b, (x.2 < b.2)%nat) l →
  StronglySorted view_lt (insert_sorted fst x l).
Proof.
  induction 1 as [|x' l Hl IH Hx']; intros Hlt; simpl.
  - repeat constructor.
  - apply Forall_cons in Hlt as [Hxx' Hlt].
    destruct (Qle_bool x.1 x'.1) eqn:E.
    + apply Qle_bool_iff in E.
      assert (view_lt x x') as Hv.
      { unfold view_lt. destruct (Qlt_le_dec x.1 x'.1); [by left|].
        right. split; [lra | done]. }
      constructor; [by constructor|].
      constructor; [done|].
      eapply Forall_impl; [exact Hx'|]. intros b Hb.
      by apply (view_lt_trans x x' b).
    + assert (x'.1 < x.1)%Q as Hgt.
      { destruct (Qlt_le_dec x'.1 x.1) as [|Hle]; [done|].
        apply Qle_bool_iff in Hle. congruence. }
      constructor; [by apply IH|].
      rewrite insert_sorted_perm. constructor; [by left | done].
Qed.

Lemma sorted_view (v : view) :
  StronglySorted (λ a b, (a.2 < b.2)%nat) v →
  StronglySorted view_lt (sorted fst v).
Proof.
  induction 1 as [|x v Hv IH Hx]; simpl; [constructor|].
  apply insert_sorted_view; [done|]. by rewrite sorted_perm.
Qed.

Lemma StronglySorted_lookup {A} (R : A → A → Prop) l i i' a b :
  StronglySorted R l → (i < i')%nat →
  l !! i = Some a → l !! i' = Some b → R a b.
Proof.
  intros Hl. revert i i'.
  induction Hl as [|x l Hl IH Hx]; intros i i' Hlt Ha Hb; [done|].
  destruct i' as [|i']; [lia|]. simpl in Hb.
  destruct i as [|i]; simpl in Ha.
  - injection Ha as ->. rewrite Forall_forall in Hx. apply Hx.
    by eapply list_elem_of_lookup_2.
  - apply (IH i i'); [lia | done | done].
Qed.

(** ** Writing the field [y] through a list of indices *)

Lemma write_ys_length w members : length (write_ys w members) = length members.
Proof.
  revert members. induction w as [|[j v] w IH]; intros members; [done|].
  unfold write_ys in *. simpl. by rewrite IH, length_alter.
Qed.

Lemma write_ys_other w members j :
  j ∉ w.*1 → write_ys w members !! j = members !! j.
Proof.
  revert members. induction w as [|[j' v] w IH]; intros members Hj; [done|].
  unfold write_ys in *. simpl. rewrite IH.
  - apply list_lookup_alter_ne. intros ->. apply Hj. left.
  - intros ?. apply Hj. by right.
Qed.

Lemma write_ys_lookup w members i j v :
  NoDup w.*1 → w !! i = Some (j, v) →
  write_ys w members !! j = set_y v <$> members !! j.
Proof.
  revert members i. induction w as [|[j' v'] w IH]; intros members i Hnd Hi;
    [done|].
  apply NoDup_cons in Hnd as [Hj' Hnd].
  unfold write_ys in *. simpl. destruct i as [|i]; simpl in Hi.
  - injection Hi as -> ->.
    fold (write_ys w (alter (set_y v) j members)).
    rewrite write_ys_other by done. apply list_lookup_alter_eq.
  - rewrite (IH _ i) by done.
    rewrite list_lookup_alter_ne; [done|].
    intros ->. apply Hj'. apply list_elem_of_fmap. exists (j, v).
    split; [done|]. by eapply list_elem_of_lookup_2.
Qed.

(** All the members written by [w] have the other fields they had. *)
Lemma write_ys_fields w members :
  Forall2 (λ m m', ∃ yv, m' = {| id := id m; global_score := global_score m;
                                 local_score := local_score m; stars := stars m;
                                 completion_day_level := completion_day_level m;
                                 progress := progress m;
                                 progress_exact := progress_exact m;
                                 filtered := filtered m; y := yv |})
          members (write_ys w members).
Proof.
  revert members. induction w as [|[j v] w IH]; intros members.
  - apply Forall2_same_length_lookup. split; [done|].
    intros i m m' H1 H2. exists (y m). simpl in H2.
    assert (m = m') as <- by congruence. by destruct m.
  - unfold write_ys in *. simpl.
    specialize (IH (alter (set_y v) j members)).
    apply Forall2_same_length_lookup. split.
    { apply Forall2_length in IH. by rewrite length_alter in IH. }
    intros i m m' H1 H2.
    rewrite Forall2_lookup in IH. specialize (IH i). rewrite H2 in IH.
    inversion IH as [m0 m'' [yv Hm'] Hm0 Heq|]; subst.
    symmetry in Hm0. exists yv.
    destruct (decide (i = j)) as [->|Hne].
    + rewrite list_lookup_alter_eq, H1 in Hm0. injection Hm0 as <-. done.
    + rewrite list_lookup_alter_ne, H1 in Hm0 by done. by injection Hm0 as <-.
Qed.

(** ** The two passes of orderMembers as lists of writes *)

Lemma assign_positions_writes ordered members :
  assign_positions ordered members =
  write_ys (rank_writes (length members) 0 ordered) members.
Proof.
  unfold assign_positions, enumerate, write_ys.
  generalize (length members) as n. generalize 0%nat as i.
  revert members.
  induction ordered as [|[k j] ordered IH]; intros members i n; [done|].
  simpl. apply IH.
Qed.

Lemma rank_writes_indices n i ordered : (rank_writes n i ordered).*1 = ordered.*2.
Proof.
  revert i. induction ordered as [|[k j] ordered IH]; intros i; [done|].
  simpl. by rewrite IH.
Qed.

Lemma rank_writes_lookup n i0 ordered i k j :
  ordered !! i = Some (k, j) →
  rank_writes n i0 ordered !! i = Some (j, rank_position (i0 + i) n).
Proof.
  revert i0 i. induction ordered as [|[k' j'] ordered IH]; intros i0 i Hi;
    [done|].
  destruct i as [|i]; simpl in *.
  - injection Hi as -> ->. by rewrite Nat.add_0_r.
  - rewrite (IH (S i0) i Hi). do 3 f_equal. lia.
Qed.

Lemma magic_assign_writes dy offset i ms members rnd :
  magic_assign dy offset (enumerate_from i ms) members rnd =
  (write_ys (magic_writes dy offset i ms rnd) members,
   {| draws := draws rnd; consumed := (consumed rnd + length ms)%nat |}).
Proof.
  revert i members rnd.
  induction ms as [|[k j] ms IH]; intros i members rnd; simpl.
  - unfold write_ys. simpl. destruct rnd. simpl. by rewrite Nat.add_0_r.
  - unfold random_uniform, random_random. simpl. rewrite IH. simpl.
    unfold write_ys, uniform_value. simpl. do 2 f_equal. lia.
Qed.

Lemma magic_writes_indices dy offset i ms rnd :
  (magic_writes dy offset i ms rnd).*1 = ms.*2.
Proof.
  revert i rnd. induction ms as [|[k j] ms IH]; intros i rnd; [done|].
  simpl. by rewrite IH.
Qed.

Lemma magic_writes_lookup dy offset i0 ms rnd i k j :
  ms !! i = Some (k, j) →
  magic_writes dy offset i0 ms rnd !! i =
  Some (j, (offset + inject_Z (Z.of_nat (i0 + i)) * dy
            + uniform_value dy (draws rnd (consumed rnd + i)%nat))%Q).
Proof.
  revert i0 i rnd. induction ms as [|[k' j'] ms IH]; intros i0 i rnd Hi;
    [done|].
  destruct i as [|i]; simpl in *.
  - injection Hi as -> ->. by rewrite !Nat.add_0_r.
  - rewrite (IH (S i0) i _ Hi). simpl.
    replace (S (i0 + i)) with (i0 + S i)%nat by lia.
    replace (S (consumed rnd + i)) with (consumed rnd + S i)%nat by lia.
    done.
Qed.

(** ** The views *)

Lemma keyed_from_spec f j members :
  Forall (λ m, is_Some (f m)) members →
  ∃ v, keyed_from f j members = Some v ∧
       v.*2 = seq j (length members) ∧
       Forall2 (λ m kj, f m = Some kj.1) members v.
Proof.
  intros H. revert j. induction H as [|m members [k Hk] _ IH]; intros j; simpl.
  - by exists [].
  - destruct (IH (S j)) as (v & -> & Hidx & Hkeys). rewrite Hk. simpl.
    eexists. split; [done|]. split; [by rewrite fmap_cons, Hidx|].
    by constructor.
Qed.

Lemma keyed_from_ext f g j ms1 ms2 :
  Forall2 (λ m1 m2, f m1 = g m2) ms1 ms2 →
  keyed_from f j ms1 = keyed_from g j ms2.
Proof.
  intros H. revert j. induction H as [|m1 m2 ms1 ms2 Hm _ IH]; intros j; [done|].
  simpl. by rewrite Hm, IH.
Qed.

Lemma seq_indices_sorted (v : view) j n :
  v.*2 = seq j n → StronglySorted (λ a b, (a.2 < b.2)%nat) v.
Proof.
  revert j n. induction v as [|a v IH]; intros j n Hv; [constructor|].
  destruct n as [|n]; [done|]. simpl in Hv. injection Hv as Ha Hv.
  constructor; [by eapply IH|].
  apply Forall_forall. intros b Hb.
  assert (b.2 ∈ seq (S j) n) as Hin.
  { rewrite <- Hv. apply list_elem_of_fmap. by exists b. }
  apply elem_of_seq in Hin. lia.
Qed.

Lemma unfiltered_from_spec j members :
  Forall (λ m, is_Some (filtered m)) members →
  ∃ v, unfiltered_from j members = Some v ∧
       StronglySorted (λ a b, (a.2 < b.2)%nat) v ∧
       ∀ k j', (k, j') ∈ v ↔
               ∃ m, (j ≤ j')%nat ∧ members !! (j' - j)%nat = Some m ∧
                    filtered m = Some false ∧
                    k = inject_Z (id m `mod` 1000).
Proof.
  intros H. revert j. induction H as [|m members [f Hf] _ IH]; intros j; simpl.
  - exists []. split; [done|]. split; [constructor|].
    intros k j'. split; [by intros ?%elem_of_nil | by intros (m & _ & ? & _)].
  - destruct (IH (S j)) as (v & -> & Hsorted & Hv). rewrite Hf. simpl.
    assert (Hrest : ∀ k j', (k, j') ∈ v →
              ∃ m0, (j ≤ j')%nat ∧ (m :: members) !! (j' - j)%nat = Some m0 ∧
                    filtered m0 = Some false ∧
                    k = inject_Z (id m0 `mod` 1000) ∧ (j < j')%nat).
    { intros k j' (m0 & Hj & Hm0 & Hfm & Hk)%Hv. exists m0.
      split; [lia|]. split; [|done].
      replace (j' - j)%nat with (S (j' - S j)) by lia. done. }
    destruct f.
    + exists v. split; [done|]. split; [done|]. intros k j'. split.
      * intros (m0 & ? & ? & ? & ? & _)%Hrest. by exists m0.
      * intros (m0 & Hj & Hm0 & Hfm & Hk). apply Hv.
        destruct (j' - j)%nat as [|d] eqn:Ed; simpl in Hm0.
        -- injection Hm0 as <-. congruence.
        -- exists m0. split; [lia|]. split; [|done].
           by replace (j' - S j)%nat with d by lia.
    + eexists. split; [done|]. split.
      * constructor; [done|]. apply Forall_forall. intros [k j'] Hin.
        apply Hrest in Hin as (? & _ & _ & _ & _ & ?). done.
      * intros k j'. rewrite elem_of_cons. split.
        -- intros [[= -> ->]|Hin].
           ++ exists m. rewrite Nat.sub_diag. done.
           ++ apply Hrest in Hin as (m0 & ? & ? & ? & ? & _). by exists m0.
        -- intros (m0 & Hj & Hm0 & Hfm & Hk).
           destruct (j' - j)%nat as [|d] eqn:Ed; simpl in Hm0.
           ++ injection Hm0 as <-. left. f_equal; [done | lia].
           ++ right. apply Hv. exists m0. split; [lia|]. split; [|done].
              by replace (j' - S j)%nat with d by lia.
Qed.

Lemma unfiltered_from_ext j ms1 ms2 :
  Forall2 (λ m1 m2, id m1 = id m2 ∧ filtered m1 = filtered m2) ms1 ms2 →
  unfiltered_from j ms1 = unfiltered_from j ms2.
Proof.
  intros H. revert j.
  induction H as [|m1 m2 ms1 ms2 [Hid Hf] _ IH]; intros j; [done|].
  simpl. by rewrite Hid, Hf, IH.
Qed.

(** ** Rank positions *)

Lemma rank_position_range i n :
  (i < n)%nat → (0 < rank_position i n)%Q ∧ (rank_position i n <= 1)%Q.
Proof.
  intros Hi. unfold rank_position.
  assert (0 < inject_Z (Z.of_nat n))%Q as Hn.
  { change 0%Q with (inject_Z 0). rewrite <- Zlt_Qlt. lia. }
  split.
  - apply Qlt_shift_div_l; [done|]. rewrite Qmult_0_l.
    change 0%Q with (inject_Z 0). rewrite <- Zlt_Qlt. lia.
  - apply Qle_shift_div_r; [done|]. rewrite Qmult_1_l.
    rewrite <- Zle_Qle. lia.
Qed.

Lemma rank_position_inj i i' n :
  (0 < n)%nat → (rank_position i n == rank_position i' n)%Q → i = i'.
Proof.
  intros Hn H. unfold rank_position in H.
  assert (¬ (inject_Z (Z.of_nat n) == 0)%Q) as Hnz.
  { change 0%Q with (inject_Z 0). rewrite inject_Z_injective. lia. }
  assert (inject_Z (Z.of_nat i + 1) == inject_Z (Z.of_nat i' + 1))%Q as Heq.
  { assert (E : ∀ a, (a == a / inject_Z (Z.of_nat n)
                            * inject_Z (Z.of_nat n))%Q)
      by (intros a; field; done).
    rewrite (E (inject_Z (Z.of_nat i + 1))), H. symmetry. apply E. }
  apply (proj1 (inject_Z_injective _ _)) in Heq. lia.
Qed.

(** ** The first pass of orderMembers *)

Lemma order_func_is_Some mode members :
  (mode = by_progress → Forall (λ m, is_Some (progress_exact m)) members) →
  Forall (λ m, is_Some (order_func mode m)) members.
Proof.
  intros H. destruct mode; try (apply Forall_forall; intros; by eexists).
  by apply H.
Qed.

Lemma primary_pass_spec mode members :
  Forall (λ m, is_Some (order_func mode m)) members →
  ∃ ordered,
    members_ordered mode members = Some ordered ∧
    ordered.*2 ≡ₚ seq 0 (length members) ∧
    StronglySorted view_lt ordered ∧
    (∀ k j, (k, j) ∈ ordered →
            ∃ m, members !! j = Some m ∧ order_func mode m = Some k) ∧
    (∀ i k j, ordered !! i = Some (k, j) →
       ∃ m, members !! j = Some m ∧
            assign_positions ordered members !! j =
              Some (set_y (rank_position i (length members)) m)).
Proof.
  intros Hkeys. unfold members_ordered.
  destruct (keyed_from_spec (order_func mode) 0 members Hkeys)
    as (v & -> & Hidx & Hv).
  simpl. eexists. split; [done|].
  assert (Hperm : (sorted fst v).*2 ≡ₚ seq 0 (length members)).
  { by rewrite sorted_perm, Hidx. }
  assert (Hin : ∀ k j, (k, j) ∈ sorted fst v →
            ∃ m, members !! j = Some m ∧ order_func mode m = Some k).
  { intros k j. rewrite sorted_perm. intros [i Hi]%list_elem_of_lookup_1.
    assert (j = i) as ->.
    { assert (v.*2 !! i = Some j) as Hj by (by rewrite list_lookup_fmap, Hi).
      rewrite Hidx in Hj. apply lookup_seq in Hj. lia. }
    rewrite Forall2_lookup in Hv. specialize (Hv i). rewrite Hi in Hv.
    inversion Hv as [m kj Hm Hm0 Heq|]; subst. by exists m. }
  split; [done|]. split.
  { apply sorted_view. by eapply seq_indices_sorted. }
  split; [done|].
  intros i k j Hi.
  destruct (Hin k j) as (m & Hm & _); [by eapply list_elem_of_lookup_2|].
  exists m. split; [done|].
  rewrite assign_positions_writes.
  rewrite (write_ys_lookup _ _ i j (rank_position i (length members))).
  - by rewrite Hm.
  - rewrite rank_writes_indices, Hperm. apply NoDup_seq.
  - by rewrite (rank_writes_lookup _ 0 _ i k j).
Qed.

Lemma positions_multiset (ordered : view) (members' : list member) (vals : nat → Q) :
  ordered.*2 ≡ₚ seq 0 (length members') →
  (∀ i k j, ordered !! i = Some (k, j) →
            ∃ m', members' !! j = Some m' ∧ y m' = Some (vals i)) →
  y <$> members' ≡ₚ (λ i, Some (vals i)) <$> seq 0 (length members').
Proof.
  intros Hperm Hy.
  set (h := λ j : nat, members' !! j ≫= y).
  assert (y <$> members' = h <$> seq 0 (length members')) as ->.
  { apply list_eq. intros j. rewrite !list_lookup_fmap.
    destruct (members' !! j) as [m'|] eqn:E; simpl.
    - rewrite lookup_seq_lt by (by eapply lookup_lt_Some). simpl.
      unfold h. by rewrite E.
    - rewrite lookup_seq_ge; [done|]. by apply lookup_ge_None. }
  trans (h <$> ordered.*2); [by rewrite Hperm|].
  assert (h <$> ordered.*2 = (λ i, Some (vals i)) <$> seq 0 (length members'))
    as ->; [|done].
  assert (length ordered = length members') as Hlen.
  { apply Permutation_length in Hperm.
    by rewrite length_fmap, length_seq in Hperm. }
  apply list_eq. intros i. rewrite !list_lookup_fmap.
  destruct (ordered !! i) as [[k j]|] eqn:E; simpl.
  - rewrite lookup_seq_lt by (rewrite <- Hlen; by eapply lookup_lt_Some).
    simpl. destruct (Hy i k j E) as (m' & Hm' & Hym'). unfold h.
    rewrite Hm'. simpl. by rewrite Hym'.
  - rewrite lookup_seq_ge; [done|]. rewrite <- Hlen. by apply lookup_ge_None.
Qed.

Lemma set_y_reads v m : y (set_y v m) = Some v ∧ same_but_y m (set_y v m).
Proof. done. Qed.

(** C4.  In every mode but magic, [orderMembers] sorts the members
    ascending by the key of the mode, members of equal key staying in their
    order of insertion, and gives the member at rank [i] (from 0) the
    position [(i+1)/n]: the positions read from the key "y" are the values
    [1/n, 2/n, ..., n/n], each given once, and no other key changes.  The
    key is [id % 1000], [id], [global_score], [local_score],
    [progress_exact] or [stars]. *)
Theorem orderMembers_positions (o : opts) (members : list member)
    (rnd : rand_state) :
  order_mode_of o ≠ magic →
  (order_mode_of o = by_progress →
   Forall (λ m, is_Some (progress_exact m)) members) →
  let n := length members in
  let key (m : member) : option Q :=
    match order_mode_of o with
    | id1000 | magic => Some (inject_Z (id m `mod` 1000))
    | by_id => Some (inject_Z (id m))
    | by_global => Some (inject_Z (global_score m))
    | by_local => Some (inject_Z (local_score m))
    | by_progress => progress_exact m
    | by_stars => Some (inject_Z (stars m))
    end in
  let position (i : nat) : Q :=
    (inject_Z (Z.of_nat i + 1) / inject_Z (Z.of_nat n))%Q in
  ∃ ordered members',
    members_ordered (order_mode_of o) members = Some ordered ∧
    orderMembers o members rnd = Some (members', rnd) ∧
    ordered.*2 ≡ₚ seq 0 n ∧
    (∀ k j, (k, j) ∈ ordered →
            ∃ m, members !! j = Some m ∧ key m = Some k) ∧
    (∀ i i' k j k' j',
       (i < i')%nat →
       ordered !! i = Some (k, j) → ordered !! i' = Some (k', j') →
       (k < k')%Q ∨ ((k == k')%Q ∧ (j < j')%nat)) ∧
    (∀ i k j, ordered !! i = Some (k, j) →
       ∃ m m', members !! j = Some m ∧ members' !! j = Some m' ∧
               y m' = Some (position i) ∧ same_but_y m m') ∧
    y <$> members' ≡ₚ (λ i, Some (position i)) <$> seq 0 n ∧
    (∀ i i', (i < n)%nat → (i' < n)%nat → i ≠ i' →
             ¬ (position i == position i')%Q).
Proof.
  intros Hmode Hpe n key position.
  destruct (primary_pass_spec (order_mode_of o) members)
    as (ordered & Hord & Hperm & Hsorted & Hin & Hpos).
  { by apply order_func_is_Some. }
  exists ordered, (assign_positions ordered members).
  assert (Hlen : length (assign_positions ordered members) = length members).
  { rewrite assign_positions_writes. apply write_ys_length. }
  assert (Hread : ∀ i k j, ordered !! i = Some (k, j) →
            ∃ m m', members !! j = Some m ∧
                    assign_positions ordered members !! j = Some m' ∧
                    y m' = Some (position i) ∧ same_but_y m m').
  { intros i k j Hi. destruct (Hpos i k j Hi) as (m & Hm & Hm').
    exists m, (set_y (rank_position i (length members)) m).
    split; [done|]. split; [done|]. apply set_y_reads. }
  split; [done|]. split.
  { unfold orderMembers. rewrite Hord. simpl.
    by destruct (order_mode_of o). }
  split; [done|]. split.
  { intros k j Hkj. destruct (Hin k j Hkj) as (m & Hm & Hk).
    exists m. split; [done|]. unfold key. rewrite <- Hk. unfold order_func.
    by destruct (order_mode_of o). }
  split.
  { intros i i' k j k' j' Hlt Hi Hi'.
    apply (StronglySorted_lookup view_lt ordered i i' (k, j) (k', j')); done. }
  split; [done|]. split.
  - pose proof (positions_multiset ordered (assign_positions ordered members)
                  position) as Hm.
    rewrite Hlen in Hm. apply Hm.
    + done.
    + intros i k j Hi. destruct (Hread i k j Hi) as (m & m' & _ & Hm' & Hy & _).
      by exists m'.
  - intros i i' Hi Hi' Hne Heq. apply Hne.
    apply (rank_position_inj i i' (length members)); [lia | done].
Qed.

(** Three members in mode progress, two of them with the key 5: the one
    with the key 2.15 is read back at 1/3, and the two others, in their
    order of insertion, at 2/3 and 3/3. *)
Lemma orderMembers_positions_witness :
  ∃ m1 m2 m3,
    orderMembers (example_opts 3 by_progress)
      [enriched_member 1 5 false; enriched_member 2 (215 # 100) true;
       enriched_member 3 5 false] (constant_rnd (9 # 10))
    = Some ([m1; m2; m3], constant_rnd (9 # 10)) ∧
    y <$> [m1; m2; m3] ≡ₚ
      [Some (inject_Z 1 / inject_Z 3); Some (inject_Z 2 / inject_Z 3);
       Some (inject_Z 3 / inject_Z 3)]%Q.
Proof.
  destruct (orderMembers_positions (example_opts 3 by_progress)
      [enriched_member 1 5 false; enriched_member 2 (215 # 100) true;
       enriched_member 3 5 false] (constant_rnd (9 # 10)))
    as (ordered & ms' & _ & Hrun & _ & _ & _ & _ & Hys & _).
  - discriminate.
  - intros _. repeat constructor; by eexists.
  - assert (length ms' = 3%nat) as Hlen.
    { apply Permutation_length in Hys. by rewrite !length_fmap in Hys. }
    destruct ms' as [|m1 [|m2 [|m3 [|? ?]]]]; try discriminate.
    exists m1, m2, m3. split; [exact Hrun | exact Hys].
Defined.

(** ** The magic pass *)

Lemma float_mod_range r dy :
  (0 < dy)%Q → (0 <= float_mod r dy)%Q ∧ (float_mod r dy < dy)%Q.
Proof.
  intros Hdy. unfold float_mod.
  pose proof (Qfloor_le (r / dy)) as Hlo.
  pose proof (Qlt_floor (r / dy)) as Hhi.
  rewrite inject_Z_plus in Hhi. change (inject_Z 1) with 1%Q in Hhi.
  set (q := inject_Z (Qfloor (r / dy))) in *.
  assert (r == r / dy * dy)%Q as Hr by (field; lra).
  set (x := (r / dy)%Q) in *.
  assert (0 <= dy * (x - q))%Q by (apply Qmult_le_0_compat; lra).
  assert (0 < dy * (q + 1 - x))%Q by (apply Qmult_lt_0_compat; lra).
  split; lra.
Qed.

Lemma uniform_value_range dy r :
  (0 < dy)%Q → (0 <= r)%Q → (r < 1)%Q →
  (- (dy / 4) <= uniform_value dy r)%Q ∧ (uniform_value dy r < dy / 4)%Q.
Proof.
  intros Hdy H0 H1. unfold uniform_value, Qdiv.
  change (/ 4)%Q with (1 # 4)%Q. split; nra.
Qed.

Lemma slot_width_positive n :
  (0 < n)%nat → (0 < 1 / inject_Z (Z.of_nat n))%Q.
Proof.
  intros Hn. apply Qlt_shift_div_l.
  - change 0%Q with (inject_Z 0). rewrite <- Zlt_Qlt. lia.
  - lra.
Qed.

Lemma index_sorted_NoDup (v : view) :
  StronglySorted (λ a b, (a.2 < b.2)%nat) v → NoDup v.*2.
Proof.
  induction 1 as [|a v Hv IH Ha]; [constructor|].
  rewrite fmap_cons. constructor; [|done].
  intros [b [Hb Hin]]%list_elem_of_fmap.
  rewrite Forall_forall in Ha. specialize (Ha b Hin). lia.
Qed.

Lemma magic_pass_eq members rnd v :
  unfiltered_from 0 members = Some v →
  magic_pass members rnd =
  Some (if decide (sorted fst v = [])
        then (members, rnd)
        else (write_ys
                (magic_writes
                   (1 / inject_Z (Z.of_nat (length (sorted fst v))))
                   (float_mod (draws rnd (consumed rnd))
                      (1 / inject_Z (Z.of_nat (length (sorted fst v)))))
                   0 (sorted fst v) (advance 1 rnd))
                members,
              advance (1 + length (sorted fst v)) rnd)).
Proof.
  intros Hv. unfold magic_pass. rewrite Hv. simpl.
  destruct (decide (sorted fst v = [])) as [Hnil|Hne].
  - rewrite bool_decide_false; [done|]. rewrite Hnil. simpl. lia.
  - rewrite bool_decide_true by (by destruct (sorted fst v)).
    unfold random_random. fold (enumerate_from 0 (sorted fst v)).
    unfold enumerate. rewrite magic_assign_writes. simpl.
    do 2 f_equal.
    + f_equal. f_equal. unfold advance. f_equal. lia.
    + unfold advance. simpl. f_equal. lia.
Qed.

Lemma write_ys_same_inputs w members :
  Forall2 (λ m1 m2, id m1 = id m2 ∧ filtered m1 = filtered m2)
          (write_ys w members) members.
Proof.
  apply Forall2_flip. eapply Forall2_impl; [apply write_ys_fields|].
  intros m m' [yv ->]. done.
Qed.

Lemma write_ys_set_y w members j m v :
  members !! j = Some m →
  set_y v <$> write_ys w members !! j = Some (set_y v m).
Proof.
  intros Hm. pose proof (write_ys_fields w members) as H.
  rewrite Forall2_lookup in H. specialize (H j). rewrite Hm in H.
  inversion H as [m0 m' [yv Hm'] Hm0 Heq|]; subst. done.
Qed.

Lemma orderMembers_magic_spec o members rnd :
  order_mode_of o = magic →
  Forall (λ m, is_Some (filtered m)) members →
  ∃ ordered v members' rnd',
    members_ordered magic members = Some ordered ∧
    unfiltered_from 0 members = Some v ∧
    orderMembers o members rnd = Some (members', rnd') ∧
    length members' = length members ∧
    (sorted fst v = [] →
       members' = assign_positions ordered members ∧ rnd' = rnd) ∧
    (∀ i k j m,
       ordered !! i = Some (k, j) → members !! j = Some m →
       filtered m = Some true →
       members' !! j = Some (set_y (rank_position i (length members)) m)) ∧
    (∀ i k j,
       sorted fst v !! i = Some (k, j) →
       ∃ m, members !! j = Some m ∧ filtered m = Some false ∧
            k = inject_Z (id m `mod` 1000) ∧
            members' !! j =
              Some (set_y (magic_offset (length (sorted fst v)) rnd
                           + inject_Z (Z.of_nat i)
                             * (1 / inject_Z (Z.of_nat (length (sorted fst v))))
                           + magic_jitter (length (sorted fst v)) rnd i)%Q m)).
Proof.
  intros Hmode Hf.
  destruct (primary_pass_spec magic members)
    as (ordered & Hord & Hperm & Hsorted & Hin & Hpos).
  { apply Forall_forall. intros; by eexists. }
  destruct (unfiltered_from_spec 0 members Hf) as (v & Hv & Hvs & Hvin).
  assert (Hv' : unfiltered_from 0 (assign_positions ordered members) = Some v).
  { rewrite <- Hv. apply unfiltered_from_ext.
    rewrite assign_positions_writes. apply write_ys_same_inputs. }
  assert (Hlen : length (assign_positions ordered members) = length members).
  { rewrite assign_positions_writes. apply write_ys_length. }
  assert (Hms : ∀ k j, (k, j) ∈ sorted fst v →
            ∃ m, members !! j = Some m ∧ filtered m = Some false ∧
                 k = inject_Z (id m `mod` 1000)).
  { intros k j. rewrite sorted_perm.
    intros (m & _ & Hm & ? & ?)%Hvin. rewrite Nat.sub_0_r in Hm.
    by exists m. }
  assert (Hnd : NoDup (sorted fst v).*2).
  { rewrite sorted_perm. by apply index_sorted_NoDup. }
  exists ordered, v. unfold orderMembers. rewrite Hmode, Hord. simpl.
  rewrite (magic_pass_eq _ _ v Hv').
  destruct (decide (sorted fst v = [])) as [Hnil|Hne].
  - eexists _, _. split; [done|]. split; [done|]. split; [done|].
    split; [done|]. split; [done|]. split.
    + intros i k j m Hi Hm _. destruct (Hpos i k j Hi) as (m0 & Hm0 & ->).
      congruence.
    + intros i k j. by rewrite Hnil.
  - eexists _, _. split; [done|]. split; [done|]. split; [done|].
    split; [by rewrite write_ys_length|]. split; [done|]. split.
    + intros i k j m Hi Hm Hfm. rewrite write_ys_other.
      * destruct (Hpos i k j Hi) as (m0 & Hm0 & ->). congruence.
      * rewrite magic_writes_indices.
        intros [[k' j'] [Hj Hin']]%list_elem_of_fmap. simpl in Hj. subst j'.
        destruct (Hms k' j Hin') as (m0 & Hm0 & Hfm0 & _). congruence.
    + intros i k j Hi.
      destruct (Hms k j) as (m & Hm & Hfm & Hk);
        [by eapply list_elem_of_lookup_2|].
      exists m. split; [done|]. split; [done|]. split; [done|].
      erewrite (write_ys_lookup _ _ i j).
      * rewrite assign_positions_writes. by apply write_ys_set_y.
      * by rewrite magic_writes_indices.
      * rewrite (magic_writes_lookup _ _ 0 _ _ i k j Hi). simpl.
        unfold magic_offset, magic_jitter. done.
Qed.

Lemma unfiltered_from_length j members v :
  unfiltered_from j members = Some v →
  length v = length (filter (λ m, filtered m = Some false) members).
Proof.
  revert j v. induction members as [|m members IH]; intros j v; simpl.
  - by intros [= <-].
  - destruct (filtered m) as [f|] eqn:Ef; [|done]. simpl.
    destruct (unfiltered_from (S j) members) as [v'|] eqn:Ev; [|done]. simpl.
    intros [= <-]. rewrite filter_cons, Ef. specialize (IH (S j) v' Ev).
    destruct f.
    + by rewrite decide_False by done.
    + rewrite decide_True by done. simpl. by rewrite IH.
Qed.

(** C5.  In magic mode the members are sorted by [id % 1000], members of
    equal key staying in their order of insertion, and a filtered member
    keeps the position [(i+1)/n] of its rank [i] in this sort.  The members
    that are not filtered are sorted again by [id % 1000], and the one at
    rank [i] (from 0) of [k] gets [offset + i * (1/k) + jitter], with one
    offset in [0, 1/k) for all of them and a jitter of its own of magnitude
    at most [1/(4k)]; without the jitter these positions are evenly spaced
    and strictly increasing.  The positions are read from the key "y", and
    no other key changes.  With no unfiltered member the second pass changes
    nothing and draws nothing. *)
Theorem orderMembers_magic (o : opts) (members : list member)
    (rnd : rand_state) :
  order_mode_of o = magic →
  Forall (λ m, is_Some (filtered m)) members →
  rand_ok rnd →
  let n := length members in
  let position (i : nat) : Q :=
    (inject_Z (Z.of_nat i + 1) / inject_Z (Z.of_nat n))%Q in
  ∃ ordered ms members' rnd',
    members_ordered magic members = Some ordered ∧
    sorted fst <$> unfiltered_from 0 members = Some ms ∧
    orderMembers o members rnd = Some (members', rnd') ∧
    ordered.*2 ≡ₚ seq 0 n ∧
    (∀ k j, (k, j) ∈ ordered →
            ∃ m, members !! j = Some m ∧ k = inject_Z (id m `mod` 1000)) ∧
    (∀ i i' k j k' j',
       (i < i')%nat →
       ordered !! i = Some (k, j) → ordered !! i' = Some (k', j') →
       (k < k')%Q ∨ ((k == k')%Q ∧ (j < j')%nat)) ∧
    (∀ j, j ∈ ms.*2 ↔ ∃ m, members !! j = Some m ∧ filtered m = Some false) ∧
    length ms = length (filter (λ m, filtered m = Some false) members) ∧
    (∀ i i' k j k' j',
       (i < i')%nat → ms !! i = Some (k, j) → ms !! i' = Some (k', j') →
       (k < k')%Q ∨ ((k == k')%Q ∧ (j < j')%nat)) ∧
    (∀ i k j m,
       ordered !! i = Some (k, j) → members !! j = Some m →
       filtered m = Some true →
       ∃ m', members' !! j = Some m' ∧ y m' = Some (position i) ∧
             same_but_y m m') ∧
    (∃ (offset : Q) (jitter : nat → Q),
       let dy := (1 / inject_Z (Z.of_nat (length ms)))%Q in
       (ms ≠ [] → (0 < dy)%Q ∧ (0 <= offset)%Q ∧ (offset < dy)%Q) ∧
       ∀ i k j, ms !! i = Some (k, j) →
         (- (dy / 4) <= jitter i)%Q ∧ (jitter i <= dy / 4)%Q ∧
         (∃ m m', members !! j = Some m ∧ k = inject_Z (id m `mod` 1000) ∧
                  members' !! j = Some m' ∧
                  y m' = Some (offset + inject_Z (Z.of_nat i) * dy
                               + jitter i)%Q ∧
                  same_but_y m m') ∧
         (∀ i', (i < i')%nat →
                (offset + inject_Z (Z.of_nat i) * dy
                 < offset + inject_Z (Z.of_nat i') * dy)%Q ∧
                (offset + inject_Z (Z.of_nat i') * dy
                 - (offset + inject_Z (Z.of_nat i) * dy)
                 == inject_Z (Z.of_nat (i' - i)) * dy)%Q)) ∧
    (ms = [] →
     rnd' = rnd ∧
     ∀ i k j, ordered !! i = Some (k, j) →
       ∃ m m', members !! j = Some m ∧ members' !! j = Some m' ∧
               y m' = Some (position i) ∧ same_but_y m m').
Proof.
  intros Hmode Hf Hrnd n position.
  destruct (orderMembers_magic_spec o members rnd Hmode Hf)
    as (ordered & v & members' & rnd' & Hord & Hv & Hrun & Hlen & Hnil
        & Hfilt & Hunf).
  destruct (primary_pass_spec magic members)
    as (ordered' & Hord' & Hperm & Hsorted & Hin & Hpos).
  { apply Forall_forall. intros; by eexists. }
  assert (ordered' = ordered) as -> by congruence.
  destruct (unfiltered_from_spec 0 members Hf) as (v' & Hv' & Hvs & Hvin).
  assert (v' = v) as -> by congruence.
  exists ordered, (sorted fst v), members', rnd'.
  split; [done|]. split; [by rewrite Hv|]. split; [done|].
  split; [done|]. split.
  { intros k j Hkj. destruct (Hin k j Hkj) as (m & Hm & [= <-]).
    by exists m. }
  split.
  { intros i i' k j k' j' Hlt Hi Hi'.
    apply (StronglySorted_lookup view_lt ordered i i' (k, j) (k', j')); done. }
  split.
  { intros j. split.
    - intros [[k j'] [Hj Hin']]%list_elem_of_fmap. simpl in Hj. subst j'.
      rewrite sorted_perm in Hin'.
      apply Hvin in Hin' as (m & _ & Hm & ? & _). rewrite Nat.sub_0_r in Hm.
      by exists m.
    - intros (m & Hm & Hfm). apply list_elem_of_fmap.
      exists (inject_Z (id m `mod` 1000), j). split; [done|].
      rewrite sorted_perm. apply Hvin. exists m.
      rewrite Nat.sub_0_r. split; [lia | done]. }
  split.
  { rewrite sorted_length. by eapply unfiltered_from_length. }
  split.
  { intros i i' k j k' j' Hlt Hi Hi'.
    apply (StronglySorted_lookup view_lt (sorted fst v) i i' (k, j) (k', j'));
      [by apply sorted_view | done..]. }
  split.
  { intros i k j m Hi Hm Hfm. eexists. split; [by eapply Hfilt|].
    apply set_y_reads. }
  split.
  2:{ intros Hms. destruct (Hnil Hms) as [-> ->]. split; [done|].
      intros i k j Hi. destruct (Hpos i k j Hi) as (m & Hm & Hm').
      exists m, (set_y (rank_position i (length members)) m).
      split; [done|]. split; [done|]. apply set_y_reads. }
  exists (magic_offset (length (sorted fst v)) rnd),
         (magic_jitter (length (sorted fst v)) rnd).
  simpl.
  assert (Hdy : sorted fst v ≠ [] →
            (0 < 1 / inject_Z (Z.of_nat (length (sorted fst v))))%Q).
  { intros Hne. apply slot_width_positive.
    destruct (sorted fst v); [done | simpl; lia]. }
  split.
  { intros Hne. split; [by apply Hdy|]. by apply float_mod_range, Hdy. }
  intros i k j Hi.
  assert (Hne : sorted fst v ≠ []) by (intros E; by rewrite E in Hi).
  specialize (Hdy Hne).
  destruct (uniform_value_range
              (1 / inject_Z (Z.of_nat (length (sorted fst v))))
              (draws rnd (consumed rnd + 1 + i)%nat) Hdy) as [Hlo Hhi];
    [apply Hrnd..|].
  split; [done|]. split; [unfold magic_jitter; lra|]. split.
  - destruct (Hunf i k j Hi) as (m & Hm & _ & Hk & Hm').
    exists m. eexists. split; [done|]. split; [done|]. split; [exact Hm'|].
    apply set_y_reads.
  - intros i' Hlt.
    assert (inject_Z (Z.of_nat i') ==
            inject_Z (Z.of_nat i) + inject_Z (Z.of_nat (i' - i)))%Q as Hi'.
    { rewrite <- inject_Z_plus. apply inject_Z_injective. lia. }
    assert (0 < inject_Z (Z.of_nat (i' - i)))%Q as Hpos'.
    { change 0%Q with (inject_Z 0). rewrite <- Zlt_Qlt. lia. }
    set (dy := (1 / inject_Z (Z.of_nat (length (sorted fst v))))%Q) in *.
    assert (0 < inject_Z (Z.of_nat (i' - i)) * dy)%Q
      by (by apply Qmult_lt_0_compat).
    rewrite Hi'. split; [nra | ring].
Qed.

(** Three members with the keys 1, 2 and 1, the second filtered.  The
    first sort puts the filtered member last, at rank 2, and it is read
    back at 3/3. *)
Lemma orderMembers_magic_witness :
  ∃ members' rnd' m2,
    orderMembers (example_opts 3 magic)
      [enriched_member 3001 5 false; enriched_member 2 (215 # 100) true;
       enriched_member 1 5 false] (constant_rnd (9 # 10))
    = Some (members', rnd') ∧
    members' !! 1%nat = Some m2 ∧
    y m2 = Some (inject_Z 3 / inject_Z 3)%Q.
Proof.
  destruct (orderMembers_magic (example_opts 3 magic)
      [enriched_member 3001 5 false; enriched_member 2 (215 # 100) true;
       enriched_member 1 5 false] (constant_rnd (9 # 10)))
    as (ordered & ms & ms' & rnd' & Hord & _ & Hrun & _ & _ & _ & _ & _ & _
        & Hfilt & _).
  - reflexivity.
  - repeat constructor; by eexists.
  - rnd_ok.
  - injection Hord as <-.
    destruct (Hfilt 2%nat (inject_Z (2 `mod` 1000)) 1%nat
                (enriched_member 2 (215 # 100) true))
      as (m2 & Hm2 & Hy & _); [reflexivity..|].
    by exists ms', rnd', m2.
Defined.

(** ** The range of the positions *)

(** C9, counterexample.  One unfiltered member, every draw 0.9: the offset
    is 0.9, the jitter 0.2 and the position 1.1. *)
Lemma magic_position_above_one :
  ∃ m' rnd' v,
    orderMembers (example_opts 3 magic) [enriched_member 1 5 false]
                 (constant_rnd (9 # 10)) = Some ([m'], rnd') ∧
    y m' = Some v ∧ ¬ (v <= 1)%Q.
Proof.
  eexists _, _, _. split; [vm_compute; reflexivity|].
  split; [reflexivity|]. intros H. apply H. reflexivity.
Qed.

Lemma index_in_view (ordered : view) n j :
  ordered.*2 ≡ₚ seq 0 n → (j < n)%nat → ∃ i k, ordered !! i = Some (k, j).
Proof.
  intros Hperm Hj.
  assert (j ∈ ordered.*2) as Hin.
  { rewrite Hperm. apply elem_of_seq. lia. }
  apply list_elem_of_fmap in Hin as [[k j'] [Hj' Hin]]. simpl in Hj'. subst j'.
  apply list_elem_of_lookup_1 in Hin as [i Hi]. by exists i, k.
Qed.

(** C9, amended.  In every mode but magic each position lies in (0, 1], and
    so does in magic mode the position of a filtered member.  In magic mode
    the position of a member that is not filtered lies in
    [-1/(4k), 1 + 1/(4k)), where [k] is the number of such members. *)
Theorem rank_position_bounds (o : opts) (members : list member)
    (rnd : rand_state) :
  Forall (λ m, is_Some (progress_exact m) ∧ is_Some (filtered m)) members →
  rand_ok rnd →
  ∃ members' rnd',
    orderMembers o members rnd = Some (members', rnd') ∧
    Forall2 (λ m m',
      ∃ v, y m' = Some v ∧
           (order_mode_of o ≠ magic ∨ filtered m = Some true →
            (0 < v)%Q ∧ (v <= 1)%Q) ∧
           (order_mode_of o = magic → filtered m = Some false →
            let dy := (1 / inject_Z (Z.of_nat (length
                         (filter (λ m, filtered m = Some false) members))))%Q in
            (- (dy / 4) <= v)%Q ∧ (v < 1 + dy / 4)%Q))
      members members'.
Proof.
  intros Hen Hrnd.
  assert (Hpe : Forall (λ m, is_Some (progress_exact m)) members)
    by (eapply Forall_impl; [exact Hen | by intros ? [? ?]]).
  assert (Hf : Forall (λ m, is_Some (filtered m)) members)
    by (eapply Forall_impl; [exact Hen | by intros ? [? ?]]).
  destruct (primary_pass_spec (order_mode_of o) members)
    as (ordered & Hord & Hperm & _ & _ & Hpos).
  { by apply order_func_is_Some. }
  assert (Hrank : ∀ i k j, ordered !! i = Some (k, j) →
            (0 < rank_position i (length members))%Q ∧
            (rank_position i (length members) <= 1)%Q).
  { intros i k j Hi. apply rank_position_range.
    apply lookup_lt_Some in Hi. apply Permutation_length in Hperm.
    rewrite length_fmap, length_seq in Hperm. lia. }
  destruct (decide (order_mode_of o = magic)) as [Hmode|Hmode].
  - destruct (orderMembers_magic_spec o members rnd Hmode Hf)
      as (ordered' & v & members' & rnd' & Hord' & Hv & Hrun & Hlen & _
          & Hfilt & Hunf).
    rewrite Hmode in Hord. assert (ordered' = ordered) as -> by congruence.
    destruct (unfiltered_from_spec 0 members Hf) as (v' & Hv' & _ & Hvin).
    assert (v' = v) as -> by congruence.
    exists members', rnd'. split; [done|].
    apply Forall2_same_length_lookup. split; [done|].
    intros j m m' Hm Hm'.
    destruct (index_in_view ordered (length members) j Hperm)
      as (i & k & Hi); [by eapply lookup_lt_Some|].
    rewrite Forall_forall in Hf.
    destruct (Hf m) as [[|] Hfm]; [by eapply list_elem_of_lookup_2| |].
    + rewrite (Hfilt i k j m Hi Hm Hfm) in Hm'. injection Hm' as <-.
      eexists. split; [done|]. split; [|congruence].
      intros _. by eapply Hrank.
    + assert ((inject_Z (id m `mod` 1000), j) ∈ sorted fst v) as Hin.
      { rewrite sorted_perm. apply Hvin. exists m. rewrite Nat.sub_0_r.
        split; [lia | done]. }
      apply list_elem_of_lookup_1 in Hin as [r Hr].
      destruct (Hunf r _ j Hr) as (m0 & Hm0 & _ & _ & Hy).
      assert (m0 = m) as -> by congruence.
      rewrite Hy in Hm'. injection Hm' as <-.
      eexists. split; [done|]. split; [intros [?|?]; congruence|].
      intros _ _. simpl.
      rewrite <- (unfiltered_from_length 0 members v Hv).
      rewrite <- (sorted_length fst v).
      set (n := length (sorted fst v)) in *.
      assert (r < n)%nat as Hlt by (by eapply lookup_lt_Some).
      assert (0 < 1 / inject_Z (Z.of_nat n))%Q as Hdy
        by (apply slot_width_positive; lia).
      destruct (float_mod_range (draws rnd (consumed rnd))
                  (1 / inject_Z (Z.of_nat n)) Hdy) as [Ho1 Ho2].
      destruct (uniform_value_range (1 / inject_Z (Z.of_nat n))
                  (draws rnd (consumed rnd + 1 + r)%nat) Hdy) as [Hj1 Hj2];
        [apply Hrnd..|].
      unfold magic_offset, magic_jitter.
      set (dy := (1 / inject_Z (Z.of_nat n))%Q) in *.
      assert (inject_Z (Z.of_nat n) * dy == 1)%Q as Hn.
      { unfold dy. field. change 0%Q with (inject_Z 0).
        rewrite inject_Z_injective. lia. }
      assert (inject_Z (Z.of_nat n) ==
              inject_Z (Z.of_nat r) + inject_Z (Z.of_nat (n - r)))%Q as Hsplit.
      { rewrite <- inject_Z_plus. apply inject_Z_injective. lia. }
      assert (1 <= inject_Z (Z.of_nat (n - r)))%Q as Hge.
      { change 1%Q with (inject_Z 1). rewrite <- Zle_Qle. lia. }
      assert (0 <= inject_Z (Z.of_nat r))%Q as Hr0.
      { change 0%Q with (inject_Z 0). rewrite <- Zle_Qle. lia. }
      rewrite Hsplit in Hn.
      assert (0 <= inject_Z (Z.of_nat r) * dy)%Q
        by (apply Qmult_le_0_compat; lra).
      assert (0 <= (inject_Z (Z.of_nat (n - r)) - 1) * dy)%Q
        by (apply Qmult_le_0_compat; lra).
      unfold Qdiv in *. change (/ 4)%Q with (1 # 4)%Q in *.
      split; lra.
  - exists (assign_positions ordered members), rnd. split.
    { unfold orderMembers. rewrite Hord. simpl.
      by destruct (order_mode_of o). }
    apply Forall2_same_length_lookup. split.
    { rewrite assign_positions_writes. by rewrite write_ys_length. }
    intros j m m' Hm Hm'.
    destruct (index_in_view ordered (length members) j Hperm)
      as (i & k & Hi); [by eapply lookup_lt_Some|].
    destruct (Hpos i k j Hi) as (m0 & Hm0 & Hy).
    assert (m0 = m) as -> by congruence.
    rewrite Hy in Hm'. injection Hm' as <-.
    eexists. split; [done|]. split; [|done].
    intros _. by eapply Hrank.
Qed.

Lemma rank_position_bounds_witness :
  ∃ members' rnd',
    orderMembers (example_opts 3 magic)
      [enriched_member 3001 5 false; enriched_member 2 (215 # 100) true;
       enriched_member 1 5 false] (constant_rnd (9 # 10))
    = Some (members', rnd').
Proof.
  destruct (rank_position_bounds (example_opts 3 magic)
      [enriched_member 3001 5 false; enriched_member 2 (215 # 100) true;
       enriched_member 1 5 false] (constant_rnd (9 # 10)))
    as (ms' & rnd' & H & _).
  - repeat constructor; by eexists.
  - rnd_ok.
  - by exists ms', rnd'.
Defined.

(** ** Two runs with different draws *)

Lemma member_result_agree o est m m1 m2 :
  member_result o est m m1 → member_result o est m m2 →
  ∃ p1 p2 pe f,
    m1 = set_progress p1 pe f m ∧ m2 = set_progress p2 pe f m ∧
    (never_fails o est (completion_day_level m) → p1 = pe ∧ p2 = pe) ∧
    (∀ d, first_failure o est (completion_day_level m) d →
       (d ≤ days_passed o → p1 = pe ∧ p2 = pe) ∧
       (days_passed o < d → pass1 o est (completion_day_level m) d = false →
          (- (15 # 100) <= p1 - pe)%Q ∧ (p1 - pe <= 15 # 100)%Q ∧
          (- (15 # 100) <= p2 - pe)%Q ∧ (p2 - pe <= 15 # 100)%Q) ∧
       (days_passed o < d → pass1 o est (completion_day_level m) d = true →
          (- (5 # 100) <= p1 - pe)%Q ∧ (p1 - pe <= 5 # 100)%Q ∧
          (- (5 # 100) <= p2 - pe)%Q ∧ (p2 - pe <= 5 # 100)%Q)).
Proof.
  intros (fa & fa' & H1) (fb & fb' & H2).
  destruct H1 as [(Hnf1 & _ & ->)|(d1 & n1 & p1 & pe1 & f1 & Hff1 & _ & _ & -> & F1)];
  destruct H2 as [(Hnf2 & _ & ->)|(d2 & n2 & p2 & pe2 & f2 & Hff2 & _ & _ & -> & F2)].
  - eexists _, _, _, _. split; [done|]. split; [done|]. split; [done|].
    intros d (Hr & Hf & _). rewrite Hnf1 in Hf; done.
  - destruct Hff2 as (Hr & Hf & _). rewrite Hnf1 in Hf; done.
  - destruct Hff1 as (Hr & Hf & _). rewrite Hnf2 in Hf; done.
  - assert (d2 = d1) as -> by (by eapply first_failure_unique).
    destruct F1 as (A1 & B1 & C1 & D1). destruct F2 as (A2 & B2 & C2 & D2).
    assert (pe2 = pe1 ∧ f2 = f1) as [-> ->].
    { destruct (pass1 o est (completion_day_level m) d1);
        destruct (decide (d1 ≤ days_passed o)).
      - destruct C1 as (-> & -> & _); [done..|].
        by destruct C2 as (-> & -> & _).
      - destruct D1 as (-> & -> & _); [done | lia|].
        by destruct D2 as (-> & -> & _); [done | lia|].
      - destruct A1 as (-> & -> & _); [done..|].
        by destruct A2 as (-> & -> & _).
      - destruct B1 as (-> & -> & _); [done | lia|].
        by destruct B2 as (-> & -> & _); [done | lia|]. }
    exists p1, p2, pe1, f1. split; [done|]. split; [done|]. split.
    + intros Hnf. destruct Hff1 as (Hr & Hf & _). rewrite Hnf in Hf; done.
    + intros d Hd.
      assert (d = d1) as -> by (by eapply first_failure_unique).
      split; [|split].
      * intros Hle. destruct (pass1 o est (completion_day_level m) d1).
        -- destruct C1 as (_ & _ & ->); [done..|].
           by destruct C2 as (_ & _ & ->).
        -- destruct A1 as (_ & _ & ->); [done..|].
           by destruct A2 as (_ & _ & ->).
      * intros Hlt Hp. destruct (B1 Hp Hlt) as (_ & _ & ? & ?).
        by destruct (B2 Hp Hlt) as (_ & _ & ? & ?).
      * intros Hlt Hp. destruct (D1 Hp Hlt) as (_ & _ & ? & ?).
        by destruct (D2 Hp Hlt) as (_ & _ & ? & ?).
Qed.

(** The position written for each member, in every mode. *)
Lemma orderMembers_position_of o members rnd :
  Forall (λ m, is_Some (progress_exact m) ∧ is_Some (filtered m)) members →
  ∃ ordered v members' rnd',
    members_ordered (order_mode_of o) members = Some ordered ∧
    unfiltered_from 0 members = Some v ∧
    orderMembers o members rnd = Some (members', rnd') ∧
    ∀ j m, members !! j = Some m →
      (order_mode_of o ≠ magic ∨ filtered m = Some true →
         ∃ i k, ordered !! i = Some (k, j) ∧
                members' !! j =
                  Some (set_y (rank_position i (length members)) m)) ∧
      (order_mode_of o = magic → filtered m = Some false →
         ∃ i k, sorted fst v !! i = Some (k, j) ∧
                members' !! j =
                  Some (set_y
                    (magic_offset (length (sorted fst v)) rnd
                     + inject_Z (Z.of_nat i)
                       * (1 / inject_Z (Z.of_nat (length (sorted fst v))))
                     + magic_jitter (length (sorted fst v)) rnd i)%Q m)).
Proof.
  intros Hen.
  assert (Hpe : Forall (λ m, is_Some (progress_exact m)) members)
    by (eapply Forall_impl; [exact Hen | by intros ? [? ?]]).
  assert (Hf : Forall (λ m, is_Some (filtered m)) members)
    by (eapply Forall_impl; [exact Hen | by intros ? [? ?]]).
  destruct (primary_pass_spec (order_mode_of o) members)
    as (ordered & Hord & Hperm & _ & _ & Hpos).
  { by apply order_func_is_Some. }
  destruct (unfiltered_from_spec 0 members Hf) as (v & Hv & _ & Hvin).
  exists ordered, v.
  destruct (decide (order_mode_of o = magic)) as [Hmode|Hmode].
  - destruct (orderMembers_magic_spec o members rnd Hmode Hf)
      as (ordered' & v' & members' & rnd' & Hord' & Hv' & Hrun & Hlen & _
          & Hfilt & Hunf).
    rewrite Hmode in Hord. assert (ordered' = ordered) as -> by congruence.
    assert (v' = v) as -> by congruence.
    exists members', rnd'. rewrite Hmode. split; [done|]. split; [done|].
    split; [done|]. intros j m Hm.
    destruct (index_in_view ordered (length members) j Hperm)
      as (i & k & Hi); [by eapply lookup_lt_Some|].
    split.
    + intros [?|Hfm]; [done|]. exists i, k. split; [done|].
      by apply (Hfilt i k j m).
    + intros _ Hfm.
      assert ((inject_Z (id m `mod` 1000), j) ∈ sorted fst v) as Hin.
      { rewrite sorted_perm. apply Hvin. exists m. rewrite Nat.sub_0_r.
        split; [lia | done]. }
      apply list_elem_of_lookup_1 in Hin as [r Hr].
      destruct (Hunf r _ j Hr) as (m0 & Hm0 & _ & _ & Hy).
      assert (m0 = m) as -> by congruence. by eexists r, _.
  - exists (assign_positions ordered members), rnd.
    split; [done|]. split; [done|]. split.
    { unfold orderMembers. rewrite Hord. simpl.
      by destruct (order_mode_of o). }
    intros j m Hm. split; [|done]. intros _.
    destruct (index_in_view ordered (length members) j Hperm)
      as (i & k & Hi); [by eapply lookup_lt_Some|].
    destruct (Hpos i k j Hi) as (m0 & Hm0 & Hy).
    assert (m0 = m) as -> by congruence. by exists i, k.
Qed.

(** C8, counterexample.  With one unfiltered member the slot width is 1.
    When every draw is 0.9 the position is 1.1; when every draw is 0.1 it is
    -0.1.  The two positions are further apart than two quarters of the
    slot. *)
Lemma magic_positions_beyond_jitter :
  ∃ m1 m2 end1 end2 y1 y2,
    rand_ok (constant_rnd (9 # 10)) ∧ rand_ok (constant_rnd (1 # 10)) ∧
    orderMembers (example_opts 3 magic) [enriched_member 1 5 false]
                 (constant_rnd (9 # 10)) = Some ([m1], end1) ∧
    orderMembers (example_opts 3 magic) [enriched_member 1 5 false]
                 (constant_rnd (1 # 10)) = Some ([m2], end2) ∧
    y m1 = Some y1 ∧ y m2 = Some y2 ∧
    ¬ (y1 - y2 <= 2 * ((1 / 1) / 4))%Q.
Proof.
  eexists _, _, _, _, _, _.
  split; [rnd_ok|]. split; [rnd_ok|].
  split; [vm_compute; reflexivity|]. split; [vm_compute; reflexivity|].
  split; [reflexivity|]. split; [reflexivity|].
  intros H. apply H. reflexivity.
Qed.

Lemma member_result_enriched o est m m' :
  member_result o est m m' →
  is_Some (progress_exact m') ∧ is_Some (filtered m').
Proof.
  intros (fa & fb & [(_ & _ & ->)|(d & n & p & pe & f & _ & _ & _ & -> & _)]);
    split; by eexists.
Qed.

(** C8, amended.  Two runs on the same input with different draws return
    the same tally, give every member the same [progress_exact] and
    [filtered], and sort the members in the same order.  [progress] differs
    only for a first failing day after [days_passed], and then lies within
    0.15 (part 1) or 0.05 (part 2) of [progress_exact] in both runs.  The
    positions differ only in magic mode and only for the members that are
    not filtered.  These [k] members have the same ranks [0 .. k-1] in both
    runs, each rank taken once, and each run has one offset in [0, 1/k) for
    all of them: the member of rank [i] is at [offset + i/k + jitter] with
    the offset of the run and a jitter of its own of magnitude at most
    [1/(4k)]. *)
Theorem two_runs_agree (o : opts) (event_start_time : Q)
    (members : list member) (rnd1 rnd2 : rand_state) :
  1 ≤ day_min o → rand_ok rnd1 → rand_ok rnd2 →
  ∃ ms1 ms2 fbd mid1 mid2 ordered unf out1 out2 end1 end2 (off1 off2 : Q),
    getMemberProgress o event_start_time members rnd1 = Some (ms1, fbd, mid1) ∧
    getMemberProgress o event_start_time members rnd2 = Some (ms2, fbd, mid2) ∧
    members_ordered (order_mode_of o) ms1 = Some ordered ∧
    members_ordered (order_mode_of o) ms2 = Some ordered ∧
    orderMembers o ms1 mid1 = Some (out1, end1) ∧
    orderMembers o ms2 mid2 = Some (out2, end2) ∧
    sorted fst <$> unfiltered_from 0 ms1 = Some unf ∧
    sorted fst <$> unfiltered_from 0 ms2 = Some unf ∧
    length unf = length (filter (λ m, filtered m = Some false) ms1) ∧
    NoDup unf.*2 ∧
    let dy := (1 / inject_Z (Z.of_nat (length unf)))%Q in
    (unf ≠ [] →
     (0 < dy)%Q ∧
     (0 <= off1)%Q ∧ (off1 < dy)%Q ∧ (0 <= off2)%Q ∧ (off2 < dy)%Q) ∧
    ∀ j m, members !! j = Some m →
      ∃ m1 m2 p1 p2 pe f y1 y2,
        out1 !! j = Some m1 ∧ out2 !! j = Some m2 ∧
        progress_exact m1 = Some pe ∧ progress_exact m2 = Some pe ∧
        filtered m1 = Some f ∧ filtered m2 = Some f ∧
        progress m1 = Some p1 ∧ progress m2 = Some p2 ∧
        y m1 = Some y1 ∧ y m2 = Some y2 ∧
        (never_fails o event_start_time (completion_day_level m) →
           p1 = pe ∧ p2 = pe) ∧
        (∀ d, first_failure o event_start_time (completion_day_level m) d →
           (d ≤ days_passed o → p1 = pe ∧ p2 = pe) ∧
           (days_passed o < d →
            pass1 o event_start_time (completion_day_level m) d = false →
              (- (15 # 100) <= p1 - pe)%Q ∧ (p1 - pe <= 15 # 100)%Q ∧
              (- (15 # 100) <= p2 - pe)%Q ∧ (p2 - pe <= 15 # 100)%Q) ∧
           (days_passed o < d →
            pass1 o event_start_time (completion_day_level m) d = true →
              (- (5 # 100) <= p1 - pe)%Q ∧ (p1 - pe <= 5 # 100)%Q ∧
              (- (5 # 100) <= p2 - pe)%Q ∧ (p2 - pe <= 5 # 100)%Q)) ∧
        (order_mode_of o ≠ magic ∨ f = true → y1 = y2) ∧
        (order_mode_of o = magic → f = false →
           ∃ (i : nat) (k u1 u2 : Q),
             unf !! i = Some (k, j) ∧
             (- (dy / 4) <= u1)%Q ∧ (u1 <= dy / 4)%Q ∧
             (- (dy / 4) <= u2)%Q ∧ (u2 <= dy / 4)%Q ∧
             y1 = (off1 + inject_Z (Z.of_nat i) * dy + u1)%Q ∧
             y2 = (off2 + inject_Z (Z.of_nat i) * dy + u2)%Q).
Proof.
  intros Hmin Hrnd1 Hrnd2.
  destruct (getMemberProgress_spec o event_start_time members rnd1 Hmin Hrnd1)
    as (ms1 & fbd1 & mid1 & Hrun1 & Hall1 & Htal1 & Hdr1).
  destruct (getMemberProgress_spec o event_start_time members rnd2 Hmin Hrnd2)
    as (ms2 & fbd2 & mid2 & Hrun2 & Hall2 & Htal2 & Hdr2).
  assert (fbd2 = fbd1) as ->.
  { apply map_eq. intros d. by rewrite Htal1, Htal2. }
  assert (Hmid1 : rand_ok mid1) by (by apply (rand_ok_draws rnd1)).
  assert (Hmid2 : rand_ok mid2) by (by apply (rand_ok_draws rnd2)).
  assert (Hen1 : Forall (λ m, is_Some (progress_exact m) ∧ is_Some (filtered m))
                        ms1).
  { apply Forall_forall. intros m1 [j Hj]%list_elem_of_lookup_1.
    destruct (Forall2_lookup_r _ _ _ _ _ Hall1 Hj) as (m & _ & Hres).
    by eapply member_result_enriched. }
  assert (Hen2 : Forall (λ m, is_Some (progress_exact m) ∧ is_Some (filtered m))
                        ms2).
  { apply Forall_forall. intros m2 [j Hj]%list_elem_of_lookup_1.
    destruct (Forall2_lookup_r _ _ _ _ _ Hall2 Hj) as (m & _ & Hres).
    by eapply member_result_enriched. }
  assert (Hagree : ∀ j m, members !! j = Some m →
            ∃ m1 m2, ms1 !! j = Some m1 ∧ ms2 !! j = Some m2 ∧
                     member_result o event_start_time m m1 ∧
                     member_result o event_start_time m m2).
  { intros j m Hm.
    destruct (Forall2_lookup_l _ _ _ _ _ Hall1 Hm) as (m1 & Hm1 & Hr1).
    destruct (Forall2_lookup_l _ _ _ _ _ Hall2 Hm) as (m2 & Hm2 & Hr2).
    by exists m1, m2. }
  assert (Hlen1 : length ms1 = length members)
    by (symmetry; by eapply Forall2_length).
  assert (Hlen2 : length ms2 = length members)
    by (symmetry; by eapply Forall2_length).
  assert (Hsame : Forall2 (λ m1 m2, ∃ m p1 p2 pe f,
                     m1 = set_progress p1 pe f m ∧ m2 = set_progress p2 pe f m)
                          ms1 ms2).
  { apply Forall2_same_length_lookup. split; [congruence|].
    intros j m1 m2 Hm1 Hm2.
    destruct (Forall2_lookup_r _ _ _ _ _ Hall1 Hm1) as (m & Hm & _).
    destruct (Hagree j m Hm) as (m1' & m2' & Hm1' & Hm2' & Hr1 & Hr2).
    assert (m1' = m1) as -> by congruence.
    assert (m2' = m2) as -> by congruence.
    destruct (member_result_agree _ _ _ _ _ Hr1 Hr2)
      as (p1 & p2 & pe & f & -> & -> & _).
    by exists m, p1, p2, pe, f. }
  destruct (orderMembers_position_of o ms1 mid1 Hen1)
    as (ordered & v & out1 & end1 & Hord1 & Hv1 & Hout1 & Hpos1).
  destruct (orderMembers_position_of o ms2 mid2 Hen2)
    as (ordered2 & v2 & out2 & end2 & Hord2 & Hv2 & Hout2 & Hpos2).
  assert (ordered2 = ordered) as ->.
  { assert (members_ordered (order_mode_of o) ms1
            = members_ordered (order_mode_of o) ms2) as E; [|congruence].
    unfold members_ordered.
    rewrite (keyed_from_ext (order_func (order_mode_of o))
               (order_func (order_mode_of o)) 0 ms1 ms2); [done|].
    eapply Forall2_impl; [exact Hsame|].
    intros m1 m2 (m & p1 & p2 & pe & f & -> & ->).
    by destruct (order_mode_of o). }
  assert (v2 = v) as ->.
  { assert (unfiltered_from 0 ms1 = unfiltered_from 0 ms2) as E; [|congruence].
    apply unfiltered_from_ext. eapply Forall2_impl; [exact Hsame|].
    by intros m1 m2 (m & p1 & p2 & pe & f & -> & ->). }
  assert (Hnd : NoDup (sorted fst v).*2).
  { rewrite sorted_perm.
    destruct (unfiltered_from_spec 0 ms1) as (v' & Hv' & Hvs & _).
    { eapply Forall_impl; [exact Hen1 | by intros ? [? ?]]. }
    assert (v' = v) as -> by congruence. by apply index_sorted_NoDup. }
  set (n := length (sorted fst v)).
  exists ms1, ms2, fbd1, mid1, mid2, ordered, (sorted fst v),
         out1, out2, end1, end2, (magic_offset n mid1), (magic_offset n mid2).
  do 6 (split; [done|]).
  split; [by rewrite Hv1|]. split; [by rewrite Hv2|].
  split; [rewrite sorted_length; by eapply unfiltered_from_length|].
  split; [done|]. fold n. cbv zeta. split.
  { intros Hne.
    assert (0 < 1 / inject_Z (Z.of_nat n))%Q as Hdy.
    { apply slot_width_positive. unfold n.
      destruct (sorted fst v); [done | simpl; lia]. }
    split; [done|]. unfold magic_offset.
    destruct (float_mod_range (draws mid1 (consumed mid1))
                (1 / inject_Z (Z.of_nat n)) Hdy) as [Ho1 Ho1'].
    destruct (float_mod_range (draws mid2 (consumed mid2))
                (1 / inject_Z (Z.of_nat n)) Hdy) as [Ho2 Ho2'].
    done. }
  intros j m Hm.
  destruct (Hagree j m Hm) as (m1 & m2 & Hm1 & Hm2 & Hr1 & Hr2).
  destruct (member_result_agree _ _ _ _ _ Hr1 Hr2)
    as (p1 & p2 & pe & f & -> & -> & Hnever & Hfail).
  destruct (Hpos1 j _ Hm1) as [Hp1 Hq1]. destruct (Hpos2 j _ Hm2) as [Hp2 Hq2].
  simpl in Hp1, Hq1, Hp2, Hq2.
  destruct (decide (order_mode_of o ≠ magic ∨ f = true)) as [Hcase|Hcase].
  - destruct Hp1 as (i1 & k1 & Hi1 & Hy1);
      [destruct Hcase as [?| ->]; [by left | by right]|].
    destruct Hp2 as (i2 & k2 & Hi2 & Hy2);
      [destruct Hcase as [?| ->]; [by left | by right]|].
    assert (i2 = i1) as ->.
    { destruct (primary_pass_spec (order_mode_of o) ms1)
        as (ordered' & Hord' & Hperm & Hsorted & _).
      { apply order_func_is_Some. intros _.
        eapply Forall_impl; [exact Hen1 | by intros ? [? ?]]. }
      assert (ordered' = ordered) as -> by congruence.
      assert (NoDup ordered.*2) as Hndo by (rewrite Hperm; apply NoDup_seq).
      apply (NoDup_lookup _ _ _ j Hndo);
        by rewrite list_lookup_fmap, ?Hi1, ?Hi2. }
    eexists _, _, p1, p2, pe, f, _, _.
    split; [exact Hy1|]. split; [exact Hy2|]. simpl.
    do 8 (split; [done|]). split; [done|]. split; [done|].
    split; [by rewrite Hlen1, Hlen2|].
    intros Hmagic ->. destruct Hcase as [?|?]; done.
  - assert (order_mode_of o = magic ∧ f = false) as [Hmagic ->].
    { split.
      - destruct (decide (order_mode_of o = magic)) as [|Hn]; [done|].
        exfalso. apply Hcase. by left.
      - destruct f; [|done]. exfalso. apply Hcase. by right. }
    destruct Hq1 as (i1 & k1 & Hi1 & Hy1); [done..|].
    destruct Hq2 as (i2 & k2 & Hi2 & Hy2); [done..|].
    assert (i2 = i1) as ->.
    { apply (NoDup_lookup _ _ _ j Hnd);
        by rewrite list_lookup_fmap, ?Hi1, ?Hi2. }
    eexists _, _, p1, p2, pe, false, _, _.
    split; [exact Hy1|]. split; [exact Hy2|]. simpl.
    do 8 (split; [done|]). split; [done|]. split; [done|].
    split; [intros [?|?]; done|].
    intros _ _.
    assert (i1 < n)%nat as Hlt by (by eapply lookup_lt_Some).
    assert (0 < 1 / inject_Z (Z.of_nat n))%Q as Hdy
      by (apply slot_width_positive; lia).
    destruct (uniform_value_range (1 / inject_Z (Z.of_nat n))
                (draws mid1 (consumed mid1 + 1 + i1)%nat) Hdy) as [Hj1 Hj1'];
      [apply Hmid1..|].
    destruct (uniform_value_range (1 / inject_Z (Z.of_nat n))
                (draws mid2 (consumed mid2 + 1 + i1)%nat) Hdy) as [Hj2 Hj2'];
      [apply Hmid2..|].
    exists i1, k1, (magic_jitter n mid1 i1), (magic_jitter n mid2 i1).
    unfold magic_offset, magic_jitter.
    split; [done|]. split; [done|]. split; [lra|]. split; [done|].
    split; [lra|]. done.
Qed.

Lemma two_runs_agree_witness :
  ∃ ms1 ms2 fbd mid1 mid2,
    getMemberProgress (example_opts 1 magic) 0
      [example_member 3001 completion_A; example_member 2 completion_B;
       example_member 1003 ∅] (constant_rnd (9 # 10))
    = Some (ms1, fbd, mid1) ∧
    getMemberProgress (example_opts 1 magic) 0
      [example_member 3001 completion_A; example_member 2 completion_B;
       example_member 1003 ∅] (constant_rnd (1 # 10))
    = Some (ms2, fbd, mid2).
Proof.
  destruct (two_runs_agree (example_opts 1 magic) 0
      [example_member 3001 completion_A; example_member 2 completion_B;
       example_member 1003 ∅] (constant_rnd (9 # 10)) (constant_rnd (1 # 10)))
    as (ms1 & ms2 & fbd & mid1 & mid2 & _ & _ & _ & _ & _ & _ & _ & _
        & H1 & H2 & _).
  - reflexivity.
  - rnd_ok.
  - rnd_ok.
  - by exists ms1, ms2, fbd, mid1, mid2.
Defined.

(** * Further properties *)

(** ** The closed form of getMemberProgress *)

Lemma member_result_exact o est m m' :
  member_result o est m m' →
  ∃ p, m' = set_progress p (exact_outcome o est (completion_day_level m)).1
                           (exact_outcome o est (completion_day_level m)).2 m.
Proof.
  intros (fa & fb & [(Hnf & _ & ->)|(d & n & p & pe & f & Hff & _ & _ & -> & F)]).
  - apply fail_day_None in Hnf. unfold exact_outcome. rewrite Hnf. by eexists.
  - pose proof Hff as Hfd. apply fail_day_Some in Hfd.
    unfold exact_outcome. rewrite Hfd.
    destruct F as (A & B & C & D). exists p.
    destruct (pass1 o est (completion_day_level m) d); case_bool_decide.
    + by destruct C as (-> & -> & _).
    + by destruct D as (-> & -> & _); [|lia|].
    + by destruct A as (-> & -> & _).
    + by destruct B as (-> & -> & _); [|lia|].
Qed.

Lemma eliminated_on_same_completion o est d ms1 ms2 :
  Forall2 (λ a b, completion_day_level a = completion_day_level b) ms1 ms2 →
  eliminated_on o est d ms1 = eliminated_on o est d ms2.
Proof.
  induction 1 as [|a b ms1 ms2 Hab _ IH]; [done|].
  by rewrite !eliminated_on_cons, Hab, IH.
Qed.

(** ** The order of the elimination points *)

(** X1.  [progress_exact] grows with the point of elimination: a member who
    fails on an earlier day, or on the same day at part 1 instead of part 2,
    has the smaller value; every member who fails has a smaller value than
    one who never fails; members eliminated at the same point have the same
    value. *)
Theorem progress_exact_orders_eliminations (o : opts) (event_start_time : Q)
    (members : list member) (rnd : rand_state) :
  1 ≤ day_min o → rand_ok rnd →
  ∃ ms fbd rnd',
    getMemberProgress o event_start_time members rnd = Some (ms, fbd, rnd') ∧
    ∀ j1 j2 m1 m2 a b,
      members !! j1 = Some m1 → members !! j2 = Some m2 →
      ms !! j1 = Some a → ms !! j2 = Some b →
      ∃ pa pb,
        progress_exact a = Some pa ∧ progress_exact b = Some pb ∧
        (∀ d1 d2,
           first_failure o event_start_time (completion_day_level m1) d1 →
           first_failure o event_start_time (completion_day_level m2) d2 →
           d1 < d2 → (pa < pb)%Q) ∧
        (∀ d,
           first_failure o event_start_time (completion_day_level m1) d →
           first_failure o event_start_time (completion_day_level m2) d →
           pass1 o event_start_time (completion_day_level m1) d = false →
           pass1 o event_start_time (completion_day_level m2) d = true →
           (pa < pb)%Q) ∧
        (∀ d,
           first_failure o event_start_time (completion_day_level m1) d →
           never_fails o event_start_time (completion_day_level m2) →
           (pa < pb)%Q) ∧
        (∀ d,
           first_failure o event_start_time (completion_day_level m1) d →
           first_failure o event_start_time (completion_day_level m2) d →
           pass1 o event_start_time (completion_day_level m1) d
           = pass1 o event_start_time (completion_day_level m2) d →
           pa = pb) ∧
        (never_fails o event_start_time (completion_day_level m1) →
         never_fails o event_start_time (completion_day_level m2) →
         pa = pb).
Proof.
  intros Hmin Hrnd.
  destruct (getMemberProgress_spec o event_start_time members rnd Hmin Hrnd)
    as (ms & fbd & rnd' & Hrun & Hall & _).
  exists ms, fbd, rnd'. split; [done|].
  intros j1 j2 m1 m2 a b Hm1 Hm2 Ha Hb.
  destruct (Forall2_lookup_l _ _ _ _ _ Hall Hm1) as (a' & Ha' & Hra).
  destruct (Forall2_lookup_l _ _ _ _ _ Hall Hm2) as (b' & Hb' & Hrb).
  assert (a' = a) as -> by congruence. assert (b' = b) as -> by congruence.
  destruct (member_result_exact _ _ _ _ Hra) as [p1 ->].
  destruct (member_result_exact _ _ _ _ Hrb) as [p2 ->].
  eexists _, _. split; [done|]. split; [done|]. simpl.
  unfold exact_outcome, DELTA.
  assert (Hinj : ∀ x y : Z, x < y → (inject_Z x + 1 <= inject_Z y)%Q).
  { intros x y Hxy. change 1%Q with (inject_Z 1).
    rewrite <- inject_Z_plus, <- Zle_Qle. lia. }
  split; [|split; [|split; [|split]]].
  - intros d1 d2 H1 H2 Hlt.
    pose proof (Hinj d1 d2 Hlt).
    apply fail_day_Some in H1, H2. rewrite H1, H2.
    destruct (pass1 o event_start_time (completion_day_level m1) d1),
             (pass1 o event_start_time (completion_day_level m2) d2);
      repeat case_bool_decide; simpl; lra.
  - intros d H1 H2 Hp1 Hp2.
    apply fail_day_Some in H1, H2. rewrite H1, H2, Hp1, Hp2.
    case_bool_decide; simpl; lra.
  - intros d H1 H2. pose proof H1 as ([_ Hd] & _).
    assert (inject_Z d <= inject_Z (days_total o))%Q by (by rewrite <- Zle_Qle).
    assert (inject_Z (days_total o + 2) == inject_Z (days_total o) + 2)%Q
      by (rewrite inject_Z_plus; reflexivity).
    apply fail_day_Some in H1. apply fail_day_None in H2. rewrite H1, H2.
    destruct (pass1 o event_start_time (completion_day_level m1) d);
      case_bool_decide; simpl; lra.
  - intros d H1 H2 Hp.
    apply fail_day_Some in H1, H2. by rewrite H1, H2, Hp.
  - intros H1 H2. apply fail_day_None in H1, H2. by rewrite H1, H2.
Qed.

Lemma progress_exact_orders_eliminations_witness :
  ∃ ms fbd rnd',
    getMemberProgress (example_opts 1 id1000) 0
      [example_member 1 completion_A; example_member 2 completion_B;
       example_member 3 ∅] (constant_rnd (9 # 10))
    = Some (ms, fbd, rnd').
Proof.
  destruct (progress_exact_orders_eliminations (example_opts 1 id1000) 0
      [example_member 1 completion_A; example_member 2 completion_B;
       example_member 3 ∅] (constant_rnd (9 # 10)))
    as (ms & fbd & rnd' & H & _); [reflexivity | rnd_ok |].
  by exists ms, fbd, rnd'.
Defined.

(** ** Running getMemberProgress again *)

(** X2.  [getMemberProgress] reads no field that it writes: run again on its
    own result, with any draws, it returns the same tally and gives every
    member the same [progress_exact] and [filtered]. *)
Theorem getMemberProgress_again (o : opts) (event_start_time : Q)
    (members : list member) (rnd1 rnd2 : rand_state) :
  1 ≤ day_min o → rand_ok rnd1 → rand_ok rnd2 →
  ∃ ms1 ms2 fbd end1 end2,
    getMemberProgress o event_start_time members rnd1
      = Some (ms1, fbd, end1) ∧
    getMemberProgress o event_start_time ms1 rnd2 = Some (ms2, fbd, end2) ∧
    Forall2 (λ a b,
      progress_exact b = progress_exact a ∧ filtered b = filtered a ∧
      is_Some (progress_exact a) ∧ is_Some (filtered a) ∧
      id b = id a ∧ global_score b = global_score a ∧
      local_score b = local_score a ∧ stars b = stars a ∧
      completion_day_level b = completion_day_level a ∧ y b = y a)
      ms1 ms2.
Proof.
  intros Hmin Hrnd1 Hrnd2.
  destruct (getMemberProgress_spec o event_start_time members rnd1 Hmin Hrnd1)
    as (ms1 & fbd1 & end1 & Hrun1 & Hall1 & Htal1 & _).
  destruct (getMemberProgress_spec o event_start_time ms1 rnd2 Hmin Hrnd2)
    as (ms2 & fbd2 & end2 & Hrun2 & Hall2 & Htal2 & _).
  assert (Hcd : Forall2 (λ a b, completion_day_level a = completion_day_level b)
                        ms1 members).
  { apply Forall2_flip. eapply Forall2_impl; [exact Hall1|].
    intros m a Hr. by destruct (member_result_exact _ _ _ _ Hr) as [p ->]. }
  assert (fbd2 = fbd1) as ->.
  { apply map_eq. intros d. rewrite Htal1, Htal2.
    by rewrite (eliminated_on_same_completion _ _ _ _ _ Hcd). }
  exists ms1, ms2, fbd1, end1, end2. split; [done|]. split; [done|].
  apply Forall2_same_length_lookup. split; [by eapply Forall2_length|].
  intros j a b Ha Hb.
  destruct (Forall2_lookup_r _ _ _ _ _ Hall1 Ha) as (m & _ & Hra).
  destruct (Forall2_lookup_l _ _ _ _ _ Hall2 Ha) as (b' & Hb' & Hrb).
  assert (b' = b) as -> by congruence.
  destruct (member_result_exact _ _ _ _ Hra) as [p1 ->].
  destruct (member_result_exact _ _ _ _ Hrb) as [p2 ->].
  simpl. repeat split; by eexists.
Qed.

Lemma getMemberProgress_again_witness :
  ∃ ms1 ms2 fbd end1 end2,
    getMemberProgress (example_opts 1 id1000) 0
      [example_member 1 completion_A; example_member 2 completion_B;
       example_member 3 ∅] (constant_rnd (9 # 10))
    = Some (ms1, fbd, end1) ∧
    getMemberProgress (example_opts 1 id1000) 0 ms1 (constant_rnd (1 # 10))
    = Some (ms2, fbd, end2).
Proof.
  destruct (getMemberProgress_again (example_opts 1 id1000) 0
      [example_member 1 completion_A; example_member 2 completion_B;
       example_member 3 ∅] (constant_rnd (9 # 10)) (constant_rnd (1 # 10)))
    as (ms1 & ms2 & fbd & end1 & end2 & H1 & H2 & _);
    [reflexivity | rnd_ok | rnd_ok |].
  by exists ms1, ms2, fbd, end1, end2.
Defined.

(** ** When getMemberProgress raises *)

Lemma scan_days_range o est cd fbd rnd :
  scan_days o est cd (range (day_min o) (days_total o + 1)) fbd rnd =
  match fail_day o est cd with
  | None => Some (inject_Z (days_total o + 2), inject_Z (days_total o + 2),
                  false, fbd, rnd)
  | Some d => scan_days o est cd [d] fbd rnd
  end.
Proof.
  destruct (fail_day o est cd) as [d|] eqn:E.
  - apply fail_day_Some in E. by apply scan_days_first_failure.
  - apply fail_day_None in E. by apply scan_days_never_fails.
Qed.

Lemma scan_days_single_tally o est cd d fbd rnd :
  passes_day o est cd d = false →
  match fbd !! d with
  | None => scan_days o est cd [d] fbd rnd = None
  | Some n => ∃ p pe f rnd',
      scan_days o est cd [d] fbd rnd = Some (p, pe, f, <[d := n + 1]> fbd, rnd')
  end.
Proof.
  intros Hfail. unfold passes_day in Hfail. simpl. unfold incr_day.
  destruct (fbd !! d) as [n|]; simpl.
  - destruct (pass1 o est cd d); simpl.
    + simpl in Hfail. rewrite Hfail. simpl.
      case_bool_decide; [by eexists _, _, _, _|].
      destruct (randDelta (5 # 100) rnd). by eexists _, _, _, _.
    + case_bool_decide; [by eexists _, _, _, _|].
      destruct (randDelta (15 # 100) rnd). by eexists _, _, _, _.
  - destruct (pass1 o est cd d); simpl; [|done].
    simpl in Hfail. by rewrite Hfail.
Qed.

Lemma member_progress_tally o est m fbd rnd :
  match fail_day o est (completion_day_level m) with
  | None => ∃ m', member_progress o est m fbd rnd = Some (m', fbd, rnd)
  | Some d =>
      match fbd !! d with
      | None => member_progress o est m fbd rnd = None
      | Some n => ∃ m' rnd',
          member_progress o est m fbd rnd = Some (m', <[d := n + 1]> fbd, rnd')
      end
  end.
Proof.
  unfold member_progress. rewrite scan_days_range.
  destruct (fail_day o est (completion_day_level m)) as [d|] eqn:E.
  - apply fail_day_Some in E as (_ & Hf & _).
    pose proof (scan_days_single_tally o est _ d fbd rnd Hf) as H.
    destruct (fbd !! d) as [n|].
    + destruct H as (p & pe & f & rnd' & ->). simpl. by eexists _, _.
    + by rewrite H.
  - simpl. by eexists.
Qed.

Lemma members_progress_raises o est members fbd rnd :
  (∀ d, is_Some (fbd !! d) ↔ 1 ≤ d ≤ days_total o) →
  members_progress o est members fbd rnd = None ↔
  Exists (λ m, ∃ d, first_failure o est (completion_day_level m) d ∧ d < 1)
         members.
Proof.
  revert fbd rnd. induction members as [|m members IH]; intros fbd rnd Hdom.
  - simpl. split; [done | by intros ?%Exists_nil].
  - simpl. rewrite Exists_cons.
    pose proof (member_progress_tally o est m fbd rnd) as Hm.
    destruct (fail_day o est (completion_day_level m)) as [d|] eqn:E.
    + pose proof E as Hff. apply fail_day_Some in Hff.
      destruct (fbd !! d) as [n|] eqn:En.
      * destruct Hm as (m' & rnd' & ->). simpl.
        assert (1 ≤ d ≤ days_total o) as Hd by (apply Hdom; by eexists).
        specialize (IH (<[d := n + 1]> fbd) rnd').
        destruct (members_progress o est members (<[d := n + 1]> fbd) rnd')
          as [[[ms' fbd'] rnd'']|] eqn:Er; simpl.
        -- split; [done|]. intros [(d' & Hd' & Hlt)|Hex].
           ++ assert (d' = d) as -> by (by eapply first_failure_unique). lia.
           ++ apply IH in Hex; [done|]. intros d'.
              destruct (decide (d = d')) as [<-|Hne].
              ** rewrite lookup_insert_eq. split; [done | by eexists].
              ** rewrite lookup_insert_ne by done. apply Hdom.
        -- split; [|done]. intros _. right. apply IH; [|done]. intros d'.
           destruct (decide (d = d')) as [<-|Hne].
           ++ rewrite lookup_insert_eq. split; [done | by eexists].
           ++ rewrite lookup_insert_ne by done. apply Hdom.
      * rewrite Hm. simpl. split; [|done]. intros _. left. exists d.
        split; [done|].
        destruct (decide (d < 1)) as [|Hge]; [done|]. exfalso.
        destruct Hff as ([_ Hle] & _).
        assert (is_Some (fbd !! d)) as [? ?] by (apply Hdom; lia). congruence.
    + destruct Hm as (m' & ->). simpl.
      specialize (IH fbd rnd Hdom).
      destruct (members_progress o est members fbd rnd)
        as [[[ms' fbd'] rnd'']|] eqn:Er; simpl.
      * split; [done|]. intros [(d' & Hd' & _)|Hex].
        -- apply fail_day_Some in Hd'. congruence.
        -- by apply IH in Hex.
      * split; [|done]. intros _. right. by apply IH.
Qed.

(** X3.  When every timestamp is an integer that a double holds,
    [getMemberProgress(members, event)] raises in two cases only: line 190
    raises, [event] is not a year that [int()] and [datetime] accept; or
    some member has its first failing day before day 1, a day without entry
    in [filtered_by_day].  The second case needs [day_min < 1]. *)
Theorem getMemberProgress_raises (timestamp : string → option Q) (o : opts)
    (event : string) (members : list member) (rnd : rand_state) :
  Forall (λ m, stamps_in_range (completion_day_level m)) members →
  (getMemberProgress_event timestamp o event members rnd = None ↔
   timestamp event = None ∨
   ∃ event_start_time,
     timestamp event = Some event_start_time ∧
     Exists (λ m, ∃ d, first_failure o event_start_time
                         (completion_day_level m) d ∧ d < 1) members) ∧
  (getMemberProgress_event timestamp o event members rnd = None →
   timestamp event = None ∨ day_min o < 1).
Proof.
  intros _.
  assert (H : ∀ est, getMemberProgress o est members rnd = None ↔
    Exists (λ m, ∃ d, first_failure o est
                        (completion_day_level m) d ∧ d < 1) members).
  { intros est. unfold getMemberProgress. apply members_progress_raises.
    intros d. rewrite lookup_init_filtered_by_day.
    case_decide; split; intros Hx; first [done | by eexists | by destruct Hx]. }
  unfold getMemberProgress_event.
  destruct (timestamp event) as [est|]; simpl.
  - split.
    + rewrite H. split.
      * intros Hex. right. by exists est.
      * intros [?|(est' & [= <-] & Hex)]; done.
    + intros Hnone. right. apply H in Hnone. apply Exists_exists in Hnone
        as (m & _ & d & ([Hd _] & _) & Hlt). lia.
  - split; [|by left]. split; [by left | done].
Qed.

Lemma getMemberProgress_raises_witness :
  (getMemberProgress_event example_timestamp
     {| day_min := 0; days_total := 3; days_passed := 3;
        order_mode_of := id1000; time_limit := Unbounded |}
     "2022" [example_member 3 completion_B] (constant_rnd (9 # 10)) = None ∧
   day_min {| day_min := 0; days_total := 3; days_passed := 3;
              order_mode_of := id1000; time_limit := Unbounded |} < 1) ∧
  getMemberProgress_event example_timestamp (example_opts 3 id1000)
    "MMXXII" [example_member 3 completion_B] (constant_rnd (9 # 10)) = None.
Proof.
  assert (Hstamps : Forall (λ m, stamps_in_range (completion_day_level m))
                           [example_member 3 completion_B]).
  { repeat constructor. apply (bool_decide_unpack _). vm_compute. exact I. }
  split.
  - assert (Hnone : getMemberProgress_event example_timestamp
              {| day_min := 0; days_total := 3; days_passed := 3;
                 order_mode_of := id1000; time_limit := Unbounded |}
              "2022" [example_member 3 completion_B] (constant_rnd (9 # 10))
              = None) by (vm_compute; reflexivity).
    split; [done|].
    destruct (proj2 (getMemberProgress_raises example_timestamp _ _ _ _
                       Hstamps) Hnone) as [Hts|Hmin]; [|done].
    vm_compute in Hts. discriminate Hts.
  - apply (proj1 (getMemberProgress_raises example_timestamp
                    (example_opts 3 id1000) "MMXXII"
                    [example_member 3 completion_B] (constant_rnd (9 # 10))
                    Hstamps)).
    left. vm_compute. reflexivity.
Defined.

(** ** The survival table counts the members still in *)

Lemma Zsum_indicator_present (d : Z) (days : list Z) :
  NoDup days → d ∈ days →
  Zsum ((λ i, if decide (Some d = Some i) then 1 else 0) <$> days) = 1.
Proof.
  induction 1 as [|i days Hi Hnd IH]; intros Hin.
  - by apply elem_of_nil in Hin.
  - rewrite fmap_cons. simpl. destruct (decide (Some d = Some i)) as [[= ->]|Hne].
    + rewrite Zsum_indicator_absent; [done|]. intros d' Hd' [= ->]. done.
    + apply elem_of_cons in Hin as [->|Hin]; [done|]. by rewrite IH.
Qed.

Lemma eliminated_and_remaining o est d members :
  1 ≤ day_min o →
  Zsum ((λ i, eliminated_on o est i members) <$> range 1 (d + 1))
  + remaining_count o est d members = Z.of_nat (length members).
Proof.
  intros Hmin. induction members as [|m members IH].
  - unfold remaining_count. simpl.
    assert (∀ l : list Z, Zsum ((λ i, eliminated_on o est i []) <$> l) = 0)
      as ->; [|done].
    induction l as [|i l IHl]; [done|]. rewrite fmap_cons. simpl. by rewrite IHl.
  - rewrite (list_fmap_ext (λ i, eliminated_on o est i (m :: members))
               (λ i, (if decide (fail_day o est (completion_day_level m) = Some i)
                      then 1 else 0) + eliminated_on o est i members))
      by (intros; apply eliminated_on_cons).
    rewrite (Zsum_fmap_add
               (λ i, if decide (fail_day o est (completion_day_level m) = Some i)
                     then 1 else 0)
               (λ i, eliminated_on o est i members)).
    unfold remaining_count in *. rewrite filter_cons.
    destruct (fail_day o est (completion_day_level m)) as [d'|] eqn:E.
    + pose proof E as Hff. apply fail_day_Some in Hff as ([Hd' _] & _).
      assert (still_in o est d m = bool_decide (d < d')) as ->
        by (unfold still_in; by rewrite E).
      destruct (decide (d < d')) as [Hlt|Hge].
      * rewrite Zsum_indicator_absent
          by (intros i Hi%elem_of_range [= ->]; lia).
        rewrite bool_decide_true, decide_True by done. simpl length. lia.
      * rewrite Zsum_indicator_present
          by (apply NoDup_range || (apply elem_of_range; lia)).
        rewrite bool_decide_false, decide_False by done. simpl length. lia.
    + assert (still_in o est d m = true) as ->
        by (unfold still_in; by rewrite E).
      rewrite Zsum_indicator_absent by done.
      rewrite decide_True by done. simpl length. lia.
Qed.

(** X4.  After [getMemberProgress], the entry of [remaining_by_day] for day
    [d] is the number of members whose first failing day, if they have one,
    comes after [d]; the entry of the last day is the number of members who
    never fail. *)
Theorem remaining_by_day_counts_members (o : opts) (event_start_time : Q)
    (members : list member) (rnd : rand_state) :
  1 ≤ day_min o → rand_ok rnd →
  ∃ ms fbd rnd' rbd,
    getMemberProgress o event_start_time members rnd = Some (ms, fbd, rnd') ∧
    remaining_table o (length ms) fbd = Some rbd ∧
    (∀ d, 0 ≤ d ≤ days_total o →
          rbd !! d = Some (remaining_count o event_start_time d members)) ∧
    (∀ m d, still_in o event_start_time d m = true ↔
            (never_fails o event_start_time (completion_day_level m) ∨
             ∃ d', first_failure o event_start_time
                     (completion_day_level m) d' ∧ d < d')) ∧
    (0 ≤ days_total o →
     rbd !! days_total o =
       Some (Z.of_nat (length (filter
         (λ m, fail_day o event_start_time (completion_day_level m) = None)
         members)))) ∧
    (∀ m, fail_day o event_start_time (completion_day_level m) = None ↔
          never_fails o event_start_time (completion_day_level m)).
Proof.
  intros Hmin Hrnd.
  destruct (getMemberProgress_spec o event_start_time members rnd Hmin Hrnd)
    as (ms & fbd & rnd' & Hrun & Hall & Htal & _).
  destruct (remaining_table_spec o (length ms) fbd) as (rbd & Hrbd & Hlook).
  { intros d Hd. rewrite Htal, decide_True by done. by eexists. }
  assert (Hlen : length ms = length members)
    by (symmetry; by eapply Forall2_length).
  assert (Hcount : ∀ d, 0 ≤ d ≤ days_total o →
            rbd !! d = Some (remaining_count o event_start_time d members)).
  { intros d Hd. rewrite Hlook, decide_True by lia. f_equal.
    unfold filtered_upto.
    rewrite (list_fmap_ext (tally_at fbd)
               (λ i, eliminated_on o event_start_time i members)).
    - pose proof (eliminated_and_remaining o event_start_time d members Hmin).
      lia.
    - intros i x Hi. apply list_elem_of_lookup_2, elem_of_range in Hi.
      unfold tally_at. by rewrite Htal, decide_True by lia. }
  exists ms, fbd, rnd', rbd. split; [done|]. split; [done|]. split; [done|].
  split; [|split; [|intros m; apply fail_day_None]].
  - intros m d. unfold still_in.
    destruct (fail_day o event_start_time (completion_day_level m)) as [d'|] eqn:E.
    + rewrite bool_decide_eq_true. split.
      * intros Hlt. right. exists d'. split; [by apply fail_day_Some | done].
      * intros [Hnf|(d'' & Hd'' & Hlt)].
        -- apply fail_day_None in Hnf. congruence.
        -- apply fail_day_Some in Hd''. congruence.
    + split; [|done]. intros _. left. by apply fail_day_None.
  - intros HT. rewrite Hcount by lia. unfold remaining_count.
    do 3 f_equal. apply list_filter_iff. intros m. unfold still_in.
    destruct (fail_day o event_start_time (completion_day_level m)) as [d'|] eqn:E.
    + apply fail_day_Some in E as ([_ Hle] & _).
      rewrite bool_decide_eq_true. split; [lia | done].
    + done.
Qed.

Lemma remaining_by_day_counts_members_witness :
  ∃ ms fbd rnd' rbd,
    getMemberProgress (example_opts 1 id1000) 0
      [example_member 1 completion_A; example_member 2 completion_B;
       example_member 3 ∅] (constant_rnd (9 # 10))
    = Some (ms, fbd, rnd') ∧
    remaining_table (example_opts 1 id1000) (length ms) fbd = Some rbd ∧
    rbd !! 3 = Some 1.
Proof.
  destruct (remaining_by_day_counts_members (example_opts 1 id1000) 0
      [example_member 1 completion_A; example_member 2 completion_B;
       example_member 3 ∅] (constant_rnd (9 # 10)))
    as (ms & fbd & rnd' & rbd & H1 & H2 & H3 & _); [reflexivity | rnd_ok |].
  exists ms, fbd, rnd', rbd. split; [done|]. split; [done|].
  rewrite (H3 3); [reflexivity | done].
Defined.

(** ** The printed percentages *)

Lemma plotStats_rows o members fbd :
  days_passed o ≤ days_total o →
  (∀ d, 1 ≤ d ≤ days_total o → ∃ c, fbd !! d = Some c ∧ 0 ≤ c) →
  filtered_upto fbd (days_total o) ≤ Z.of_nat (length members) →
  ∃ rbd rows,
    plotStats o members fbd = Some (rbd, rows) ∧
    (∀ d, rbd !! d =
          if decide (0 ≤ d ≤ Z.max 0 (days_total o))
          then Some (Z.of_nat (length members) - filtered_upto fbd d)
          else None) ∧
    (∀ d d', 0 ≤ d ≤ d' → d' ≤ days_total o →
             0 ≤ filtered_upto fbd d ≤ filtered_upto fbd d') ∧
    row_day <$> rows =
      filter (λ d, rbd !! (d - 1) ≠ Some 0) (range 1 (days_passed o + 1)) ∧
    Forall (stat_row_ok rbd) rows.
Proof.
  intros Hpassed Htally Htotal.
  assert (Hdom : ∀ d, 1 ≤ d ≤ days_total o → is_Some (fbd !! d)).
  { intros d Hd. destruct (Htally d Hd) as (c & -> & _). by eexists. }
  assert (Hnn : ∀ d, 1 ≤ d ≤ days_total o → 0 ≤ tally_at fbd d).
  { intros d Hd. destruct (Htally d Hd) as (c & Hc & ?).
    unfold tally_at. by rewrite Hc. }
  assert (Hmono : ∀ d d', 0 ≤ d ≤ d' → d' ≤ days_total o →
            0 ≤ filtered_upto fbd d ≤ filtered_upto fbd d').
  { intros d d' Hd Hd'. apply filtered_upto_mono; [|done].
    intros i Hi. apply Hnn. lia. }
  destruct (remaining_table_spec o (length members) fbd Hdom)
    as (rbd & Hrbd & Hlook).
  assert (H0 : rbd !! 0 = Some (Z.of_nat (length members))).
  { rewrite Hlook, decide_True by lia. rewrite filtered_upto_0. f_equal. lia. }
  destruct (stats_loop_spec rbd (range 1 (days_passed o + 1))
              (Z.of_nat (length members)) H0)
    as (rows & Hrows & Hdays & Hok).
  { intros i Hi%elem_of_range. rewrite !Hlook, !decide_True by lia.
    split; by eexists. }
  { intros i Hi%elem_of_range Hnz Hzero. apply Hnz.
    rewrite Hlook, decide_True by lia. f_equal.
    pose proof (Hmono (i - 1) (days_total o)). lia. }
  exists rbd, rows. unfold plotStats. rewrite Hrbd. simpl. rewrite Hrows.
  done.
Qed.

(** X5.  Every line that [plotStats] prints is for a day in
    [1 .. days_passed], counts no negative number of eliminated members and
    has its pass fraction in [0, 1] and both its percentages in
    [0, 100]. *)
Theorem plotStats_percentages (o : opts) (members : list member)
    (filtered_by_day : gmap Z Z) :
  days_passed o ≤ days_total o →
  (∀ d, 1 ≤ d ≤ days_total o →
        ∃ c, filtered_by_day !! d = Some c ∧ 0 ≤ c) →
  filtered_upto filtered_by_day (days_total o) ≤ Z.of_nat (length members) →
  ∃ rbd rows,
    plotStats o members filtered_by_day = Some (rbd, rows) ∧
    Forall (λ row,
      1 ≤ row_day row ≤ days_passed o ∧
      0 ≤ row_eliminated row ∧
      (0 <= pass_frac row)%Q ∧ (pass_frac row <= 1)%Q ∧
      (0 <= percent_filtered row)%Q ∧ (percent_filtered row <= 100)%Q ∧
      (0 <= percent_total row)%Q ∧ (percent_total row <= 100)%Q) rows.
Proof.
  intros Hpassed Htally Htotal.
  destruct (plotStats_rows o members filtered_by_day Hpassed Htally Htotal)
    as (rbd & rows & Hrun & Hlook & Hmono & Hdays & Hok).
  exists rbd, rows. split; [done|].
  apply Forall_forall. intros row Hrow.
  assert (Hday : 1 ≤ row_day row ≤ days_passed o).
  { assert (row_day row ∈ row_day <$> rows) as Hin
      by (apply list_elem_of_fmap; by exists row).
    rewrite Hdays in Hin. apply list_elem_of_filter in Hin as [_ Hin].
    apply elem_of_range in Hin. lia. }
  rewrite Forall_forall in Hok.
  destruct (Hok row Hrow)
    as (prev & cur & first & Hprev & Hcur & Hfirst & Hnz & Helim & Hpf & Hperc
        & Htot).
  rewrite Hlook, decide_True in Hprev by lia.
  rewrite Hlook, decide_True in Hcur by lia.
  rewrite Hlook, decide_True in Hfirst by lia.
  rewrite filtered_upto_0 in Hfirst.
  injection Hprev as Hprev. injection Hcur as Hcur. injection Hfirst as Hfirst.
  pose proof (Hmono (row_day row - 1) (row_day row)) as M1.
  pose proof (Hmono (row_day row) (days_total o)) as M2.
  assert (0 < prev ∧ 0 ≤ cur ≤ prev ∧ prev ≤ first) as (Hp & Hc & Hf) by lia.
  assert (0 < inject_Z prev)%Q as Qp
    by (change 0%Q with (inject_Z 0); by rewrite <- Zlt_Qlt).
  assert (0 < inject_Z first)%Q as Qf
    by (change 0%Q with (inject_Z 0); rewrite <- Zlt_Qlt; lia).
  assert (0 <= inject_Z cur)%Q as Qc
    by (change 0%Q with (inject_Z 0); rewrite <- Zle_Qle; lia).
  assert (inject_Z cur <= inject_Z prev)%Q as Qcp by (rewrite <- Zle_Qle; lia).
  assert (inject_Z cur <= inject_Z first)%Q as Qcf by (rewrite <- Zle_Qle; lia).
  assert (0 <= inject_Z cur / inject_Z prev)%Q as F0.
  { apply Qle_shift_div_l; [done|]. lra. }
  assert (inject_Z cur / inject_Z prev <= 1)%Q as F1.
  { apply Qle_shift_div_r; [done|]. lra. }
  assert (0 <= inject_Z cur / inject_Z first)%Q as T0.
  { apply Qle_shift_div_l; [done|]. lra. }
  assert (inject_Z cur / inject_Z first <= 1)%Q as T1.
  { apply Qle_shift_div_r; [done|]. lra. }
  split; [done|]. split; [lia|].
  rewrite Hperc, Htot, Hpf. repeat split; lra.
Qed.

Lemma plotStats_percentages_witness :
  ∃ rbd rows,
    plotStats (example_opts 3 id1000)
      [example_member 1 completion_A; example_member 2 completion_B;
       example_member 3 ∅]
      (<[1 := 1]> (<[2 := 1]> (<[3 := 0]> ∅))) = Some (rbd, rows).
Proof.
  destruct (plotStats_percentages (example_opts 3 id1000)
      [example_member 1 completion_A; example_member 2 completion_B;
       example_member 3 ∅]
      (<[1 := 1]> (<[2 := 1]> (<[3 := 0]> ∅))))
    as (rbd & rows & H & _).
  - reflexivity.
  - intros d Hd. simpl in Hd.
    assert (d = 1 ∨ d = 2 ∨ d = 3) as Hcases by lia.
    destruct Hcases as [Hc|[Hc|Hc]]; rewrite Hc;
      eexists; (split; [vm_compute; reflexivity | lia]).
  - vm_compute. discriminate.
  - by exists rbd, rows.
Defined.

(** ** What orderMembers needs and what it leaves alone *)

Lemma keyed_from_None f j members :
  keyed_from f j members = None ↔ Exists (λ m, f m = None) members.
Proof.
  revert j. induction members as [|m members IH]; intros j; simpl.
  - split; [done | by intros ?%Exists_nil].
  - rewrite Exists_cons. destruct (f m) as [k|]; simpl.
    + specialize (IH (S j)).
      destruct (keyed_from f (S j) members); simpl.
      * split; [done|]. intros [?|Hex]; [done|]. by apply IH in Hex.
      * split; [|done]. intros _. right. by apply IH.
    + split; [by left | done].
Qed.

Lemma unfiltered_from_None j members :
  unfiltered_from j members = None ↔ Exists (λ m, filtered m = None) members.
Proof.
  revert j. induction members as [|m members IH]; intros j; simpl.
  - split; [done | by intros ?%Exists_nil].
  - rewrite Exists_cons. destruct (filtered m) as [f|]; simpl.
    + specialize (IH (S j)).
      destruct (unfiltered_from (S j) members); simpl.
      * split; [done|]. intros [?|Hex]; [done|]. by apply IH in Hex.
      * split; [|done]. intros _. right. by apply IH.
    + split; [by left | done].
Qed.

Lemma magic_pass_None members rnd :
  magic_pass members rnd = None ↔ unfiltered_from 0 members = None.
Proof.
  destruct (unfiltered_from 0 members) as [v|] eqn:E.
  - by rewrite (magic_pass_eq members rnd v E).
  - unfold magic_pass. by rewrite E.
Qed.

(** X6.  [orderMembers] raises exactly when it sorts by progress and some
    member has no [progress_exact], or runs in magic mode and some member
    has no [filtered]; in the other modes it can run before
    [getMemberProgress]. *)
Theorem orderMembers_raises (o : opts) (members : list member)
    (rnd : rand_state) :
  orderMembers o members rnd = None ↔
  (order_mode_of o = by_progress ∧
   Exists (λ m, progress_exact m = None) members) ∨
  (order_mode_of o = magic ∧ Exists (λ m, filtered m = None) members).
Proof.
  unfold orderMembers, members_ordered.
  pose proof (keyed_from_None (order_func (order_mode_of o)) 0 members) as Hk.
  destruct (keyed_from (order_func (order_mode_of o)) 0 members) as [v|] eqn:Ev;
    simpl.
  - assert (Hnone : ¬ Exists (λ m, order_func (order_mode_of o) m = None)
                      members)
      by (intros Hex; by apply Hk in Hex).
    destruct (order_mode_of o) eqn:Emode;
      try (split; [done | by intros [[? _]|[? _]]]).
    + rewrite magic_pass_None.
      rewrite (unfiltered_from_ext 0 _ members)
        by (rewrite assign_positions_writes; apply write_ys_same_inputs).
      rewrite unfiltered_from_None. split; [by right|].
      by intros [[? _]|[_ ?]].
    + split; [done|]. intros [[_ Hex]|[? _]]; [|done]. exfalso. by apply Hnone.
  - assert (Hex : Exists (λ m, order_func (order_mode_of o) m = None) members)
      by (by apply Hk).
    split; [|done]. intros _.
    destruct (order_mode_of o) eqn:Emode;
      try (exfalso; apply Exists_exists in Hex as (m & _ & Hm); done).
    by left.
Qed.

Lemma write_ys_app w1 w2 members :
  write_ys (w1 ++ w2) members = write_ys w2 (write_ys w1 members).
Proof. unfold write_ys. apply foldl_app. Qed.

Lemma orderMembers_writes o members rnd members' rnd' :
  orderMembers o members rnd = Some (members', rnd') →
  (∃ w, members' = write_ys w members) ∧ draws rnd' = draws rnd ∧
  (order_mode_of o ≠ magic → rnd' = rnd).
Proof.
  unfold orderMembers.
  destruct (members_ordered (order_mode_of o) members) as [ordered|]; [|done].
  simpl. rewrite assign_positions_writes.
  destruct (order_mode_of o);
    try (intros [= <- <-]; split; [by eexists | done]).
  unfold magic_pass.
  destruct (unfiltered_from 0 _) as [v|]; [|done]. simpl.
  case_bool_decide.
  - unfold random_random. fold (enumerate_from 0 (sorted fst v)).
    unfold enumerate. rewrite magic_assign_writes.
    intros [= <- <-]. split; [|done].
    eexists (_ ++ _). by rewrite write_ys_app.
  - intros [= <- <-]. split; [by eexists | done].
Qed.

(** X7.  [orderMembers] writes the field [y] and nothing else: the members
    stay in place with every other field as it was, the draws still to come
    are the same, and outside magic mode no draw is consumed. *)
Theorem orderMembers_frame (o : opts) (members members' : list member)
    (rnd rnd' : rand_state) :
  orderMembers o members rnd = Some (members', rnd') →
  Forall2 (λ m m',
    id m' = id m ∧ global_score m' = global_score m ∧
    local_score m' = local_score m ∧ stars m' = stars m ∧
    completion_day_level m' = completion_day_level m ∧
    progress m' = progress m ∧ progress_exact m' = progress_exact m ∧
    filtered m' = filtered m) members members' ∧
  draws rnd' = draws rnd ∧
  (order_mode_of o ≠ magic → rnd' = rnd).
Proof.
  intros Hrun.
  destruct (orderMembers_writes o members rnd members' rnd' Hrun)
    as ([w ->] & Hdraws & Hsame).
  split; [|done].
  eapply Forall2_impl; [apply write_ys_fields|].
  by intros m m' [yv ->].
Qed.

Lemma orderMembers_frame_witness :
  draws (constant_rnd (9 # 10)) = draws (constant_rnd (9 # 10)).
Proof.
  apply (orderMembers_frame (example_opts 3 by_stars)
           [example_member 2 ∅; example_member 1 ∅]
           [set_y (1 # 2) (example_member 2 ∅);
            set_y (2 # 2) (example_member 1 ∅)]
           (constant_rnd (9 # 10)) (constant_rnd (9 # 10))).
  vm_compute. reflexivity.
Defined.

(** ** Dictionaries in insertion order *)

Lemma dict_get_set {V} (k k' : string) (v : V) (d : odict V) :
  dict_get k (dict_set k' v d) =
  if decide (k' = k) then Some v else dict_get k d.
Proof.
  induction d as [|[k0 v0] d IH]; simpl.
  - by destruct (decide (k' = k)).
  - destruct (decide (k0 = k')) as [->|Hne]; simpl.
    + by destruct (decide (k' = k)).
    + rewrite IH. destruct (decide (k0 = k)) as [->|?]; [|done].
      by rewrite decide_False by done.
Qed.

Lemma dict_get_app {V} (k : string) (d1 d2 : odict V) :
  dict_get k (d1 ++ d2) =
  match dict_get k d1 with Some v => Some v | None => dict_get k d2 end.
Proof.
  induction d1 as [|[k0 v0] d1 IH]; simpl; [done|].
  by destruct (decide (k0 = k)).
Qed.

Lemma dict_get_None {V} (k : string) (d : odict V) :
  dict_get k d = None ↔ k ∉ d.*1.
Proof.
  induction d as [|[k0 v0] d IH]; simpl.
  - split; [intros _ ?%elem_of_nil; done | done].
  - rewrite not_elem_of_cons. destruct (decide (k0 = k)) as [->|Hne].
    + split; [done | by intros [? _]].
    + rewrite IH. split; [by intros ? | by intros [_ ?]].
Qed.

Lemma dict_set_keys {V} (k : string) (v : V) (d : odict V) :
  (dict_set k v d).*1 = if decide (k ∈ d.*1) then d.*1 else d.*1 ++ [k].
Proof.
  induction d as [|[k0 v0] d IH]; [done|].
  cbn [dict_set]. destruct (decide (k0 = k)) as [->|Hne].
  - rewrite !fmap_cons. cbn [fst]. by rewrite decide_True by left.
  - rewrite !fmap_cons, IH. cbn [fst].
    destruct (decide (k ∈ d.*1)) as [Hin|Hnin].
    + by rewrite decide_True by (by right).
    + rewrite decide_False; [done|].
      intros [?|?]%elem_of_cons; [congruence | done].
Qed.

Lemma dict_set_NoDup {V} (k : string) (v : V) (d : odict V) :
  NoDup d.*1 → NoDup (dict_set k v d).*1.
Proof.
  intros Hnd. rewrite dict_set_keys. case_decide; [done|].
  apply NoDup_app. split; [done|]. split; [|apply NoDup_singleton].
  intros k' Hk' ->%list_elem_of_singleton. done.
Qed.

Lemma dict_update_NoDup {V} (d other : odict V) :
  NoDup d.*1 → NoDup (dict_update d other).*1.
Proof.
  revert d. induction other as [|[k v] other IH]; intros d Hnd; [done|].
  unfold dict_update in *. simpl. apply IH. by apply dict_set_NoDup.
Qed.

Lemma dict_get_update {V} (k : string) (d other : odict V) :
  dict_get k (dict_update d other) =
  match dict_get k (reverse other) with
  | Some v => Some v
  | None => dict_get k d
  end.
Proof.
  revert d. induction other as [|[k0 v0] other IH]; intros d; [done|].
  unfold dict_update in *. simpl. rewrite IH, reverse_cons, dict_get_app.
  destruct (dict_get k (reverse other)); [done|].
  rewrite dict_get_set. simpl. by destruct (decide (k0 = k)).
Qed.

Lemma keep_starred_filter (members : odict member) :
  NoDup members.*1 →
  keep_starred members = filter (λ kv, stars kv.2 ≠ 0) members.
Proof.
  unfold keep_starred.
  assert (H : ∀ acc : odict member,
            NoDup members.*1 → (∀ k, k ∈ members.*1 → k ∉ acc.*1) →
            foldl (λ fm kv, if bool_decide (stars kv.2 ≠ 0)
                            then dict_set kv.1 kv.2 fm else fm) acc members
            = acc ++ filter (λ kv, stars kv.2 ≠ 0) members).
  { induction members as [|[k m] members IH]; intros acc Hnd Hdis.
    - by rewrite app_nil_r.
    - rewrite fmap_cons in Hnd. apply NoDup_cons in Hnd as [Hk Hnd].
      simpl. rewrite filter_cons. simpl.
      assert (dict_set k m acc = acc ++ [(k, m)]) as Hset.
      { assert (k ∉ acc.*1) as Hacc by (apply Hdis; left).
        clear -Hacc. induction acc as [|[k0 v0] acc IHa]; [done|].
        simpl. apply not_elem_of_cons in Hacc as [Hne Hacc].
        rewrite decide_False by done. by rewrite IHa. }
      destruct (decide (stars m ≠ 0)) as [Hs|Hs].
      + rewrite bool_decide_true by done. rewrite IH; [|done|].
        * by rewrite Hset, <- app_assoc.
        * intros k' Hk'. rewrite Hset, fmap_app, elem_of_app.
          intros [Hin|Hin%list_elem_of_singleton].
          -- revert Hin. apply Hdis. by right.
          -- simpl in Hin. subst k'. done.
      + rewrite bool_decide_false by done. apply IH; [done|].
        intros k' Hk'. apply Hdis. by right. }
  intros Hnd. rewrite H; [done | done |]. intros k _ Hk.
  by apply elem_of_nil in Hk.
Qed.

Lemma dict_get_filter {V} (P : string * V → Prop) `{∀ x, Decision (P x)}
    (k : string) (d : odict V) :
  NoDup d.*1 →
  dict_get k (filter P d) =
  match dict_get k d with
  | Some v => if decide (P (k, v)) then Some v else None
  | None => None
  end.
Proof.
  induction d as [|[k0 v0] d IH]; intros Hnd; [done|].
  rewrite fmap_cons in Hnd. apply NoDup_cons in Hnd as [Hk0 Hnd].
  rewrite filter_cons. simpl. destruct (decide (k0 = k)) as [->|Hne].
  - destruct (decide (P (k, v0))); simpl.
    + by rewrite decide_True.
    + rewrite IH by done.
      assert (dict_get k d = None) as -> by (by apply dict_get_None). done.
  - destruct (decide (P (k0, v0))); simpl.
    + rewrite decide_False by done. by apply IH.
    + by apply IH.
Qed.

Lemma filter_keys_NoDup {V} (P : string * V → Prop) `{∀ x, Decision (P x)}
    (d : odict V) :
  NoDup d.*1 → NoDup (filter P d).*1.
Proof.
  induction d as [|[k0 v0] d IH]; intros Hnd; [done|].
  rewrite fmap_cons in Hnd. apply NoDup_cons in Hnd as [Hk0 Hnd].
  rewrite filter_cons. destruct (decide (P (k0, v0))); [|by apply IH].
  rewrite fmap_cons. apply NoDup_cons. split; [|by apply IH].
  intros [[k v] [Hk Hin]]%list_elem_of_fmap. simpl in Hk. subst k.
  apply list_elem_of_filter in Hin as [_ Hin]. apply Hk0.
  apply list_elem_of_fmap. by exists (k0, v).
Qed.

(** ** readData *)

Section ReadDataFacts.

Variable load : string → option file_data.

Lemma read_files_spec input_filenames members data :
  match read_files load input_filenames members data with
  | None => Exists (unreadable load) input_filenames
  | Some (members', data') =>
      Forall (λ f, ¬ unreadable load f) input_filenames ∧
      data' = match last input_filenames with
              | Some f => load f
              | None => data
              end ∧
      members' = dict_update members (all_records load input_filenames)
  end.
Proof.
  revert members data.
  induction input_filenames as [|f rest IH]; intros members data; simpl.
  - done.
  - destruct (load f) as [d|] eqn:Ef; simpl; [|left; unfold unreadable; by rewrite Ef].
    destruct (data_members d) as [ms|] eqn:Ems; simpl;
      [|left; unfold unreadable; by rewrite Ef].
    specialize (IH (dict_update members ms) (Some d)).
    destruct (read_files load rest (dict_update members ms) (Some d))
      as [[members' data']|]; [|by right].
    destruct IH as (Hall & -> & ->). split; [|split].
    + constructor; [|done]. unfold unreadable. rewrite Ef. simpl. by rewrite Ems.
    + rewrite last_cons. destruct (last rest); [done | by rewrite Ef].
    + unfold all_records. simpl. unfold loaded_members at 2.
      rewrite Ef. simpl. rewrite Ems. simpl.
      unfold dict_update. by rewrite foldl_app.
Qed.

End ReadDataFacts.

(** X8.  [readData] raises exactly when one of the files cannot be read or
    has no "members", or when the last file has no "event", which includes
    the case of no file at all; when it returns, the event is that of the
    last file. *)
Theorem readData_raises (load : string → option file_data)
    (input_filenames : list string) :
  (readData load input_filenames = None ↔
   Exists (unreadable load) input_filenames ∨
   last_event load input_filenames = None) ∧
  (∀ members event,
     readData load input_filenames = Some (members, event) →
     last_event load input_filenames = Some event).
Proof.
  unfold readData, last_event.
  pose proof (read_files_spec load input_filenames [] None) as H.
  destruct (read_files load input_filenames [] None) as [[ms data]|]; simpl.
  - destruct H as (Hall & -> & _).
    assert (Hno : ¬ Exists (unreadable load) input_filenames).
    { intros Hex. apply Exists_exists in Hex as (f & Hf & Hbad).
      rewrite Forall_forall in Hall. by apply (Hall f). }
    destruct (last input_filenames) as [f|]; simpl.
    + destruct (load f) as [d|]; simpl.
      * destruct (data_event d) as [ev|]; simpl.
        -- split; [|by intros ?? [= _ <-]].
           split; [done | by intros [?|?]].
        -- split; [|done]. split; [by right | done].
      * split; [|done]. split; [by right | done].
    + split; [|done]. split; [by right | done].
  - split; [|done]. split; [by left | done].
Qed.

Lemma readData_raises_witness :
  readData example_load ["a.json"; "b.json"]%string = None ∧
  last_event example_load ["b.json"; "a.json"]%string = Some "2022"%string.
Proof.
  split.
  - apply (proj1 (readData_raises example_load ["a.json"; "b.json"]%string)).
    right. vm_compute. reflexivity.
  - eapply (proj2 (readData_raises example_load ["b.json"; "a.json"]%string)).
    vm_compute. reflexivity.
Defined.

(** X9.  What [readData] returns has each key once; under a key it holds
    the record of the last file that has the key, and nothing when that
    record has no stars, whatever the earlier files say. *)
Theorem readData_members (load : string → option file_data)
    (input_filenames : list string) (members : odict member)
    (event : string) :
  readData load input_filenames = Some (members, event) →
  NoDup members.*1 ∧
  (∀ k, dict_get k members =
        match dict_get k (reverse (all_records load input_filenames)) with
        | Some m => if decide (stars m ≠ 0) then Some m else None
        | None => None
        end) ∧
  Forall (λ kv, stars kv.2 ≠ 0) members.
Proof.
  unfold readData.
  pose proof (read_files_spec load input_filenames [] None) as H.
  destruct (read_files load input_filenames [] None) as [[ms data]|];
    simpl; [|done].
  destruct H as (_ & _ & ->).
  destruct data as [d|]; simpl; [|done].
  destruct (data_event d) as [ev|]; simpl; [|done].
  intros [= <- <-].
  assert (Hnd : NoDup (dict_update [] (all_records load input_filenames)).*1)
    by (apply dict_update_NoDup; constructor).
  rewrite keep_starred_filter by done.
  split; [by apply filter_keys_NoDup|]. split.
  - intros k. rewrite dict_get_filter by done. rewrite dict_get_update. simpl.
    by destruct (dict_get k (reverse (all_records load input_filenames))).
  - apply Forall_forall. by intros kv [? _]%list_elem_of_filter.
Qed.

Lemma readData_members_witness :
  ∃ members,
    readData example_load ["a.json"; "b.json"; "a.json"]%string
      = Some (members, "2022"%string) ∧
    NoDup members.*1.
Proof.
  eexists. split; [vm_compute; reflexivity|].
  apply (readData_members example_load ["a.json"; "b.json"; "a.json"]%string
           _ "2022"%string).
  vm_compute. reflexivity.
Defined.

Lemma dict_update_keys {V} (d other : odict V) :
  (dict_update d other).*1 =
  d.*1 ++ filter (λ k, k ∉ d.*1) (first_appearances other.*1).
Proof.
  revert d. induction other as [|[k v] other IH]; intros d.
  - simpl. by rewrite app_nil_r.
  - unfold dict_update in *. rewrite fmap_cons. cbn [foldl fst snd first_appearances].
    rewrite IH, dict_set_keys, filter_cons.
    destruct (decide (k ∈ d.*1)) as [Hin|Hnin].
    + rewrite decide_False by (by intros ?). f_equal.
      rewrite list_filter_filter. apply list_filter_iff. intros k'.
      split; [|by intros [? _]]. intros Hk'. split; [done|]. by intros ->.
    + rewrite decide_True by done. rewrite <- app_assoc. f_equal. simpl. f_equal.
      rewrite list_filter_filter. apply list_filter_iff. intros k'.
      rewrite elem_of_app, list_elem_of_singleton. split.
      * intros Hk'. split; [tauto|]. intros ->. tauto.
      * intros [? ?] [?|?]; done.
Qed.

Lemma filter_agree {A} (P Q : A → Prop) `{∀ x, Decision (P x)}
    `{∀ x, Decision (Q x)} (l : list A) :
  (∀ x, x ∈ l → P x ↔ Q x) → filter P l = filter Q l.
Proof.
  induction l as [|x l IH]; intros Hl; [done|].
  rewrite !filter_cons.
  assert (filter P l = filter Q l) as ->
    by (apply IH; intros y Hy; apply Hl; by right).
  destruct (decide (P x)) as [HP|HP].
  - rewrite decide_True; [done|]. apply Hl; [by left | done].
  - rewrite decide_False; [done|]. intros HQ. apply HP, Hl; [by left | done].
Qed.

Lemma filter_keys {V} (P : string * V → Prop) `{∀ x, Decision (P x)}
    (d : odict V) :
  NoDup d.*1 →
  (filter P d).*1 = filter (λ k, is_Some (dict_get k (filter P d))) d.*1.
Proof.
  induction d as [|[k0 v0] d IH]; intros Hnd; [done|].
  rewrite fmap_cons in Hnd. apply NoDup_cons in Hnd as [Hk0 Hnd].
  rewrite fmap_cons. cbn [fst]. rewrite !filter_cons.
  destruct (decide (P (k0, v0))) as [HP|HP].
  - rewrite decide_True
      by (cbn [dict_get]; rewrite decide_True by done; by eexists).
    rewrite fmap_cons. cbn [fst]. f_equal. rewrite IH by done.
    apply filter_agree. intros k Hk. cbn [dict_get].
    rewrite decide_False; [done|]. by intros ->.
  - rewrite decide_False.
    + by apply IH.
    + assert (dict_get k0 (filter P d) = None) as ->; [|by intros [? ?]].
      apply dict_get_None. intros [[k v] [Hk Hin]]%list_elem_of_fmap.
      simpl in Hk. subst k. apply list_elem_of_filter in Hin as [_ Hin].
      apply Hk0. apply list_elem_of_fmap. by exists (k0, v).
Qed.

(** X10.  The keys of what [readData] returns are in the order of their
    first appearance in the files as they are read: a later file that gives
    a key again replaces the record and leaves its place. *)
Theorem readData_order (load : string → option file_data)
    (input_filenames : list string) (members : odict member)
    (event : string) :
  readData load input_filenames = Some (members, event) →
  members.*1 =
  filter (λ k, is_Some (dict_get k members))
         (first_appearances (all_records load input_filenames).*1).
Proof.
  unfold readData.
  pose proof (read_files_spec load input_filenames [] None) as H.
  destruct (read_files load input_filenames [] None) as [[ms data]|];
    simpl; [|done].
  destruct H as (_ & _ & ->).
  destruct data as [d|]; simpl; [|done].
  destruct (data_event d) as [ev|]; simpl; [|done].
  intros [= <- <-].
  assert (Hnd : NoDup (dict_update [] (all_records load input_filenames)).*1)
    by (apply dict_update_NoDup; constructor).
  rewrite keep_starred_filter by done.
  rewrite filter_keys by done. rewrite dict_update_keys. simpl.
  f_equal. clear.
  induction (first_appearances _) as [|k l IH]; [done|].
  rewrite filter_cons, decide_True by apply not_elem_of_nil.
  by rewrite IH.
Qed.

Lemma readData_order_witness :
  ∃ members,
    readData example_load ["b.json"; "a.json"]%string
      = Some (members, "2022"%string) ∧
    members.*1 = ["3"; "1"; "2"]%string.
Proof.
  eexists. split; [vm_compute; reflexivity|].
  rewrite (readData_order example_load ["b.json"; "a.json"]%string
             _ "2022"%string); vm_compute; reflexivity.
Defined.

(** ** getOptions *)

Lemma prefix_flag (c : ascii) (a : string) :
  String.prefix (String "-" (String c "")) a = true ↔
  ∃ s, a = String "-" (String c s).
Proof.
  split.
  - destruct a as [|c1 [|c2 s]]; cbn [String.prefix]; [done| |].
    + by destruct (ascii_dec "-" c1).
    + destruct (ascii_dec "-" c1) as [<-|]; [|done].
      destruct (ascii_dec c c2) as [<-|]; [|done]. by exists s.
  - intros [s ->]. cbn [String.prefix]. destruct (ascii_dec "-" "-"); [|done].
    destruct (ascii_dec c c); [|done]. by destruct s.
Qed.

Lemma prefix_flag_eq (c c' : ascii) (s : string) :
  String.prefix (String "-" (String c "")) (String "-" (String c' s))
  = bool_decide (c = c').
Proof.
  destruct (decide (c = c')) as [->|Hne].
  - rewrite bool_decide_true by done. apply prefix_flag. by exists s.
  - rewrite bool_decide_false by done.
    destruct (String.prefix _ _) eqn:E; [|done].
    apply prefix_flag in E as [s' [= ->]]. done.
Qed.

(** Finds out which test of the chain the argument meets. *)
Local Ltac flag_cases :=
  repeat match goal with
  | |- context [String.prefix ?f ?a] =>
      is_var a; let E := fresh "E" in
      destruct (String.prefix f a) eqn:E;
      [apply prefix_flag in E as [? ->]; rewrite ?prefix_flag_eq; simpl|]
  | |- context [String.eqb ?a ?f] =>
      is_var a; let E := fresh "E" in
      destruct (String.eqb a f) eqn:E;
      [apply String.eqb_eq in E as ->; simpl|]
  end.

Section GetOptionsFacts.

Variable py_int : string → option Z.
Variable py_float : string → option pyfloat.

Local Abbreviation step := (option_step py_int py_float).
Local Abbreviation loop := (options_loop py_int py_float).

Lemma option_step_filenames a t files t' files' :
  step a t files = Some (t', files') →
  files' = files ++ filter (λ a, is_option a = false) [a].
Proof.
  rewrite filter_cons, filter_nil.
  unfold option_step, is_option. flag_cases.
  all: try destruct (split_on _ _) as [|? [|? [|? ?]]].
  all: intros H; simplify_option_eq; by rewrite ?app_nil_r.
Qed.

Lemma options_loop_filenames args t files t' files' :
  loop args t files = Some (t', files') →
  files' = files ++ filter (λ a, is_option a = false) args.
Proof.
  revert t files. induction args as [|a args IH]; intros t files; simpl.
  - intros [= _ <-]. by rewrite app_nil_r.
  - destruct (step a t files) as [[t1 files1]|] eqn:E; [|done]. simpl.
    intros H. apply IH in H as ->. apply option_step_filenames in E as ->.
    rewrite <- app_assoc. f_equal.
    change (a :: args) with ([a] ++ args). by rewrite filter_app.
Qed.

Lemma order_mode_of_letter_None m :
  order_mode_of_letter m = None ↔
  m ∉ ["i"; "g"; "l"; "p"; "s"; "m"]%string.
Proof.
  unfold order_mode_of_letter. split.
  - intros H Hin. repeat (apply elem_of_cons in Hin as [->|Hin]; [done|]).
    by apply elem_of_nil in Hin.
  - intros Hnin.
    repeat (destruct (String.eqb m _) eqn:E;
            [apply String.eqb_eq in E as ->; exfalso; apply Hnin;
             repeat first [by left | right] |]; clear E).
    done.
Qed.

Lemma option_step_None a t files :
  step a t files = None ↔ malformed py_int py_float a.
Proof.
  unfold option_step, malformed, figure_size_of. split.
  - flag_cases; rewrite ?prefix_flag_eq; simpl.
    all: try done.
    + destruct (py_int x); [done|]. by left.
    + destruct (py_int x); [done|]. right. by left.
    + intros H. do 4 right. left. split; [done|].
      destruct (split_on _ _) as [|w [|h [|? ?]]]; try done.
      destruct (py_float w); simpl in *; [|done].
      by destruct (py_float h).
    + destruct (order_mode_of_letter x) eqn:Em; [done|]. intros _.
      do 5 right. split; [done|]. by apply order_mode_of_letter_None.
    + destruct (py_int x); [done|]. do 2 right. by left.
    + destruct (py_float x); [done|]. do 3 right. by left.
  - intros H. flag_cases; rewrite ?prefix_flag_eq in H; simpl in H.
    all: destruct H as [[? H]|[[? H]|[[? H]|[[? H]|[[? H]|[? H]]]]]];
      try done.
    all: try (by rewrite H).
    + destruct (split_on _ _) as [|w [|h [|? ?]]]; try done.
      destruct (py_float w); simpl in *; [|done].
      by destruct (py_float h).
    + apply order_mode_of_letter_None in H. by rewrite H.
Qed.

Lemma options_loop_None args t files :
  loop args t files = None ↔ Exists (malformed py_int py_float) args.
Proof.
  revert t files. induction args as [|a args IH]; intros t files; simpl.
  - split; [done | by intros ?%Exists_nil].
  - rewrite Exists_cons, <- option_step_None with (t := t) (files := files).
    destruct (step a t files) as [[t1 files1]|]; simpl.
    + rewrite IH. split; [by right | by intros [?|?]].
    + split; [by left | done].
Qed.

(** A key of the table after the loop: [R a] holds of its value for the
    last argument [a] that sets it, and without such an argument it is as
    before. *)
Lemma options_loop_field {A} (field : opts_table → A) (P : string → Prop)
    `{∀ a, Decision (P a)} (R : string → A → Prop) :
  (∀ a t files t1 files1,
     step a t files = Some (t1, files1) →
     if decide (P a) then R a (field t1) else field t1 = field t) →
  ∀ args t files t' files',
    loop args t files = Some (t', files') →
    match last (filter P args) with
    | Some a => R a (field t')
    | None => field t' = field t
    end.
Proof.
  intros Hstep args. induction args as [|a args IH]; intros t files t' files'.
  - by intros [= <- _].
  - simpl. destruct (step a t files) as [[t1 files1]|] eqn:E; [|done].
    simpl. intros Hloop. apply IH in Hloop. apply Hstep in E.
    rewrite filter_cons. destruct (decide (P a)).
    + rewrite last_cons. destruct (last (filter P args)); [done|].
      by rewrite Hloop.
    + destruct (last (filter P args)); [done|]. by rewrite Hloop.
Qed.

Lemma options_loop_value {A} (flag : string) (field : opts_table → A)
    (read : string → option A) :
  (∀ a t files t1 files1,
     step a t files = Some (t1, files1) →
     if String.prefix flag a then read (string_drop 2 a) = Some (field t1)
     else field t1 = field t) →
  ∀ args t files t' files',
    loop args t files = Some (t', files') →
    decided_by (last_arg flag args) read (field t) (field t').
Proof.
  intros Hstep args t files t' files' Hloop. unfold decided_by, last_arg.
  opose proof* (options_loop_field field
                  (λ a, String.prefix flag a = true)
                  (λ a v, read (string_drop 2 a) = Some v)
                  _ args t files t' files' Hloop) as H.
  { intros a t0 f0 t1 f1 E. apply Hstep in E.
    destruct (String.prefix flag a) eqn:Ep.
    - by rewrite decide_True.
    - by rewrite decide_False. }
  simpl in H. by destruct (last _).
Qed.


Lemma option_step_table a t files t1 files1 :
  step a t files = Some (t1, files1) →
  (if String.prefix "-d" a
   then py_int (string_drop 2 a) = Some (table_days_passed t1)
   else table_days_passed t1 = table_days_passed t) ∧
  (if String.prefix "-t" a
   then py_int (string_drop 2 a) = Some (table_days_total t1)
   else table_days_total t1 = table_days_total t) ∧
  (if String.prefix "-i" a
   then py_int (string_drop 2 a) = Some (table_day_min t1)
   else table_day_min t1 = table_day_min t) ∧
  (if String.prefix "-l" a
   then float_times_3600 <$> py_float (string_drop 2 a)
        = Some (table_time_limit t1)
   else table_time_limit t1 = table_time_limit t) ∧
  (if String.prefix "-s" a
   then figure_size_of py_float (string_drop 2 a)
        = Some (table_figure_size t1)
   else table_figure_size t1 = table_figure_size t) ∧
  (if String.prefix "-o" a
   then order_mode_of_letter (string_drop 2 a) = Some (table_order_mode t1)
   else table_order_mode t1 = table_order_mode t) ∧
  (if String.prefix "-T" a
   then Some (Some (string_drop 2 a)) = Some (table_figure_title_override t1)
   else table_figure_title_override t1 = table_figure_title_override t) ∧
  (if decide (a = "-n"%string) then table_display_names t1 = false
   else table_display_names t1 = table_display_names t) ∧
  (if decide (a = "-p"%string) then table_display_percentage t1 = false
   else table_display_percentage t1 = table_display_percentage t).
Proof.
  unfold option_step, figure_size_of. flag_cases.
  all: repeat case_decide; simplify_eq.
  all: try destruct (split_on _ _) as [|? [|? [|? ?]]].
  all: intros Hstep; simplify_option_eq; repeat split; try done.
Qed.

End GetOptionsFacts.

(** X11.  The filenames that [getOptions] returns are "a.json" followed by
    the arguments that are no options, in the order of the command line:
    the default file is read also when files are named. *)
Theorem getOptions_filenames (py_int : string → option Z)
    (py_float : string → option pyfloat) (argv : list string)
    (t t' : opts_table) (input_filenames : list string) :
  getOptions py_int py_float argv t = Some (t', input_filenames) →
  input_filenames =
  "a.json"%string :: filter (λ a, is_option a = false) (drop 1 argv).
Proof.
  unfold getOptions. intros H. by apply options_loop_filenames in H as ->.
Qed.

Lemma getOptions_filenames_witness :
  ∃ t' input_filenames,
    getOptions digits_int digits_float
      ["filter_map.py"; "-d3"; "b.json"; "-om"; "-nx"; "-n"]%string OPTS_table
    = Some (t', input_filenames) ∧
    input_filenames = ["a.json"; "b.json"; "-nx"]%string.
Proof.
  eexists _, _. split; [vm_compute; reflexivity|].
  eapply (getOptions_filenames digits_int digits_float
            ["filter_map.py"; "-d3"; "b.json"; "-om"; "-nx"; "-n"]%string
            OPTS_table).
  vm_compute. reflexivity.
Defined.

(** X12.  [getOptions] raises exactly when the value of some option cannot
    be read: the text after "-d", "-t" or "-i" is no integer, that after
    "-l" no float, that after "-s" not two floats with an "x" between, or
    that after "-o" none of the six letters.  The table and the other
    arguments have no part in it. *)
Theorem getOptions_raises (py_int : string → option Z)
    (py_float : string → option pyfloat) (argv : list string)
    (t : opts_table) :
  getOptions py_int py_float argv t = None ↔
  Exists (malformed py_int py_float) (drop 1 argv).
Proof. unfold getOptions. apply options_loop_None. Qed.



(** X14.  No option selects the mode id1000: when [getOptions] returns it,
    it was the mode of the table before and no "-o" was given. *)
Theorem getOptions_never_id1000 (py_int : string → option Z)
    (py_float : string → option pyfloat) (argv : list string)
    (t t' : opts_table) (input_filenames : list string) :
  getOptions py_int py_float argv t = Some (t', input_filenames) →
  table_order_mode t' = id1000 →
  table_order_mode t = id1000 ∧
  Forall (λ a, String.prefix "-o" a = false) (drop 1 argv).
Proof.
  unfold getOptions. intros Hloop Hmode.
  opose proof* (options_loop_value py_int py_float "-o" table_order_mode
                  order_mode_of_letter _ _ _ _ _ _ Hloop) as H.
  { intros a t0 f0 t1 f1 E. apply option_step_table in E. tauto. }
  unfold decided_by, last_arg in H.
  destruct (last (filter _ (drop 1 argv))) as [a|] eqn:El; simpl in H.
  - exfalso. rewrite Hmode in H. unfold order_mode_of_letter in H.
    repeat (destruct (String.eqb _ _); [done|]). done.
  - split; [congruence|]. apply last_None in El.
    apply Forall_forall. intros a Ha.
    destruct (String.prefix "-o" a) eqn:Ep; [|done].
    assert (a ∈ filter (λ a, String.prefix "-o" a = true) (drop 1 argv)) as Hf
      by (by apply list_elem_of_filter).
    rewrite El in Hf. by apply elem_of_nil in Hf.
Qed.

Lemma getOptions_never_id1000_witness :
  ∃ t',
    getOptions digits_int digits_float
      ["filter_map.py"; "-d3"; "b.json"]%string OPTS_table
    = Some (t', ["a.json"; "b.json"]%string) ∧
    Forall (λ a, String.prefix "-o" a = false) ["-d3"; "b.json"]%string.
Proof.
  eexists. split; [vm_compute; reflexivity|].
  eapply (getOptions_never_id1000 digits_int digits_float
            ["filter_map.py"; "-d3"; "b.json"]%string OPTS_table);
    vm_compute; reflexivity.
Defined.

(** ** plotInit *)

Lemma axvlines_app c1 c2 : axvlines (c1 ++ c2) = axvlines c1 ++ axvlines c2.
Proof. unfold axvlines. apply bind_app. Qed.

Lemma axvlines_day_lines color (days : list Z) :
  axvlines (days ≫= day_lines color) =
  days ≫= λ d, [((inject_Z d - DELTA)%Q, color);
                ((inject_Z d + DELTA)%Q, color)].
Proof.
  induction days as [|d days IH]; [done|].
  rewrite !bind_cons, axvlines_app, IH. done.
Qed.

Lemma bind_agree {A B} (f g : A → list B) (l : list A) :
  (∀ x, x ∈ l → f x = g x) → l ≫= f = l ≫= g.
Proof.
  induction l as [|x l IH]; intros H; [done|].
  rewrite !bind_cons, H by (by left). f_equal. apply IH.
  intros y Hy. apply H. by right.
Qed.

Lemma range_app a b c : a ≤ b ≤ c → range a c = range a b ++ range b c.
Proof.
  intros H. unfold range. replace (c - a) with ((b - a) + (c - b)) by lia.
  rewrite seqZ_app by lia. do 2 f_equal. lia.
Qed.

(** X15.  For [1 <= day_min <= days_passed + 1 <= days_total + 1] the
    filter lines that [plotInit] draws are those of the days 1 to
    [days_total], in this order and each day once: the line of part 1 at
    [day - DELTA], then that of part 2 at [day + DELTA], both in the colour
    of the days played when [day_min <= day <= days_passed] and in the other
    colour before and after. *)
Theorem plotInit_filter_lines (t : opts_table) (event : string) :
  1 ≤ table_day_min t → table_day_min t ≤ table_days_passed t + 1 →
  table_days_passed t ≤ table_days_total t →
  axvlines (plotInit t event) =
  range 1 (table_days_total t + 1) ≫= λ d,
    [((inject_Z d - DELTA)%Q, day_color t d);
     ((inject_Z d + DELTA)%Q, day_color t d)].
Proof.
  intros Hmin Hpassed Htotal. unfold plotInit.
  rewrite !axvlines_app, !axvlines_day_lines.
  replace (axvlines [Figure _]) with (@nil (Q * string)) by done.
  replace (axvlines (if DARK then _ else _)) with (@nil (Q * string)) by done.
  replace (axvlines [Axes; _; _; _; _; _; _; _; _]) with (@nil (Q * string))
    by done.
  simpl app.
  rewrite (range_app 1 (table_day_min t) (table_days_total t + 1)) by lia.
  rewrite (range_app (table_day_min t) (table_days_passed t + 1)
             (table_days_total t + 1)) by lia.
  rewrite !bind_app. unfold day_color.
  f_equal; [|f_equal]; apply bind_agree; intros d Hd%elem_of_range.
  - by rewrite bool_decide_false by lia.
  - by rewrite bool_decide_true by lia.
  - by rewrite bool_decide_false by lia.
Qed.

Lemma plotInit_filter_lines_witness :
  axvlines (plotInit (set_table_days_total 3 (set_table_days_passed 2
                        OPTS_table)) "2022") =
  [(1 - DELTA, RED); (1 + DELTA, RED); (2 - DELTA, RED); (2 + DELTA, RED);
   (3 - DELTA, GREY); (3 + DELTA, GREY)]%Q.
Proof.
  rewrite (plotInit_filter_lines
             (set_table_days_total 3 (set_table_days_passed 2 OPTS_table))
             "2022"); [reflexivity | simpl; lia ..].
Defined.

(** With [day_min] beyond [days_passed + 1] the days between the two are
    drawn by the first and by the third loop. *)
Example filter_lines_drawn_twice :
  axvlines (plotInit (set_table_days_total 3 (set_table_days_passed 1
                        (set_table_day_min 3 OPTS_table))) "2022") =
  [(1 - DELTA, GREY); (1 + DELTA, GREY); (2 - DELTA, GREY); (2 + DELTA, GREY);
   (2 - DELTA, GREY); (2 + DELTA, GREY); (3 - DELTA, GREY); (3 + DELTA, GREY)]%Q.
Proof. reflexivity. Qed.

(** ** plotLines and plotEndPoints *)

Lemma length_range a b : length (range a b) = Z.to_nat (b - a).
Proof. unfold range. apply length_seqZ. Qed.

Lemma int_of_float_nonneg (x : Q) :
  (0 <= x)%Q → int_of_float x = Qfloor x ∧ 0 ≤ Qfloor x.
Proof.
  intros Hx. unfold int_of_float. split.
  - destruct (Qlt_le_dec x 0) as [Hneg|_]; [|done]. exfalso.
    apply (Qlt_irrefl 0). by apply Qle_lt_trans with x.
  - change 0 with (Qfloor 0). by apply Qfloor_resp_le.
Qed.

Section DrawingFacts.

Variable sin : Q → Q.

Lemma plot_line_spec d rnd :
  match plot_line sin d rnd with
  | Some (call, d', rnd') =>
      ∃ p f v e xs ys,
        progress (member_of d) = Some p ∧ filtered (member_of d) = Some f ∧
        y (member_of d) = Some v ∧
        end_pos d' = Some (p, e) ∧ member_of d' = member_of d ∧
        name d' = name d ∧
        rnd' = advance 1 rnd ∧
        call = Plot xs ys (if f then GREY else BLUE) ∧
        length ys = length xs ∧
        xs = (λ i, double_round (inject_Z i / inject_Z 100))
               <$> range (-100) (Z.of_nat (length xs) - 100) ∧
        ((0 <= p)%Q →
         Z.of_nat (length xs)
           = 100 + Qfloor (double_round (p * inject_Z 100)) ∧
         ∃ x0, head xs = Some x0 ∧ (x0 == -1)%Q)
  | None =>
      progress (member_of d) = None ∨ filtered (member_of d) = None ∨
      y (member_of d) = None
  end.
Proof.
  unfold plot_line.
  destruct (progress (member_of d)) as [p|]; simpl; [|by left].
  destruct (filtered (member_of d)) as [f|]; simpl; [|by right; left].
  destruct (y (member_of d)) as [v|]; simpl; [|by right; right].
  set (n := int_of_float (double_round (p * inject_Z 100))).
  change (-1 * 100) with (-100).
  eexists p, f, v, _, _, _.
  do 6 (split; [done|]). split; [unfold advance; f_equal; lia|].
  split; [done|]. split; [by rewrite !length_fmap|].
  rewrite length_fmap, length_range. split.
  - destruct (Z.le_gt_cases (-100) n) as [Hn|Hn].
    + do 2 f_equal. lia.
    + rewrite (range_nil (-100) n) by lia. simpl.
      by rewrite (range_nil (-100)) by lia.
  - intros Hp.
    destruct (int_of_float_nonneg (double_round (p * inject_Z 100)))
      as [Hint Hfloor].
    { apply double_round_nonneg. apply Qmult_le_0_compat; [done|].
      discriminate. }
    fold n in Hint. split; [lia|].
    rewrite (range_split (-100) n (-100)) by lia.
    rewrite (range_nil (-100) (-100)) by lia. simpl.
    eexists. split; [done|]. vm_compute. reflexivity.
Qed.

Lemma plotLines_spec members rnd :
  match plotLines sin members rnd with
  | Some (calls, members', rnd') =>
      Forall2 (λ d d', ∃ p v e,
                 progress (member_of d) = Some p ∧ y (member_of d) = Some v ∧
                 end_pos d' = Some (p, e) ∧ member_of d' = member_of d ∧
                 name d' = name d)
              members members' ∧
      Forall2 (λ d call, ∃ p f xs ys,
                 progress (member_of d) = Some p ∧
                 filtered (member_of d) = Some f ∧
                 call = Plot xs ys (if f then GREY else BLUE) ∧
                 length ys = length xs ∧
                 xs = (λ i, double_round (inject_Z i / inject_Z 100))
                        <$> range (-100) (Z.of_nat (length xs) - 100) ∧
                 ((0 <= p)%Q →
                  Z.of_nat (length xs)
                    = 100 + Qfloor (double_round (p * inject_Z 100)) ∧
                  ∃ x0, head xs = Some x0 ∧ (x0 == -1)%Q))
              members calls ∧
      rnd' = advance (length members) rnd
  | None =>
      Exists (λ d, progress (member_of d) = None ∨
                   filtered (member_of d) = None ∨ y (member_of d) = None)
             members
  end.
Proof.
  revert rnd. induction members as [|d members IH]; intros rnd; simpl.
  - split; [constructor|]. split; [constructor|].
    unfold advance. destruct rnd. simpl. f_equal. lia.
  - pose proof (plot_line_spec d rnd) as Hd.
    destruct (plot_line sin d rnd) as [[[call d'] rnd1]|] eqn:E; simpl;
      [|by left].
    destruct Hd as (p & f & v & e & xs & ys & Hp & Hf & Hv & He & Hm & Hn
                    & -> & -> & Hl & Hxs & Hx).
    specialize (IH (advance 1 rnd)).
    destruct (plotLines sin members (advance 1 rnd))
      as [[[calls members'] rnd2]|]; simpl; [|by right].
    destruct IH as (Hends & Hlines & ->).
    split; [|split].
    + constructor; [by exists p, v, e | done].
    + constructor; [by exists p, f, xs, ys | done].
    + unfold advance. simpl. f_equal. lia.
Qed.

End DrawingFacts.

(** X16.  [plotLines] gives every member a line and the key "end_pos" and
    changes no other key.  The line is drawn in the colour of the filtered
    or in that of the others.  Its x values are the doubles nearest to
    [i/100] for the integers [i] from -100 on, one after the other; for a
    progress that is not negative there are [100 + int(progress * 100)] of
    them, as the product is rounded, and the line begins at -1.  The end
    position has the progress as its first component.  One draw is consumed
    for each member. *)
Theorem plotLines_end_pos (sin : Q → Q) (members members' : list drawn_member)
    (calls : list plot_call) (rnd rnd' : rand_state) :
  plotLines sin members rnd = Some (calls, members', rnd') →
  Forall2 (λ d d', ∃ p e,
             progress (member_of d) = Some p ∧ end_pos d' = Some (p, e) ∧
             member_of d' = member_of d ∧ name d' = name d)
          members members' ∧
  Forall2 (λ d call, ∃ p f xs ys,
             progress (member_of d) = Some p ∧
             filtered (member_of d) = Some f ∧
             call = Plot xs ys (if f then GREY else BLUE) ∧
             length ys = length xs ∧
             xs = (λ i, double_round (inject_Z i / inject_Z 100))
                    <$> range (-100) (Z.of_nat (length xs) - 100) ∧
             ((0 <= p)%Q →
              Z.of_nat (length xs)
                = 100 + Qfloor (double_round (p * inject_Z 100)) ∧
              ∃ x0, head xs = Some x0 ∧ (x0 == -1)%Q))
          members calls ∧
  rnd' = advance (length members) rnd.
Proof.
  intros Hrun. pose proof (plotLines_spec sin members rnd) as H.
  rewrite Hrun in H. destruct H as (Hends & Hlines & Hrnd).
  split; [|done].
  eapply Forall2_impl; [exact Hends|].
  intros d d' (p & v & e & Hp & _ & He & Hm & Hn). by exists p, e.
Qed.

(** A member with the progress 1.15 as a double at the height 0.5, with
    the draw 0.9 and the identity for [math.sin]: the product with 100 is
    rounded to the double below 115 and the line has 214 points; the end of
    the line is at 0.4999999999999999, the double below the height. *)
Lemma plotLines_end_pos_witness :
  ∃ xs ys color d' rnd' e,
    plotLines (λ x, x)
      [positioned_drawn 1 (double_round (115 # 100)) false (1 # 2)]
      (constant_rnd (double_round (9 # 10)))
    = Some ([Plot xs ys color], [d'], rnd') ∧
    end_pos d' = Some (double_round (115 # 100), e) ∧
    (e == 4503599627370495 # 9007199254740992)%Q ∧
    length xs = 214%nat ∧
    rnd' = advance 1 (constant_rnd (double_round (9 # 10))).
Proof.
  assert (∃ xs ys color d' rnd' e,
            plotLines (λ x, x)
              [positioned_drawn 1 (double_round (115 # 100)) false (1 # 2)]
              (constant_rnd (double_round (9 # 10)))
            = Some ([Plot xs ys color], [d'], rnd') ∧
            end_pos d' = Some (double_round (115 # 100), e) ∧
            (e == 4503599627370495 # 9007199254740992)%Q)
    as (xs & ys & color & d' & rnd' & e & Hrun & Hend & He).
  { eexists _, _, _, _, _, _. split; [vm_compute; reflexivity|].
    split; vm_compute; reflexivity. }
  exists xs, ys, color, d', rnd', e. do 3 (split; [done|]).
  destruct (plotLines_end_pos (λ x, x) _ _ _ _ _ Hrun)
    as (_ & Hlines & Hrnd).
  split; [|exact Hrnd].
  apply Forall2_cons_1 in Hlines
    as [(p & f & xs' & ys' & [= <-] & _ & [= <- _ _] & _ & _ & Hcount) _].
  destruct Hcount as [Hlen _]; [discriminate|].
  apply Nat2Z.inj. rewrite Hlen. vm_compute. reflexivity.
Defined.

(** X17.  [plotLines] raises exactly when a member lacks one of the keys
    "progress", "filtered" and "y", which [getMemberProgress] and
    [orderMembers] set. *)
Theorem plotLines_raises (sin : Q → Q) (members : list drawn_member)
    (rnd : rand_state) :
  plotLines sin members rnd = None ↔
  Exists (λ d, progress (member_of d) = None ∨
               filtered (member_of d) = None ∨ y (member_of d) = None)
         members.
Proof.
  pose proof (plotLines_spec sin members rnd) as H.
  destruct (plotLines sin members rnd) as [[[calls members'] rnd']|];
    [|done].
  split; [done|]. intros Hex. exfalso.
  destruct H as (Hends & Hlines & _).
  apply Exists_exists in Hex as (d & Hd & Hnone).
  apply list_elem_of_lookup_1 in Hd as [i Hi].
  destruct (Forall2_lookup_l _ _ _ _ _ Hends Hi)
    as (d' & _ & p & v & e & Hp & Hv & _).
  destruct (Forall2_lookup_l _ _ _ _ _ Hlines Hi)
    as (call & _ & p' & f & xs & ys & _ & Hf & _).
  destruct Hnone as [?|[?|?]]; congruence.
Qed.

(** ** From the progress to the labels *)

Lemma orderMembers_sets_y o members rnd :
  Forall (λ m, is_Some (progress_exact m) ∧ is_Some (filtered m)) members →
  ∃ members' rnd',
    orderMembers o members rnd = Some (members', rnd') ∧
    Forall2 (λ m m', ∃ v, m' = set_y v m) members members'.
Proof.
  intros Hen.
  destruct (orderMembers_position_of o members rnd Hen)
    as (ordered & v & members' & rnd' & _ & _ & Hrun & Hpos).
  exists members', rnd'. split; [done|].
  destruct (orderMembers_writes o members rnd members' rnd' Hrun)
    as ([w Hw] & _).
  apply Forall2_same_length_lookup. split.
  - by rewrite Hw, write_ys_length.
  - intros j m m' Hm Hm'. destruct (Hpos j m Hm) as [Hrank Hmagic].
    rewrite Forall_forall in Hen.
    destruct (Hen m) as [_ [b Hb]]; [by eapply list_elem_of_lookup_2|].
    destruct (decide (order_mode_of o = magic)) as [Hmode|Hmode];
      [destruct b|].
    + destruct Hrank as (i & k & _ & Hset); [by right|].
      rewrite Hset in Hm'. eexists. by injection Hm' as <-.
    + destruct Hmagic as (i & k & _ & Hset); [done..|].
      rewrite Hset in Hm'. eexists. by injection Hm' as <-.
    + destruct Hrank as (i & k & _ & Hset); [by left|].
      rewrite Hset in Hm'. eexists. by injection Hm' as <-.
Qed.

Lemma plotEndPoints_names t members :
  table_display_names t = true →
  Forall (λ d, is_Some (filtered (member_of d)) ∧ is_Some (end_pos d))
         members →
  ∃ labels,
    plotEndPoints t members = Some labels ∧
    Forall2 (λ d ann, plot_end_point t d = Some [ann]) members labels.
Proof.
  intros Hnames. induction 1 as [|d members [[f Hf] [[x e] He]] _ IH]; simpl.
  - exists []. by split; [|constructor].
  - destruct IH as (labels & -> & Hall).
    assert (∃ ann, plot_end_point t d = Some [ann]) as [ann Hann].
    { unfold plot_end_point. rewrite Hf, He, Hnames. simpl.
      destruct (f || Qle_bool _ x); by eexists. }
    rewrite Hann. simpl. exists (ann :: labels).
    split; [done|]. by constructor.
Qed.

Lemma plotEndPoints_no_names t members :
  table_display_names t = false →
  Forall (λ d, is_Some (filtered (member_of d)) ∧ is_Some (end_pos d))
         members →
  plotEndPoints t members = Some [].
Proof.
  intros Hnames. induction 1 as [|d members [[f Hf] [[x e] He]] _ IH]; simpl.
  - done.
  - rewrite IH. unfold plot_end_point. rewrite Hf, He, Hnames. done.
Qed.

(** The run of [getMemberProgress], [orderMembers] and [plotLines] over the
    same members: all three return, and the member at [j] comes out with
    the fields of its turn, a position and an end position. *)
Lemma lines_after_progress sin o est ds rnd :
  1 ≤ day_min o → rand_ok rnd →
  ∃ ms1 fbd rnd1 ms2 rnd2 lines ds' rnd3,
    getMemberProgress o est (member_of <$> ds) rnd = Some (ms1, fbd, rnd1) ∧
    orderMembers o ms1 rnd1 = Some (ms2, rnd2) ∧
    plotLines sin (put_members ds ms2) rnd2 = Some (lines, ds', rnd3) ∧
    (∀ d, fbd !! d = if decide (1 ≤ d ≤ days_total o)
                     then Some (eliminated_on o est d (member_of <$> ds))
                     else None) ∧
    length ms2 = length ds ∧ length lines = length ds ∧
    length ds' = length ds ∧
    ∀ j d, ds !! j = Some d →
      ∃ m1 p v e,
        member_result o est (member_of d) m1 ∧ progress m1 = Some p ∧
        ms2 !! j = Some (set_y v m1) ∧
        ds' !! j = Some {| member_of := set_y v m1; name := name d;
                           end_pos := Some (p, e) |}.
Proof.
  intros Hmin Hrnd.
  destruct (getMemberProgress_spec o est (member_of <$> ds) rnd Hmin Hrnd)
    as (ms1 & fbd & rnd1 & Hrun1 & Hall1 & Htal & _).
  assert (Hen : Forall (λ m, is_Some (progress_exact m) ∧ is_Some (filtered m))
                       ms1).
  { apply Forall_forall. intros m1 [j Hj]%list_elem_of_lookup_1.
    destruct (Forall2_lookup_r _ _ _ _ _ Hall1 Hj) as (m & _ & Hres).
    by eapply member_result_enriched. }
  destruct (orderMembers_sets_y o ms1 rnd1 Hen) as (ms2 & rnd2 & Hrun2 & Hall2).
  assert (Hl1 : length ms1 = length ds).
  { apply Forall2_length in Hall1. by rewrite length_fmap in Hall1. }
  assert (Hl2 : length ms2 = length ds).
  { apply Forall2_length in Hall2. lia. }
  assert (Hput : ∀ j d, ds !! j = Some d →
            ∃ m1 v, member_result o est (member_of d) m1 ∧
                    ms2 !! j = Some (set_y v m1) ∧
                    put_members ds ms2 !! j =
                      Some {| member_of := set_y v m1; name := name d;
                              end_pos := end_pos d |}).
  { intros j d Hd.
    destruct (Forall2_lookup_l _ _ _ j (member_of d) Hall1)
      as (m1 & Hm1 & Hres); [by rewrite list_lookup_fmap, Hd|].
    destruct (Forall2_lookup_l _ _ _ j m1 Hall2 Hm1) as (m2 & Hm2 & v & ->).
    exists m1, v. split; [done|]. split; [done|].
    unfold put_members. by rewrite lookup_zip_with, Hd, Hm2. }
  pose proof (plotLines_spec sin (put_members ds ms2) rnd2) as Hlines.
  destruct (plotLines sin (put_members ds ms2) rnd2)
    as [[[lines ds'] rnd3]|] eqn:Hrun3.
  - destruct Hlines as (Hends & Hcalls & _).
    assert (Hlp : length (put_members ds ms2) = length ds).
    { unfold put_members. rewrite length_zip_with. lia. }
    exists ms1, fbd, rnd1, ms2, rnd2, lines, ds', rnd3.
    repeat split; try done.
    + apply Forall2_length in Hcalls. lia.
    + apply Forall2_length in Hends. lia.
    + intros j d Hd. destruct (Hput j d Hd) as (m1 & v & Hres & Hm2 & Hp).
      destruct (Forall2_lookup_l _ _ _ _ _ Hends Hp)
        as (d' & Hd' & p & v' & e & Hprog & Hy & He & Hmo & Hna).
      simpl in Hprog, Hy, Hmo, Hna. injection Hy as <-.
      destruct d' as [mo na ep]. simpl in He, Hmo, Hna. subst mo na ep.
      by exists m1, p, v, e.
  - exfalso. apply Exists_exists in Hlines as (d' & Hin & Hnone).
    apply list_elem_of_lookup_1 in Hin as [j Hj].
    destruct (lookup_lt_is_Some_2 ds j) as [d Hd].
    { apply lookup_lt_Some in Hj. unfold put_members in Hj.
      rewrite length_zip_with in Hj. lia. }
    destruct (Hput j d Hd) as (m1 & v & Hres & _ & Hp).
    rewrite Hp in Hj. injection Hj as <-. simpl in Hnone.
    destruct (member_result_enriched o est _ _ Hres) as [_ [f Hf]].
    destruct Hres as (fa & fb & [(_ & _ & ->)|(? & ? & ? & ? & ? & _ & _ & _ & -> & _)]);
      simpl in Hnone; destruct Hnone as [?|[?|?]]; done.
Qed.

(** X18.  When line 190 gives the start of the event, every timestamp is an
    integer that a double holds, [1 <= day_min], [days_passed <= days_total]
    and the draws are in [[0, 1)], the functions that [main] calls on the
    members return one after the other, for all members, modes and names:
    [getMemberProgress], [orderMembers], [plotLines], [plotEndPoints] and
    [plotStats] find every key and entry they read.  There is one line for
    each member, and one label when names are displayed. *)
Theorem drawing_returns (timestamp : string → option Q) (sin : Q → Q)
    (o : opts) (t : opts_table) (event : string) (event_start_time : Q)
    (ds : list drawn_member) (rnd : rand_state) :
  timestamp event = Some event_start_time →
  Forall (λ d, stamps_in_range (completion_day_level (member_of d))) ds →
  1 ≤ day_min o → days_passed o ≤ days_total o → rand_ok rnd →
  ∃ ms1 fbd rnd1 ms2 rnd2 lines ds' rnd3 labels stats,
    getMemberProgress_event timestamp o event (member_of <$> ds) rnd
      = Some (ms1, fbd, rnd1) ∧
    orderMembers o ms1 rnd1 = Some (ms2, rnd2) ∧
    plotLines sin (put_members ds ms2) rnd2 = Some (lines, ds', rnd3) ∧
    plotEndPoints t ds' = Some labels ∧
    plotStats o ms2 fbd = Some stats ∧
    length lines = length ds ∧
    length labels = if table_display_names t then length ds else 0%nat.
Proof.
  intros Hstart _ Hmin Hpassed Hrnd.
  unfold getMemberProgress_event. rewrite Hstart. simpl.
  destruct (lines_after_progress sin o event_start_time ds rnd Hmin Hrnd)
    as (ms1 & fbd & rnd1 & ms2 & rnd2 & lines & ds' & rnd3 &
        Hrun1 & Hrun2 & Hrun3 & Htal & Hl2 & Hll & Hld & Hat).
  assert (Hkeys : Forall (λ d, is_Some (filtered (member_of d)) ∧
                               is_Some (end_pos d)) ds').
  { apply Forall_forall. intros d' [j Hj]%list_elem_of_lookup_1.
    destruct (lookup_lt_is_Some_2 ds j) as [d Hd].
    { rewrite <- Hld. by eapply lookup_lt_Some. }
    destruct (Hat j d Hd) as (m1 & p & v & e & Hres & _ & _ & Hd').
    rewrite Hd' in Hj. injection Hj as <-. simpl.
    destruct (member_result_enriched o event_start_time _ _ Hres) as [_ Hf].
    split; [done | by eexists]. }
  destruct (plotStats_rows o ms2 fbd) as (rbd & rows & Hrun5 & _);
    [done | | |].
  { intros d Hd. rewrite Htal, decide_True by done.
    eexists. split; [done|]. apply eliminated_on_nonneg. }
  { unfold filtered_upto.
    rewrite (list_fmap_ext (tally_at fbd)
               (λ i, eliminated_on o event_start_time i (member_of <$> ds))).
    - pose proof (eliminated_on_sum o event_start_time
                    (range 1 (days_total o + 1)) (member_of <$> ds)
                    (NoDup_range _ _)) as Hsum.
      rewrite length_fmap in Hsum. lia.
    - intros i x Hi. apply list_elem_of_lookup_2, elem_of_range in Hi.
      unfold tally_at. by rewrite Htal, decide_True by lia. }
  destruct (table_display_names t) eqn:Hnames.
  - destruct (plotEndPoints_names t ds' Hnames Hkeys)
      as (labels & Hrun4 & Hall).
    exists ms1, fbd, rnd1, ms2, rnd2, lines, ds', rnd3, labels, (rbd, rows).
    repeat split; try done. apply Forall2_length in Hall. lia.
  - exists ms1, fbd, rnd1, ms2, rnd2, lines, ds', rnd3, [], (rbd, rows).
    repeat split; try done. by apply plotEndPoints_no_names.
Qed.

Lemma drawing_returns_witness :
  ∃ ms1 fbd rnd1 ms2 rnd2 lines ds' rnd3 labels stats,
    getMemberProgress_event example_timestamp (example_opts 1 magic) "2022"
      (member_of <$> [example_drawn 1 completion_A None;
                      example_drawn 2 completion_B (Some "b"%string)])
      (constant_rnd (9 # 10))
      = Some (ms1, fbd, rnd1) ∧
    orderMembers (example_opts 1 magic) ms1 rnd1 = Some (ms2, rnd2) ∧
    plotLines (λ x, x)
      (put_members [example_drawn 1 completion_A None;
                    example_drawn 2 completion_B (Some "b"%string)] ms2) rnd2
      = Some (lines, ds', rnd3) ∧
    plotEndPoints (example_table 1 magic) ds' = Some labels ∧
    plotStats (example_opts 1 magic) ms2 fbd = Some stats ∧
    length lines = 2%nat ∧ length labels = 2%nat.
Proof.
  apply (drawing_returns example_timestamp (λ x, x) (example_opts 1 magic)
           (example_table 1 magic) "2022" (inject_Z 1669874400)
           [example_drawn 1 completion_A None;
            example_drawn 2 completion_B (Some "b"%string)]
           (constant_rnd (9 # 10)));
    [reflexivity
    | repeat constructor; apply (bool_decide_unpack _); vm_compute; exact I
    | simpl; lia | simpl; lia | rnd_ok].
Defined.

Lemma plot_end_point_label t d f p e :
  table_display_names t = true →
  filtered (member_of d) = Some f → end_pos d = Some (p, e) →
  plot_end_point t d =
  Some [if f || Qle_bool (inject_Z (table_days_total t + 1)) p
        then Annotate (label_of d) (p - (1 # 10))%Q e "center"
               (if f then TEXT_GREY else TEXT)
        else Annotate (label_of d) (p + (1 # 10))%Q e "left"
               (if f then TEXT_GREY else TEXT)].
Proof.
  intros Hnames Hf He. unfold plot_end_point, label_of.
  rewrite Hf, He, Hnames. simpl. by destruct (f || Qle_bool _ p).
Qed.

Lemma core_opts_days_total t o :
  core_opts t = Some o → days_total o = table_days_total t.
Proof.
  unfold core_opts. destruct (table_time_limit t); simpl; [| |done..];
    by intros [= <-].
Qed.

(** X19.  When line 190 gives the start of the event and every timestamp
    is an integer that a double holds, with names displayed the label of a
    member tells how the member stands.  Who never fails is labelled at
    [days_total + 2 - 0.1], centred, in the colour of the text.  Who fails
    on a day up to [days_passed] is labelled 0.1 to the left of the filter
    line that stopped them, centred, in the colour of the filtered.  Who
    fails on a later day is labelled 0.1 to the right of the end of the
    line, aligned left, in the colour of the text, and that end is left of
    [days_total + 1].  The height of the label is the height of the end of
    the member's line, the second component of [end_pos]. *)
Theorem labels_tell_eliminations (timestamp : string → option Q)
    (sin : Q → Q) (o : opts) (t : opts_table) (event : string)
    (event_start_time : Q) (ds : list drawn_member) (rnd : rand_state) :
  timestamp event = Some event_start_time →
  Forall (λ d, stamps_in_range (completion_day_level (member_of d))) ds →
  1 ≤ day_min o → rand_ok rnd →
  core_opts t = Some o → table_display_names t = true →
  ∃ ms1 fbd rnd1 ms2 rnd2 lines ds' rnd3 labels,
    getMemberProgress_event timestamp o event (member_of <$> ds) rnd
      = Some (ms1, fbd, rnd1) ∧
    orderMembers o ms1 rnd1 = Some (ms2, rnd2) ∧
    plotLines sin (put_members ds ms2) rnd2 = Some (lines, ds', rnd3) ∧
    plotEndPoints t ds' = Some labels ∧
    length labels = length ds ∧
    ∀ j d, ds !! j = Some d →
      let cd := completion_day_level (member_of d) in
      ∃ m2 d' p x e align color,
        ms2 !! j = Some m2 ∧ progress m2 = Some p ∧
        ds' !! j = Some d' ∧ end_pos d' = Some (p, e) ∧
        labels !! j = Some (Annotate (label_of d) x e align color) ∧
        (never_fails o event_start_time cd →
           align = "center"%string ∧ color = TEXT ∧
           x = (p - (1 # 10))%Q ∧ p = inject_Z (days_total o + 2)) ∧
        (∀ day, first_failure o event_start_time cd day →
           (day ≤ days_passed o →
              align = "center"%string ∧ color = TEXT_GREY ∧
              x = (p - (1 # 10))%Q ∧
              p = (if pass1 o event_start_time cd day
                   then inject_Z day + DELTA else inject_Z day - DELTA)%Q) ∧
           (days_passed o < day →
              align = "left"%string ∧ color = TEXT ∧
              x = (p + (1 # 10))%Q ∧ (p < inject_Z (days_total o + 1))%Q)).
Proof.
  intros Hstart _ Hmin Hrnd Hcore Hnames.
  unfold getMemberProgress_event. rewrite Hstart. cbn [mbind option_bind].
  apply core_opts_days_total in Hcore.
  destruct (lines_after_progress sin o event_start_time ds rnd Hmin Hrnd)
    as (ms1 & fbd & rnd1 & ms2 & rnd2 & lines & ds' & rnd3 &
        Hrun1 & Hrun2 & Hrun3 & Htal & Hl2 & Hll & Hld & Hat).
  assert (Hkeys : Forall (λ d, is_Some (filtered (member_of d)) ∧
                               is_Some (end_pos d)) ds').
  { apply Forall_forall. intros d' [j Hj]%list_elem_of_lookup_1.
    destruct (lookup_lt_is_Some_2 ds j) as [d Hd].
    { rewrite <- Hld. by eapply lookup_lt_Some. }
    destruct (Hat j d Hd) as (m1 & p & v & e & Hres & _ & _ & Hd').
    rewrite Hd' in Hj. injection Hj as <-. simpl.
    destruct (member_result_enriched o event_start_time _ _ Hres) as [_ Hf].
    split; [done | by eexists]. }
  destruct (plotEndPoints_names t ds' Hnames Hkeys) as (labels & Hrun4 & Hall).
  exists ms1, fbd, rnd1, ms2, rnd2, lines, ds', rnd3, labels.
  do 4 (split; [done|]). split; [apply Forall2_length in Hall; lia|].
  intros j d Hd.
  destruct (Hat j d Hd) as (m1 & p & v & e & Hres & Hp & Hm2 & Hd').
  destruct (Forall2_lookup_l _ _ _ _ _ Hall Hd') as (ann & Hann & Hpoint).
  destruct (member_result_enriched o event_start_time _ _ Hres)
    as [_ [f Hf]].
  rewrite (plot_end_point_label t _ f p e) in Hpoint by done.
  injection Hpoint as <-.
  replace (label_of _) with (label_of d) in Hann.
  2:{ unfold label_of. simpl.
      by destruct Hres as (fa & fb & [(_ & _ & ->)|(? & ? & ? & ? & ? & _ & _ & _ & -> & _)]). }
  rewrite <- Hcore in Hann.
  destruct Hres as (fa & fb & [(Hnf & _ & ->)|(d0 & n & p0 & pe & f0 & Hff & _ & _ & -> & F)]);
    simpl in Hp, Hf; injection Hp as <-; injection Hf as <-.
  - assert (Qle_bool (inject_Z (days_total o + 1))
                     (inject_Z (days_total o + 2)) = true) as Hle.
    { apply Qle_bool_iff. rewrite <- Zle_Qle. lia. }
    rewrite Hle in Hann. simpl in Hann.
    eexists _, _, _, _, e, _, _.
    do 5 (split; [done|]). split; [done|].
    intros day (Hday & Hfail & _). exfalso.
    by rewrite Hnf in Hfail.
  - assert (Hother : ∀ day, first_failure o event_start_time
                              (completion_day_level (member_of d)) day →
                            day = d0)
      by (intros day Hday; by eapply first_failure_unique).
    pose proof Hff as ([_ Hd0] & Hfail0 & _).
    destruct F as (A & B & C & D).
    destruct (decide (d0 ≤ days_passed o)) as [Hreal|Hspec].
    + assert (f0 = true ∧
              p0 = (if pass1 o event_start_time
                             (completion_day_level (member_of d)) d0
                    then inject_Z d0 + DELTA else inject_Z d0 - DELTA)%Q)
        as [-> Hp0].
      { destruct (pass1 o event_start_time _ d0) eqn:E1.
        - destruct C as (-> & -> & ->); done.
        - destruct A as (-> & -> & ->); done. }
      simpl in Hann.
      eexists _, _, _, _, e, _, _.
      do 5 (split; [done|]). split.
      * intros Hnf. exfalso. rewrite (Hnf d0) in Hfail0; [done|].
        by destruct Hff as (? & _).
      * intros day ->%Hother. split; [done | lia].
    + assert (f0 = false ∧ (p0 < inject_Z (days_total o + 1))%Q)
        as [-> Hp0].
      { assert (inject_Z d0 + 1 <= inject_Z (days_total o + 1))%Q as Hq.
        { rewrite inject_Z_plus. apply Qplus_le_l. rewrite <- Zle_Qle. lia. }
        destruct (pass1 o event_start_time _ d0) eqn:E1.
        - destruct D as (-> & -> & _ & Hup); [done | lia |].
          split; [done|]. lra.
        - destruct B as (-> & -> & _ & Hup); [done | lia |].
          split; [done|]. lra. }
      assert (Qle_bool (inject_Z (days_total o + 1)) p0 = false) as Hle.
      { destruct (Qle_bool _ p0) eqn:E; [|done].
        apply Qle_bool_iff in E. lra. }
      rewrite Hle in Hann. simpl in Hann.
      eexists _, _, _, _, e, _, _.
      do 5 (split; [done|]). split.
      * intros Hnf. exfalso. rewrite (Hnf d0) in Hfail0; [done|].
        by destruct Hff as (? & _).
      * intros day ->%Hother. split; [lia | done].
Qed.

Lemma labels_tell_eliminations_witness :
  ∃ ms1 fbd rnd1 ms2 rnd2 lines ds' rnd3 labels,
    getMemberProgress_event example_timestamp (example_opts 1 id1000) "2022"
      (member_of <$> [example_drawn 1 completion_A None;
                      example_drawn 2 completion_B (Some "b"%string)])
      (constant_rnd (9 # 10))
      = Some (ms1, fbd, rnd1) ∧
    orderMembers (example_opts 1 id1000) ms1 rnd1 = Some (ms2, rnd2) ∧
    plotLines (λ x, x)
      (put_members [example_drawn 1 completion_A None;
                    example_drawn 2 completion_B (Some "b"%string)] ms2) rnd2
      = Some (lines, ds', rnd3) ∧
    plotEndPoints (example_table 1 id1000) ds' = Some labels ∧
    length labels = 2%nat.
Proof.
  destruct (labels_tell_eliminations example_timestamp (λ x, x)
              (example_opts 1 id1000) (example_table 1 id1000) "2022"
              (inject_Z 1669874400)
              [example_drawn 1 completion_A None;
               example_drawn 2 completion_B (Some "b"%string)]
              (constant_rnd (9 # 10)))
    as (ms1 & fbd & rnd1 & ms2 & rnd2 & lines & ds' & rnd3 & labels &
        H1 & H2 & H3 & H4 & H5 & _);
    [reflexivity
    | repeat constructor; apply (bool_decide_unpack _); vm_compute; exact I
    | simpl; lia | rnd_ok | reflexivity | reflexivity |].
  by exists ms1, fbd, rnd1, ms2, rnd2, lines, ds', rnd3, labels.
Defined.

(** ** The labels of plotStats *)

Lemma bind_singleton_filter {A B} (Q : A → Prop) `{∀ x, Decision (Q x)}
    (f : A → B) (l : list A) :
  l ≫= (λ x, if decide (Q x) then [f x] else []) = f <$> filter Q l.
Proof.
  induction l as [|x l IH]; [done|].
  rewrite bind_cons, filter_cons, IH. by destruct (decide (Q x)).
Qed.

Lemma remaining_count_step o est d members :
  1 ≤ day_min o → 1 ≤ d →
  remaining_count o est (d - 1) members =
  remaining_count o est d members + eliminated_on o est d members.
Proof.
  intros Hmin Hd.
  pose proof (eliminated_and_remaining o est d members Hmin) as H1.
  pose proof (eliminated_and_remaining o est (d - 1) members Hmin) as H2.
  rewrite (range_snoc 1 d) in H1 by lia. rewrite fmap_app, Zsum_app in H1.
  replace (d - 1 + 1) with d in H2 by lia. simpl in H1. lia.
Qed.

Lemma remaining_count_nonneg o est d members :
  0 ≤ remaining_count o est d members.
Proof. unfold remaining_count. lia. Qed.

Lemma count_labels_spec rbd days (count : Z → Z) :
  (∀ d, d ∈ days → rbd !! d = Some (count d)) →
  count_labels rbd days = Some ((λ d, CountLabel (count d) d) <$> days).
Proof.
  induction days as [|d days IH]; intros H; [done|].
  simpl. rewrite H by left. simpl. rewrite IH; [done|].
  intros d' Hd'. apply H. by right.
Qed.

Lemma pass_frac_one (cur prev : Z) :
  prev ≠ 0 → Qeq_bool (inject_Z cur / inject_Z prev) 1 = bool_decide (cur = prev).
Proof.
  intros Hprev.
  assert (Hq : ¬ (inject_Z prev == 0)%Q).
  { change 0%Q with (inject_Z 0). by rewrite inject_Z_injective. }
  destruct (decide (cur = prev)) as [->|Hne].
  - rewrite bool_decide_true by done. apply Qeq_bool_iff. by field.
  - rewrite bool_decide_false by done.
    destruct (Qeq_bool _ 1) eqn:E; [|done]. exfalso. apply Hne.
    apply Qeq_bool_iff in E. apply inject_Z_injective.
    rewrite <- (Qmult_1_l (inject_Z prev)), <- E. by field.
Qed.

Lemma bind_by_day {B} (h : stat_row → list B)
    (g : Z → list B) (rows : list stat_row) :
  Forall (λ row, h row = g (row_day row)) rows →
  rows ≫= h = (row_day <$> rows) ≫= g.
Proof.
  induction 1 as [|row rows Hrow _ IH]; [done|].
  by rewrite fmap_cons, !bind_cons, Hrow, IH.
Qed.

(** X20.  With percentages displayed, [plotStats] draws "-N%" above
    exactly the days up to [days_passed] on which somebody is eliminated,
    with the share of the members still in the day before who are, and then
    above every day from 0 to [days_passed] the number of members not
    eliminated up to that day. *)
Theorem percent_labels_mark_eliminations (o : opts) (t : opts_table)
    (event_start_time : Q) (members : list member) (rnd : rand_state) :
  1 ≤ day_min o → days_passed o ≤ days_total o → rand_ok rnd →
  table_display_percentage t = true →
  ∃ ms fbd rnd',
    getMemberProgress o event_start_time members rnd = Some (ms, fbd, rnd') ∧
    plotStats_labels o t ms fbd =
    Some (((λ d, PercentLabel
                   (100 * (1 - inject_Z (remaining_count o event_start_time
                                           d members)
                               / inject_Z (remaining_count o event_start_time
                                             (d - 1) members)))%Q d)
             <$> filter (λ d, eliminated_on o event_start_time d members ≠ 0)
                        (range 1 (days_passed o + 1)))
          ++ ((λ d, CountLabel (remaining_count o event_start_time d members)
                               d)
                <$> range 0 (days_passed o + 1))).
Proof.
  intros Hmin Hpassed Hrnd Hshow.
  destruct (getMemberProgress_spec o event_start_time members rnd Hmin Hrnd)
    as (ms & fbd & rnd' & Hrun & Hall & Htal & _).
  assert (Hlen : length ms = length members)
    by (symmetry; by eapply Forall2_length).
  assert (Htally : ∀ i, 1 ≤ i ≤ days_total o →
            tally_at fbd i = eliminated_on o event_start_time i members).
  { intros i Hi. unfold tally_at. by rewrite Htal, decide_True by lia. }
  assert (Hupto : ∀ d, d ≤ days_total o →
            filtered_upto fbd d =
            Zsum ((λ i, eliminated_on o event_start_time i members)
                    <$> range 1 (d + 1))).
  { intros d Hd. unfold filtered_upto. f_equal. apply list_fmap_ext.
    intros i x Hi. apply list_elem_of_lookup_2, elem_of_range in Hi.
    apply Htally. lia. }
  destruct (plotStats_rows o ms fbd) as (rbd & rows & Hstats & Hlook & _ & Hdays & Hok);
    [done | | |].
  { intros d Hd. rewrite Htal, decide_True by done.
    eexists. split; [done|]. apply eliminated_on_nonneg. }
  { rewrite Hupto by lia.
    pose proof (eliminated_and_remaining o event_start_time (days_total o)
                  members Hmin).
    pose proof (remaining_count_nonneg o event_start_time (days_total o)
                  members). lia. }
  assert (Hcount : ∀ d, 0 ≤ d ≤ days_total o →
            rbd !! d = Some (remaining_count o event_start_time d members)).
  { intros d Hd. rewrite Hlook, decide_True by lia. f_equal.
    rewrite Hupto by lia.
    pose proof (eliminated_and_remaining o event_start_time d members Hmin).
    lia. }
  exists ms, fbd, rnd'. split; [done|].
  unfold plotStats_labels. rewrite Hstats. simpl. rewrite Hshow.
  rewrite (count_labels_spec rbd _
             (λ d, remaining_count o event_start_time d members)).
  2:{ intros d Hd%elem_of_range. apply Hcount. lia. }
  simpl. do 2 f_equal.
  rewrite (bind_by_day (percent_label t)
             (λ d, if decide (eliminated_on o event_start_time d members ≠ 0)
                   then [PercentLabel
                           (100 * (1 - inject_Z (remaining_count o
                                        event_start_time d members)
                                       / inject_Z (remaining_count o
                                           event_start_time (d - 1) members)))%Q
                           d]
                   else [])).
  - rewrite Hdays, bind_singleton_filter. f_equal.
    rewrite list_filter_filter. apply filter_agree.
    intros d Hd%elem_of_range. split; [by intros [? _]|].
    intros Hne. split; [done|]. rewrite Hcount by lia. intros [= Hzero].
    pose proof (remaining_count_step o event_start_time d members Hmin).
    pose proof (remaining_count_nonneg o event_start_time d members).
    pose proof (eliminated_on_nonneg o event_start_time d members). lia.
  - apply Forall_forall. intros row Hrow.
    assert (Hday : 1 ≤ row_day row ≤ days_passed o).
    { assert (row_day row ∈ row_day <$> rows) as Hin
        by (apply list_elem_of_fmap; by exists row).
      rewrite Hdays in Hin. apply list_elem_of_filter in Hin as [_ Hin].
      apply elem_of_range in Hin. lia. }
    rewrite Forall_forall in Hok.
    destruct (Hok row Hrow)
      as (prev & cur & first & Hprev & Hcur & _ & Hnz & _ & Hpf & Hpc & _).
    rewrite Hcount in Hprev, Hcur by lia.
    injection Hprev as <-. injection Hcur as <-.
    unfold percent_label. rewrite Hshow, Hpc, Hpf. simpl.
    rewrite pass_frac_one by done.
    pose proof (remaining_count_step o event_start_time (row_day row)
                  members Hmin) as Hstep.
    destruct (decide (eliminated_on _ _ _ _ ≠ 0)) as [Hne|He].
    + rewrite bool_decide_false by lia. done.
    + rewrite bool_decide_true by lia. done.
Qed.

Lemma percent_labels_mark_eliminations_witness :
  ∃ ms fbd rnd',
    getMemberProgress (example_opts 2 id1000) 0
      [example_member 1 completion_A; example_member 2 completion_B;
       example_member 3 ∅] (constant_rnd (9 # 10))
    = Some (ms, fbd, rnd') ∧
    plotStats_labels (example_opts 2 id1000) OPTS_table ms fbd =
    Some [PercentLabel (100 # 3) 1; PercentLabel (100 # 2) 2;
          CountLabel 3 0; CountLabel 2 1; CountLabel 1 2].
Proof.
  destruct (percent_labels_mark_eliminations (example_opts 2 id1000)
              OPTS_table 0
              [example_member 1 completion_A; example_member 2 completion_B;
               example_member 3 ∅] (constant_rnd (9 # 10)))
    as (ms & fbd & rnd' & Hrun & Hlabels);
    [simpl; lia | simpl; lia | rnd_ok | reflexivity |].
  exists ms, fbd, rnd'. split; [exact Hrun|].
  rewrite Hlabels. vm_compute. reflexivity.
Defined.
